(** * Dynamic module manager: a shallow embedding of [ModuleReloader]
    and [ThreadTemplate]

    The development follows [module_reloader.py] and
    [module_thread_template.py].  A [ModuleReloader] object is a record of
    the five dictionaries the class keeps; the interpreter state it touches
    ([sys.modules], [sys.path]), the files it reads and writes and the lines
    it prints are fields of the same record, so that every method is a
    function from states to states.  Methods that can raise return a
    [result]; [reload_module], whose recursion Python does not bound,
    takes fuel.

    What is outside the two files is part of the environment, and is taken
    as given: the digest of a file, what executing a source leaves in a
    module or raises, what the import system finds for a name, whether the
    Cython tool chain compiles a file, the wall clock.  The backup directory
    exists (the constructor creates it) and holds plain files; module names
    carry no path separator.  The order in which Python lists a directory,
    a [set] or the attributes of a module is the order of the finite map
    that stands for it; the statements below speak of membership only.
    The operations of a module are functions of their arguments and do not
    call back into the reloader.  The worker thread itself runs concurrently: of a
    [ThreadTemplate] only the fields that [start] and [stop] set are kept,
    and the body of the thread is a function of the number of times its
    loop finds the stop event clear and of what its operation does.

    An [exn] is an exception derived from [Exception], which is what the
    handlers of the two files catch.  [exec_from_path] stands for the
    loading of a Python source file: its path has the suffix the import
    system has a source loader for, and of [sys.modules] it tracks the entry
    of the module being loaded; the entries that the import statements of an
    executed source add for other names are changes of the environment.
    Of the Cython tool chain only the verdict is kept: what is said about
    files and printed lines holds of registrations that do not ask for
    it. *)

From Stdlib Require Import Strings.Byte.
From stdpp Require Import gmap strings list fin_maps relations.

(** ** Python values, attributes and module objects *)

(** Argument and result values of the operations a module exports. *)
Inductive value :=
  | VNone
  | VBool (b : bool)
  | VInt (z : Z)
  | VStr (s : string).

Global Instance value_eq_dec : EqDecision value.
Proof. solve_decision. Defined.

(** The exceptions the handlers of the reloader tell apart, and
    [OtherException] for any other exception derived from [Exception]. *)
Inductive exn :=
  | KeyError
  | TypeError
  | AttributeError
  | ImportError
  | FileNotFoundError
  | OtherException.

Global Instance exn_eq_dec : EqDecision exn.
Proof. solve_decision. Defined.

(** What calling a callable does: it returns a value or raises. *)
Inductive call_result :=
  | Returns (v : value)
  | Throws (e : exn).

(** An attribute of a module object.  [AType] is a class, with the
    [__module__] it was defined in; classes are callable.  [AFunc] is any
    other callable, [AValue] a plain value. *)
Inductive attr :=
  | AType (defmod : string) (ctor : list value → gmap string value → call_result)
  | AFunc (body : list value → gmap string value → call_result)
  | AValue (v : value).

(** [isinstance(attr, type)] *)
Definition is_type (a : attr) : option string :=
  match a with AType m _ => Some m | _ => None end.

(** [callable(attr)] *)
Definition callable (a : attr) : bool :=
  match a with AValue _ => false | _ => true end.

(** Calling [attr] on positional and keyword arguments; calling a plain
    value raises [TypeError]. *)
Definition call (a : attr) (args : list value) (kw : gmap string value)
  : call_result :=
  match a with
  | AType _ f | AFunc f => f args kw
  | AValue _ => Throws TypeError
  end.

(** A module object: its [__name__] and the attributes the executed source
    left in it (what [dir] lists and [getattr] finds). *)
Record pymodule := PyModule {
  mod_name : string;
  mod_dict : gmap string attr
}.

Definition getattr (m : pymodule) (a : string) : option attr :=
  mod_dict m !! a.

(** A source file: its bytes, and what executing it does.  [src_raises] is
    the exception the execution ends with, if any; [src_dict] is the
    namespace at the end of the execution, or at the point where it
    raised. *)
Record source := Source {
  src_bytes : list byte;
  src_dict : gmap string attr;
  src_raises : option exn
}.

(** ** Printed lines *)

Inductive msg :=
  | MsgHashError (path : string)
  | MsgBackupExists (name : string)
  | MsgBackupCreated (name path : string)
  | MsgBackupError (name : string)
  | MsgNoBackupFiles (name : string)
  | MsgLoadingBackup (name file : string)
  | MsgBackupLoadError
  | MsgAlreadyRegistered (name : string)
  | MsgUsingCython (name : string)
  | MsgCythonImportFailed
  | MsgCustomPathError
  | MsgBothFailed (name : string)
  | MsgRegistered (name : string)
  | MsgRegisterError (name : string)
  | MsgRegisteredFromBackup (name : string)
  | MsgNotRegistered (name : string)
  | MsgKilling (name : string)
  | MsgReloaded (name : string)
  | MsgRestarting (name : string)
  | MsgThreadStarted
  | MsgThreadAlreadyRunning
  | MsgThreadStopping
  | MsgThreadStopped
  | MsgThreadNotRunning
  | MsgStarted (func name : string)
  | MsgFunctionNotFound (func name : string)
  | MsgStartError (name : string)
  | MsgKilled (name : string)
  | MsgNoThread (name : string)
  | MsgNotCallable (func name : string)
  | MsgImportError (name : string)
  | MsgAccessError (func name : string)
  | MsgExecError (func name : string).

Global Instance msg_eq_dec : EqDecision msg.
Proof. solve_decision. Defined.

(** ** Worker threads: [ThreadTemplate] *)

(** The bookkeeping of a [ThreadTemplate] object.  The body of the thread
    ([_run]) runs concurrently; [start] and [stop] set the flags below
    whatever the thread does. *)
Record ThreadTemplate := Thread {
  _stop_event : bool;
  _is_running : bool;
  main_function : attr;
  main_function_parameter : gmap string value;
  func_type : value
}.

(** The stored configuration of a worker:
    [{'target_function': .., 'args': .., 'kwargs': ..}]. *)
Record thread_config := Config {
  cfg_target_function : string;
  cfg_args : list value;
  cfg_kwargs : gmap string value
}.

Global Instance thread_config_eq_dec : EqDecision thread_config.
Proof. solve_decision. Defined.

(** ** The state *)

Record state := State {
  (* the fields of a ModuleReloader *)
  _loaded_modules : gmap string pymodule;
  _module_dependencies : gmap string (list string);
  _module_threads : gmap string ThreadTemplate;
  _thread_configs : gmap string thread_config;
  module_path : gmap string string;
  (* the interpreter *)
  sys_modules : gmap string pymodule;
  sys_path : list string;
  (* the environment: files by path, the entries of [backup_dir] by file
     name, what the import system finds for a name, the paths the Cython
     tool chain compiles, and the formatted wall clock *)
  files : gmap string source;
  backups : gmap string source;
  finder : gmap string source;
  cythonizable : gset string;
  now : string;
  (* standard output, oldest line first *)
  stdout : list msg
}.

Definition print (m : msg) (st : state) : state :=
  State (_loaded_modules st) (_module_dependencies st) (_module_threads st)
        (_thread_configs st) (module_path st) (sys_modules st) (sys_path st)
        (files st) (backups st) (finder st) (cythonizable st) (now st)
        (stdout st ++ [m]).

Definition print_lines (ms : list msg) (st : state) : state :=
  State (_loaded_modules st) (_module_dependencies st) (_module_threads st)
        (_thread_configs st) (module_path st) (sys_modules st) (sys_path st)
        (files st) (backups st) (finder st) (cythonizable st) (now st)
        (stdout st ++ ms).

Definition set_loaded_modules (f : gmap string pymodule → gmap string pymodule)
    (st : state) : state :=
  State (f (_loaded_modules st)) (_module_dependencies st) (_module_threads st)
        (_thread_configs st) (module_path st) (sys_modules st) (sys_path st)
        (files st) (backups st) (finder st) (cythonizable st) (now st)
        (stdout st).

Definition set_module_dependencies
    (f : gmap string (list string) → gmap string (list string))
    (st : state) : state :=
  State (_loaded_modules st) (f (_module_dependencies st)) (_module_threads st)
        (_thread_configs st) (module_path st) (sys_modules st) (sys_path st)
        (files st) (backups st) (finder st) (cythonizable st) (now st)
        (stdout st).

Definition set_module_threads
    (f : gmap string ThreadTemplate → gmap string ThreadTemplate)
    (st : state) : state :=
  State (_loaded_modules st) (_module_dependencies st) (f (_module_threads st))
        (_thread_configs st) (module_path st) (sys_modules st) (sys_path st)
        (files st) (backups st) (finder st) (cythonizable st) (now st)
        (stdout st).

Definition set_thread_configs
    (f : gmap string thread_config → gmap string thread_config)
    (st : state) : state :=
  State (_loaded_modules st) (_module_dependencies st) (_module_threads st)
        (f (_thread_configs st)) (module_path st) (sys_modules st) (sys_path st)
        (files st) (backups st) (finder st) (cythonizable st) (now st)
        (stdout st).

Definition set_module_path (f : gmap string string → gmap string string)
    (st : state) : state :=
  State (_loaded_modules st) (_module_dependencies st) (_module_threads st)
        (_thread_configs st) (f (module_path st)) (sys_modules st) (sys_path st)
        (files st) (backups st) (finder st) (cythonizable st) (now st)
        (stdout st).

Definition set_sys_modules (f : gmap string pymodule → gmap string pymodule)
    (st : state) : state :=
  State (_loaded_modules st) (_module_dependencies st) (_module_threads st)
        (_thread_configs st) (module_path st) (f (sys_modules st)) (sys_path st)
        (files st) (backups st) (finder st) (cythonizable st) (now st)
        (stdout st).

Definition set_sys_path (f : list string → list string) (st : state) : state :=
  State (_loaded_modules st) (_module_dependencies st) (_module_threads st)
        (_thread_configs st) (module_path st) (sys_modules st) (f (sys_path st))
        (files st) (backups st) (finder st) (cythonizable st) (now st)
        (stdout st).

Definition set_backups (f : gmap string source → gmap string source)
    (st : state) : state :=
  State (_loaded_modules st) (_module_dependencies st) (_module_threads st)
        (_thread_configs st) (module_path st) (sys_modules st) (sys_path st)
        (files st) (f (backups st)) (finder st) (cythonizable st) (now st)
        (stdout st).

(** The outcome of a method that can raise, or whose recursion can exceed
    any given depth. *)
Inductive result :=
  | Done (st : state)
  | Raised (e : exn) (st : state)
  | OutOfFuel.

(** ** Paths and file names *)

(** [self.backup_dir] *)
Definition backup_dir : string := "module_backups".

(** [os.path.join(self.backup_dir, f)] *)
Definition backup_path (f : string) : string := backup_dir +:+ "/" +:+ f.

(** [s.startswith(p)] *)
Fixpoint startswith (s p : string) {struct p} : bool :=
  match p with
  | "" => true
  | String c p' =>
      match s with
      | "" => false
      | String d s' => if decide (c = d) then startswith s' p' else false
      end
  end.

(** [s.endswith(suf)] *)
Fixpoint endswith (s suf : string) : bool :=
  if decide (s = suf) then true
  else match s with
       | "" => false
       | String _ s' => endswith s' suf
       end.

(** The part of [s] after the prefix [p], when [s] starts with it. *)
Fixpoint strip_prefix (p s : string) : option string :=
  match p with
  | "" => Some s
  | String c p' =>
      match s with
      | "" => None
      | String d s' => if decide (c = d) then strip_prefix p' s' else None
      end
  end.

(** Reading a path: a path below [backup_dir] names an entry of the backup
    directory, any other path a file of [files]. *)
Definition read_file (st : state) (path : string) : option source :=
  match strip_prefix (backup_dir +:+ "/") path with
  | Some f => backups st !! f
  | None => files st !! path
  end.

(** [shutil.copy2(src, dst)] of a readable file. *)
Definition write_file (path : string) (s : source) (st : state) : state :=
  match strip_prefix (backup_dir +:+ "/") path with
  | Some f => set_backups (insert f s) st
  | None =>
      State (_loaded_modules st) (_module_dependencies st) (_module_threads st)
            (_thread_configs st) (module_path st) (sys_modules st) (sys_path st)
            (<[path := s]> (files st)) (backups st) (finder st)
            (cythonizable st) (now st) (stdout st)
  end.

(** [[f for f in os.listdir(self.backup_dir)
      if f.startswith(f"{module_name}_") and f.endswith(".py")]] *)
Definition is_backup_of (module_name f : string) : bool :=
  startswith f (module_name +:+ "_") && endswith f ".py".

Definition backup_files (st : state) (module_name : string) : list string :=
  filter (λ f, is_backup_of module_name f = true)
         (fst <$> map_to_list (backups st)).

(** The entry [sort(reverse=True)] puts first: the greatest name in the
    order of character codes. *)
Definition latest_backup (fs : list string) : option string :=
  foldr (λ f acc,
           match acc with
           | None => Some f
           | Some g => if String.ltb g f then Some f else Some g
           end) None fs.

(** ** [ThreadTemplate] methods *)

Module module_thread_template.

(** [__init__(self, target, func_type=1, *args, **kwargs)]: the extra
    positional arguments are bound and dropped, the keyword arguments are
    kept as the parameters of the operation. *)
Definition __init__ (target : attr) (func_type : value)
    (kwargs : gmap string value) : ThreadTemplate :=
  Thread false false target kwargs func_type.

(** The call [ThreadTemplate(target=target_func, *args, **kwargs)].  The
    first positional argument, when there is one, binds [target], which
    the keyword gives again: [TypeError].  A keyword named [target] or
    [self] clashes in the same way.  A keyword named [func_type] binds the
    parameter of that name and does not reach [**kwargs]. *)
Definition new (target_func : attr) (args : list value)
    (kwargs : gmap string value) : option ThreadTemplate :=
  match args with
  | _ :: _ => None
  | [] =>
      if decide (is_Some (kwargs !! "target") ∨ is_Some (kwargs !! "self"))
      then None
      else Some (__init__ target_func
                   (default (VInt 1) (kwargs !! "func_type"))
                   (delete "func_type" kwargs))
  end.

(** [start] and [stop] give the object as they leave it and the lines they
    print. *)
Definition start (t : ThreadTemplate) : ThreadTemplate * list msg :=
  if _is_running t then (t, [MsgThreadAlreadyRunning])
  else (Thread false true (main_function t) (main_function_parameter t)
          (func_type t), [MsgThreadStarted]).

Definition stop (t : ThreadTemplate) : ThreadTemplate * list msg :=
  if _is_running t
  then (Thread true false (main_function t) (main_function_parameter t)
          (func_type t), [MsgThreadStopping; MsgThreadStopped])
  else (t, [MsgThreadNotRunning]).

Definition is_running (t : ThreadTemplate) : bool := _is_running t.

(** The context manager: [__enter__] starts, [__exit__] stops. *)
Definition __enter__ (t : ThreadTemplate) : ThreadTemplate * list msg :=
  start t.

Definition __exit__ (t : ThreadTemplate) : ThreadTemplate * list msg :=
  stop t.

(** [self.func_type == k], as Python compares: [True] is 1 and [False]
    is 0. *)
Definition func_type_is (t : ThreadTemplate) (k : Z) : bool :=
  match func_type t with
  | VInt z => bool_decide (z = k)
  | VBool b => bool_decide ((if b then 1 else 0)%Z = k)
  | _ => false
  end.

(** What one call of the operation does, as the handler of [_run] sees
    it.  [call] tells of a return and of the exceptions derived from
    [Exception], which the handler catches.  An operation can also leave by
    an exception that is not derived from [Exception] ([SystemExit],
    [KeyboardInterrupt], [GeneratorExit]), which [except Exception] lets
    through: [Exits]. *)
Inductive outcome :=
  | Outcome (r : call_result)
  | Exits.

(** The call of [main_function] in [_run]: the stored keyword arguments
    and no positional one.  Whether an operation leaves by an exception
    that is not an [Exception] is not part of what [call] describes:
    [exits] tells.  A target that cannot be called raises [TypeError]
    whatever it is. *)
Definition invoke (exits : bool) (t : ThreadTemplate) : outcome :=
  if exits && callable (main_function t) then Exits
  else Outcome (call (main_function t) [] (main_function_parameter t)).

(** What the body of the thread does, in the order it does it: a call of
    the operation with its outcome, the report of an exception, the final
    report of the clean-up. *)
Inductive run_event :=
  | RunCall (r : outcome)
  | RunError
  | RunCleanup.

(** How a part of [_run] ends: it goes on to what follows, an exception was
    caught by the handler, or an exception went past the handler. *)
Inductive ending :=
  | Ended
  | Caught
  | Escaped.

(** One call of the operation inside the [try] block. *)
Definition run_call (exits : bool) (t : ThreadTemplate)
  : ending * list run_event :=
  match invoke exits t with
  | Outcome (Returns v) => (Ended, [RunCall (Outcome (Returns v))])
  | Outcome (Throws e) => (Caught, [RunCall (Outcome (Throws e)); RunError])
  | Exits => (Escaped, [RunCall Exits])
  end.

(** The loop of [_run] in continuous mode.  When the stop event is set is
    up to the other threads: [checks] is the number of times the loop finds
    it clear. *)
Fixpoint run_loop (checks : nat) (exits : bool) (t : ThreadTemplate)
  : ending * list run_event :=
  match checks with
  | 0 => (Ended, [])
  | S checks' =>
      match run_call exits t with
      | (Ended, first) =>
          let '(e, events) := run_loop checks' exits t in
          (e, first ++ events)
      | r => r
      end
  end.

(** [_run]: the loop when [func_type] is 1, then one call when it is 0.
    An exception derived from [Exception] ends either, is caught and
    reported; any other exception ends either and leaves [_run]
    unreported.  The [finally] clause reports the clean-up in every case.
    The result tells how the body ended and lists what it did. *)
Definition _run (checks : nat) (exits : bool) (t : ThreadTemplate)
  : ending * list run_event :=
  let '(e1, events) :=
    if func_type_is t 1 then run_loop checks exits t else (Ended, []) in
  let '(e2, once) :=
    match e1 with
    | Ended => if func_type_is t 0 then run_call exits t else (Ended, [])
    | _ => (e1, [])
    end in
  (e2, events ++ once ++ [RunCleanup]).

End module_thread_template.

Import module_thread_template.

(** ** [ModuleReloader] *)

Section ModuleReloader.

(** [hashlib.sha256(b).hexdigest()] *)
Variable sha256 : list byte → string.

(** A new reloader in the environment of [st]; the backup directory is
    created when missing, so that it exists from here on. *)
Definition __init__ (st : state) : state :=
  State ∅ ∅ ∅ ∅ ∅ (sys_modules st) (sys_path st) (files st) (backups st)
        (finder st) (cythonizable st) (now st) (stdout st).

Definition _calculate_file_hash (file_path : string) (st : state)
  : string * state :=
  match read_file st file_path with
  | Some s => (sha256 (src_bytes s), st)
  | None => ("", print (MsgHashError file_path) st)
  end.

(** The loop of [_create_backup] over the backup files of the module. *)
Fixpoint find_same_hash (module_name source_hash : string)
    (fs : list string) (st : state) : option string * state :=
  match fs with
  | [] => (None, st)
  | backup_file :: fs' =>
      let '(backup_hash, st1) :=
        _calculate_file_hash (backup_path backup_file) st in
      if decide (backup_hash = source_hash)
      then (Some (backup_path backup_file),
            print (MsgBackupExists module_name) st1)
      else find_same_hash module_name source_hash fs' st1
  end.

Definition _create_backup (module_name source_path : string) (st : state)
  : string * state :=
  let '(source_hash, st1) := _calculate_file_hash source_path st in
  if decide (source_hash = "") then ("", st1)
  else
    match find_same_hash module_name source_hash
            (backup_files st1 module_name) st1 with
    | (Some p, st2) => (p, st2)
    | (None, st2) =>
        let backup_filename := module_name +:+ "_" +:+ now st2 +:+ ".py" in
        let p := backup_path backup_filename in
        match read_file st2 source_path with
        | Some s => (p, print (MsgBackupCreated module_name p)
                          (write_file p s st2))
        | None => ("", print (MsgBackupError module_name) st2)
        end
    end.

Definition _load_from_backup (module_name : string) (st : state)
  : option pymodule * state :=
  match latest_backup (backup_files st module_name) with
  | None => (None, print (MsgNoBackupFiles module_name) st)
  | Some latest =>
      let st1 := print (MsgLoadingBackup module_name latest) st in
      match read_file st1 (backup_path latest) with
      | Some s =>
          match src_raises s with
          | Some _ => (None, print MsgBackupLoadError st1)
          | None => (Some (PyModule module_name (src_dict s)), st1)
          end
      | None => (None, print MsgBackupLoadError st1)
      end
  end.

(** Of [_create_cython_version] the verdict is kept: the external tool
    chain either compiles the file or does not.  The copy of the source
    with the suffix [.pyx] (line 148), the files the tool chain writes and
    removes and the lines printed on the way are left out, so that of a
    registration with the Cython option the facts below speak of the
    dictionaries of the reloader only, never of the files or of the
    output. *)
Definition _create_cython_version (module_name source_path : string)
    (st : state) : bool :=
  bool_decide (source_path ∈ cythonizable st).

(** [spec_from_file_location], [module_from_spec], the assignment to
    [sys.modules] and [exec_module] (lines 206-209 and 286-289), for the
    path of a Python source file: the new module object is in [sys.modules]
    before its source runs, and stays there when the source raises or is
    missing.  For a path without a suffix the import system has a loader
    for, such as a directory, there is no spec and [module_from_spec]
    raises before [sys.modules] is touched: that case is outside the
    definition, and a fact that depends on the entry of a failed load asks
    for a [python_source] path.  Of [sys.modules] the entry of
    [module_name] is tracked; the entries that the import statements of the
    executed source add for other names are not. *)
Definition exec_from_path (module_name path : string) (st : state)
  : (exn + pymodule) * state :=
  match read_file st path with
  | Some s =>
      let foo := PyModule module_name (src_dict s) in
      let st1 := set_sys_modules (insert module_name foo) st in
      match src_raises s with
      | Some e => (inl e, st1)
      | None => (inr foo, st1)
      end
  | None =>
      (inl FileNotFoundError,
       set_sys_modules (insert module_name (PyModule module_name ∅)) st)
  end.

(** [importlib.import_module(name)]: the cached module when there is one,
    else what the import system finds; a module whose source raises is
    not left in [sys.modules]. *)
Definition import_module (name : string) (st : state)
  : (exn + pymodule) * state :=
  match sys_modules st !! name with
  | Some m => (inr m, st)
  | None =>
      match finder st !! name with
      | None => (inl ImportError, st)
      | Some s =>
          match src_raises s with
          | Some e => (inl e, st)
          | None =>
              let m := PyModule name (src_dict s) in
              (inr m, set_sys_modules (insert name m) st)
          end
      end
  end.

(** [list(set(dependencies))]: the order is the set's own. *)
Definition _get_module_dependencies (module : pymodule) : list string :=
  let dependencies :=
    omap (λ na : string * attr,
            match is_type na.2 with
            | Some module_name =>
                if decide (module_name ≠ "" ∧ module_name ≠ mod_name module)
                then Some module_name else None
            | None => None
            end)
         (map_to_list (mod_dict module)) in
  elements (list_to_set dependencies : gset string).

Definition get_module (module_name : string) (st : state)
  : option pymodule :=
  _loaded_modules st !! module_name.

Definition get_loaded_modules (st : state) : list string :=
  fst <$> map_to_list (_loaded_modules st).

Definition get_module_by_name (module_name : string) (st : state)
  : option pymodule :=
  sys_modules st !! module_name.

(** The registration proper (lines 241-262), with the module object
    [module] that was imported or loaded from a backup. *)
Definition store_module (module_name : string) (module : pymodule)
    (st : state) : state :=
  let st1 := set_loaded_modules (insert module_name module) st in
  let st2 := set_module_dependencies
               (insert module_name (_get_module_dependencies module)) st1 in
  match sys_modules st2 !! module_name with
  | Some _ => st2
  | None => set_sys_modules (insert module_name module) st2
  end.

Definition register_loaded (module_name : string) (st : state) : result :=
  match _loaded_modules st !! module_name with
  | Some _ => Done st
  | None =>
      match import_module module_name st with
      | (inr module, st1) =>
          Done (print (MsgRegistered module_name)
                  (store_module module_name module st1))
      | (inl ImportError, st1) =>
          let st2 := print (MsgRegisterError module_name) st1 in
          match _load_from_backup module_name st2 with
          | (Some backup_module, st3) =>
              Done (print (MsgRegisteredFromBackup module_name)
                      (store_module module_name backup_module st3))
          | (None, st3) => Done (print (MsgBothFailed module_name) st3)
          end
      | (inl e, st1) => Raised e st1
      end
  end.

(** The handler of line 230: the backup replaces the module in
    [sys.modules], or the registration is given up. *)
Definition custom_path_fallback (module_name : string) (st : state)
  : result :=
  let st1 := print MsgCustomPathError st in
  match _load_from_backup module_name st1 with
  | (Some backup_module, st2) =>
      register_loaded module_name
        (set_sys_modules (insert module_name backup_module) st2)
  | (None, st2) => Done (print (MsgBothFailed module_name) st2)
  end.

Definition register_module (module_name : string)
    (custom_path : option string) (use_cython : bool) (st : state)
  : result :=
  match sys_modules st !! module_name with
  | Some _ =>
      (* importlib.reload is handed the name, not a module *)
      Raised TypeError (print (MsgAlreadyRegistered module_name) st)
  | None =>
      match custom_path with
      | Some path =>
          if decide (path ≠ "" ∧ path ∉ sys_path st) then
            let st1 := set_sys_path (λ l, l ++ [path])
                         (set_module_path (insert module_name path) st) in
            match exec_from_path module_name path st1 with
            | (inr foo, st2) =>
                match read_file st2 path with
                | Some _ =>
                    let st3 := (_create_backup module_name path st2).2 in
                    if use_cython
                       && _create_cython_version module_name path st3
                    then
                      let st4 := set_sys_modules (delete module_name) st3 in
                      match import_module module_name st4 with
                      | (inr cython_module, st5) =>
                          register_loaded module_name
                            (print (MsgUsingCython module_name)
                               (set_sys_modules
                                  (insert module_name cython_module) st5))
                      | (inl ImportError, st5) =>
                          register_loaded module_name
                            (print MsgCythonImportFailed st5)
                      | (inl _, st5) =>
                          custom_path_fallback module_name st5
                      end
                    else register_loaded module_name st3
                | None => register_loaded module_name st2
                end
            | (inl _, st2) => custom_path_fallback module_name st2
            end
          else register_loaded module_name st
      | None => register_loaded module_name st
      end
  end.

(** [kill_thread] *)
Definition kill_thread (module_name : string) (st : state) : state :=
  match _module_threads st !! module_name with
  | Some thread =>
      let '(_, ms) := stop thread in
      print (MsgKilled module_name)
        (set_module_threads (delete module_name) (print_lines ms st))
  | None => print (MsgNoThread module_name) st
  end.

(** The body of [start_module_thread]; every exception raised in it is
    caught and reported. *)
Definition start_module_thread_body (module_name target_function : string)
    (args : list value) (kwargs : gmap string value) (st : state) : state :=
  match _loaded_modules st !! module_name with
  | None => print (MsgNotRegistered module_name) st
  | Some module =>
      match getattr module target_function with
      | None => print (MsgFunctionNotFound target_function module_name) st
      | Some target_func =>
          match new target_func args kwargs with
          | None => print (MsgStartError module_name) st
          | Some thread0 =>
              let '(thread, ms) := start thread0 in
              let st1 := print_lines ms st in
              let st2 := set_module_threads (insert module_name thread) st1 in
              let st3 := set_thread_configs
                           (insert module_name
                              (Config target_function args kwargs)) st2 in
              print (MsgStarted target_function module_name) st3
          end
      end
  end.

(** Keyword arguments that Python cannot collect into the [**kwargs] of
    [start_module_thread]: they name parameters that are bound already. *)
Definition binding_clash (kwargs : gmap string value) : Prop :=
  is_Some (kwargs !! "self") ∨ is_Some (kwargs !! "module_name")
  ∨ is_Some (kwargs !! "target_function").

Global Instance binding_clash_dec kwargs : Decision (binding_clash kwargs).
Proof. unfold binding_clash. apply _. Defined.

(** [start_module_thread(module_name, target_function, *args, **kwargs)],
    called with the first two arguments in position. *)
Definition start_module_thread (module_name target_function : string)
    (args : list value) (kwargs : gmap string value) (st : state) : result :=
  if decide (binding_clash kwargs) then Raised TypeError st
  else Done (start_module_thread_body module_name target_function
               args kwargs st).

(** The call of lines 306-311, which names [module_name] and
    [target_function] by keyword and unpacks the stored [args] in front of
    them: a stored positional argument binds [module_name] a second
    time. *)
Definition restart_module_thread (module_name : string)
    (thread_config : thread_config) (st : state) : result :=
  match cfg_args thread_config with
  | _ :: _ => Raised TypeError st
  | [] =>
      start_module_thread module_name (cfg_target_function thread_config)
        [] (cfg_kwargs thread_config) st
  end.

(** The loop of lines 297-299 over the list [deps], with [reload] the
    recursive call. *)
Fixpoint reload_dependencies (reload : string → state → result)
    (deps : list string) (st : state) : result :=
  match deps with
  | [] => Done st
  | dep_module :: deps' =>
      match _loaded_modules st !! dep_module with
      | Some _ =>
          match reload dep_module st with
          | Done st1 => reload_dependencies reload deps' st1
          | r => r
          end
      | None => reload_dependencies reload deps' st
      end
  end.

(** Lines 280-282: a worker of the module is killed before the reload. *)
Definition kill_existing_threads (module_name : string) (st : state)
  : state :=
  match _module_threads st !! module_name with
  | Some _ => kill_thread module_name (print (MsgKilling module_name) st)
  | None => st
  end.

(** [reload_module]; [fuel] bounds the depth of the recursion. *)
Fixpoint reload_module (fuel : nat) (module_name : string) (st : state)
  : result :=
  match fuel with
  | 0 => OutOfFuel
  | S fuel' =>
      match _loaded_modules st !! module_name with
      | None => Done (print (MsgNotRegistered module_name) st)
      | Some _ =>
          let thread_config := _thread_configs st !! module_name in
          let st1 := kill_existing_threads module_name st in
          match module_path st1 !! module_name with
          | None => Raised KeyError st1
          | Some path =>
              match exec_from_path module_name path st1 with
              | (inl e, st2) => Raised e st2
              | (inr foo, st2) =>
                  let st3 := set_loaded_modules (insert module_name foo) st2 in
                  let deps := _get_module_dependencies foo in
                  let st4 := set_module_dependencies
                               (insert module_name deps) st3 in
                  match reload_dependencies (reload_module fuel') deps st4
                  with
                  | Done st5 =>
                      let st6 := print (MsgReloaded module_name) st5 in
                      match thread_config with
                      | Some cfg =>
                          restart_module_thread module_name cfg
                            (print (MsgRestarting module_name) st6)
                      | None => Done st6
                      end
                  | r => r
                  end
              end
          end
      end
  end.

(** [reload_all]: the loop over the names that were registered when it
    started. *)
Fixpoint reload_each (reload : string → state → result)
    (names : list string) (st : state) : result :=
  match names with
  | [] => Done st
  | module_name :: names' =>
      match reload module_name st with
      | Done st1 => reload_each reload names' st1
      | r => r
      end
  end.

Definition reload_all (fuel : nat) (st : state) : result :=
  reload_each (reload_module fuel) (get_loaded_modules st) st.

(** The handlers of [load_module_function], in their order: [ImportError],
    [AttributeError], any other exception. *)
Definition report_exception (e : exn) (module_name function_name : string)
  : msg :=
  match e with
  | ImportError => MsgImportError module_name
  | AttributeError => MsgAccessError function_name module_name
  | _ => MsgExecError function_name module_name
  end.

(** [load_module_function] *)
Definition load_module_function (module_name function_name : string)
    (args : list value) (kwargs : gmap string value) (st : state)
  : value * state :=
  let found : (exn + pymodule) * state :=
    match _loaded_modules st !! module_name with
    | Some module => (inr module, st)
    | None =>
        match sys_modules st !! module_name with
        | Some module => (inr module, st)
        | None =>
            match import_module module_name st with
            | (inr module, st1) =>
                (inr module,
                 set_loaded_modules (insert module_name module) st1)
            | (inl e, st1) => (inl e, st1)
            end
        end
    end in
  match found with
  | (inl e, st1) =>
      (VNone, print (report_exception e module_name function_name) st1)
  | (inr module, st1) =>
      match getattr module function_name with
      | None =>
          (VNone, print (MsgAccessError function_name module_name) st1)
      | Some target_func =>
          if callable target_func then
            match call target_func args kwargs with
            | Returns v => (v, st1)
            | Throws e =>
                (VNone,
                 print (report_exception e module_name function_name) st1)
            end
          else (VNone, print (MsgNotCallable function_name module_name) st1)
      end
  end.

End ModuleReloader.

(** ** The environment between calls *)


(** A file of the backup directory that [_create_backup] takes for a backup
    of [module_name] and whose content has the hash [h]. *)
Definition is_record (sha256 : list byte → string) (st : state)
    (module_name h f : string) : Prop :=
  is_backup_of module_name f = true
  ∧ ∃ s, backups st !! f = Some s ∧ sha256 (src_bytes s) = h.

(** [_create_backup] went as far as copying the source: it printed the line
    that follows [shutil.copy2], or the line of the handler. *)
Definition attempted_copy (module_name : string) (out : list msg) : Prop :=
  (∃ p, MsgBackupCreated module_name p ∈ out) ∨ MsgBackupError module_name ∈ out.

(** The source files are edited. *)
Definition set_files (fs : gmap string source) (st : state) : state :=
  State (_loaded_modules st) (_module_dependencies st) (_module_threads st)
        (_thread_configs st) (module_path st) (sys_modules st) (sys_path st)
        fs (backups st) (finder st) (cythonizable st) (now st) (stdout st).

(** ** The graphs a reload can walk *)

(** The source [reload_module] executes for [n]: the file at the path
    registered for [n], when it runs to its end. *)
Definition source_of (st : state) (n : string) : option source :=
  match module_path st !! n with
  | Some path =>
      match read_file st path with
      | Some s => match src_raises s with Some _ => None | None => Some s end
      | None => None
      end
  | None => None
  end.

(** The dependencies a reload of [n] records. *)
Definition dependencies_of (st : state) (n : string) : list string :=
  match source_of st n with
  | Some s => _get_module_dependencies (PyModule n (src_dict s))
  | None => []
  end.

(** The dependencies recorded for [n]. *)
Definition recorded_dependencies (st : state) (n : string) : list string :=
  default [] (_module_dependencies st !! n).

(** The graph of a successor function, restricted to registered names. *)
Definition registered_edge (st : state) (succ : string → list string)
  : relation string :=
  λ n d, is_Some (_loaded_modules st !! n) ∧ is_Some (_loaded_modules st !! d)
         ∧ d ∈ succ n.

Global Instance registered_edge_dec st succ n d :
  Decision (registered_edge st succ n d).
Proof. unfold registered_edge. apply _. Defined.

(** [n → d] in the graph the cascade of [reload_module] follows: the
    dependencies scanned from the freshly loaded module of [n], restricted
    to registered names. *)
Definition dep_edge (st : state) : relation string :=
  registered_edge st (dependencies_of st).

Global Instance dep_edge_dec st n d : Decision (dep_edge st n d).
Proof. unfold dep_edge. apply _. Defined.

(** [n → d] in the graph recorded in [_module_dependencies], restricted to
    registered names. *)
Definition recorded_edge (st : state) : relation string :=
  registered_edge st (recorded_dependencies st).

Global Instance recorded_edge_dec st n d : Decision (recorded_edge st n d).
Proof. unfold recorded_edge. apply _. Defined.

(** Every registered module has a source that loads. *)
Definition all_loadable (st : state) : Prop :=
  map_Forall (λ n _, is_Some (source_of st n)) (_loaded_modules st).

(** A cycle of the relation [R] that can be reached from [n]. *)
Definition reaches_cycle (R : relation string) (n : string) : Prop :=
  ∃ x, rtc R n x ∧ tc R x x.

(** How often [name] was reloaded according to the output [out]. *)
Definition reloads_of (name : string) (out : list msg) : nat :=
  length (filter (λ m, m = MsgReloaded name) out).

(** The result is not an exhausted recursion. *)
Definition terminates (r : result) : Prop := r ≠ OutOfFuel.

(** [P] holds of the state a call ends in, whether it returns or raises. *)
Definition result_after (P : state → Prop) (r : result) : Prop :=
  match r with
  | Done st' | Raised _ st' => P st'
  | OutOfFuel => True
  end.

(** ** States a reloader can be in *)

(** A configuration [start_module_thread] can have stored: the call that
    stored it got past the binding of its own arguments and past the
    construction of the [ThreadTemplate]. *)
Definition config_ok (cfg : thread_config) : Prop :=
  cfg_args cfg = [] ∧ ¬ binding_clash (cfg_kwargs cfg)
  ∧ cfg_kwargs cfg !! "target" = None.

Global Instance config_ok_dec cfg : Decision (config_ok cfg).
Proof. unfold config_ok. apply _. Defined.

(** What holds of the dictionaries of a reloader however it was used:
    dependencies, workers and configurations are recorded for registered
    names only, a worker has a configuration, and every configuration is one
    that [start_module_thread] stores. *)
Record wf (st : state) : Prop := Wf {
  wf_dependencies :
    dom (_module_dependencies st) ⊆ dom (_loaded_modules st);
  wf_threads : dom (_module_threads st) ⊆ dom (_thread_configs st);
  wf_configs : dom (_thread_configs st) ⊆ dom (_loaded_modules st);
  wf_config_ok : map_Forall (λ _ cfg, config_ok cfg) (_thread_configs st)
}.

(** The state [st'] has the sources, the paths and the registered names of
    [st]: everything the walk of a reload depends on. *)
Definition same_sources (st st' : state) : Prop :=
  files st' = files st ∧ backups st' = backups st
  ∧ module_path st' = module_path st
  ∧ dom (_loaded_modules st') = dom (_loaded_modules st).

(** The output of [st'] continues the output of [st]. *)
Definition output_grows (st st' : state) : Prop :=
  stdout st `prefix_of` stdout st'.

(** What was printed after [st] on the way to [st']. *)
Definition new_output (st st' : state) : list msg :=
  drop (length (stdout st)) (stdout st').

(** The state in which the cascade of a reload of [n] starts, [s] being the
    source that was executed. *)
Definition reloaded (n : string) (s : source) (st : state) : state :=
  let foo := PyModule n (src_dict s) in
  set_module_dependencies (insert n (_get_module_dependencies foo))
    (set_loaded_modules (insert n foo)
       (set_sys_modules (insert n foo) (kill_existing_threads n st))).

(** What follows the cascade: the report and the restart of the worker. *)
Definition finish_reload (n : string) (thread_config : option thread_config)
    (r : result) : result :=
  match r with
  | Done st5 =>
      let st6 := print (MsgReloaded n) st5 in
      match thread_config with
      | Some cfg => restart_module_thread n cfg (print (MsgRestarting n) st6)
      | None => Done st6
      end
  | r => r
  end.

(** The step from [st] to [st'] keeps states well formed. *)
Definition keeps_wf (st st' : state) : Prop := wf st → wf st'.

(** The body of [reload_module], with [reload] for the recursive call. *)
Definition reload_body (reload : string → state → result)
    (module_name : string) (st : state) : result :=
  match _loaded_modules st !! module_name with
  | None => Done (print (MsgNotRegistered module_name) st)
  | Some _ =>
      let st1 := kill_existing_threads module_name st in
      match module_path st1 !! module_name with
      | None => Raised KeyError st1
      | Some path =>
          match exec_from_path module_name path st1 with
          | (inl e, st2) => Raised e st2
          | (inr foo, st2) =>
              let deps := _get_module_dependencies foo in
              finish_reload module_name (_thread_configs st !! module_name)
                (reload_dependencies reload deps
                   (set_module_dependencies (insert module_name deps)
                      (set_loaded_modules (insert module_name foo) st2)))
          end
      end
  end.

(** The state of a result, [d] when there is none. *)
Definition state_of (r : result) (d : state) : state :=
  match r with
  | Done st | Raised _ st => st
  | OutOfFuel => d
  end.

(** ** Example environments *)

(** A stand-in for the digest: injective and never empty. *)
Definition toy_hash (b : list byte) : string :=
  "h" +:+ String.string_of_list_byte b.

Definition returns_none : list value → gmap string value → call_result :=
  λ _ _, Returns VNone.

Definition empty_env : state :=
  State ∅ ∅ ∅ ∅ ∅ ∅ [] ∅ ∅ ∅ ∅ "20240101_000000" [].

(** A module [calc] with an operation [tick] and a constant [VERSION]; a
    later version of its source without [tick]; a version that raises. *)
Definition calc_v1 : source :=
  Source [x01] {[ "tick" := AFunc returns_none; "VERSION" := AValue (VInt 3) ]}
         None.

Definition calc_v2 : source :=
  Source [x02] {[ "tock" := AFunc returns_none ]} None.

Definition calc_broken : source := Source [x03] ∅ (Some OtherException).

Definition calc_state : state :=
  state_of (register_module toy_hash "calc" (Some "calc.py") false
              (__init__ (set_files {[ "calc.py" := calc_v1 ]} empty_env)))
           empty_env.

(** [calc] with a worker on [tick], started with the keyword [n=1]. *)
Definition worker_state : state :=
  state_of (start_module_thread "calc" "tick" [] {[ "n" := VInt 1 ]} calc_state)
           empty_env.

(** Two modules: [b] imports the class [Alpha] of [a]. *)
Definition a_v1 : source :=
  Source [x0a] {[ "Alpha" := AType "a" returns_none ]} None.

Definition b_v1 : source :=
  Source [x0b] {[ "Alpha" := AType "a" returns_none;
                  "Beta" := AType "b" returns_none ]} None.

Definition register_both (a_src b_src : source) : state :=
  state_of
    (register_module toy_hash "b" (Some "b.py") false
       (state_of
          (register_module toy_hash "a" (Some "a.py") false
             (__init__ (set_files {[ "a.py" := a_src; "b.py" := b_src ]}
                          empty_env)))
          empty_env))
    empty_env.

Definition ab_state : state := register_both a_v1 b_v1.

(** Two modules registered while neither imported from the other, whose
    sources were then edited so that each imports a class of the other. *)
Definition b_v0 : source :=
  Source [x1b] {[ "Beta" := AType "b" returns_none ]} None.

Definition a_v2 : source :=
  Source [x2a] {[ "Alpha" := AType "a" returns_none;
                  "Beta" := AType "b" returns_none ]} None.

Definition loop_state : state :=
  set_files {[ "a.py" := a_v2; "b.py" := b_v1 ]} (register_both a_v1 b_v0).

(** Three modules: [top] imports from [mid] and [base], [mid] from
    [base]. *)
Definition base_v1 : source :=
  Source [x10] {[ "Base" := AType "base" returns_none ]} None.

Definition mid_v1 : source :=
  Source [x11] {[ "Base" := AType "base" returns_none;
                  "Mid" := AType "mid" returns_none ]} None.

Definition top_v1 : source :=
  Source [x12] {[ "Base" := AType "base" returns_none;
                  "Mid" := AType "mid" returns_none;
                  "Top" := AType "top" returns_none ]} None.

Definition diamond_state : state :=
  let env := __init__ (set_files {[ "base.py" := base_v1; "mid.py" := mid_v1;
                                    "top.py" := top_v1 ]} empty_env) in
  let st1 := state_of (register_module toy_hash "base" (Some "base.py") false
                         env) empty_env in
  let st2 := state_of (register_module toy_hash "mid" (Some "mid.py") false
                         st1) empty_env in
  state_of (register_module toy_hash "top" (Some "top.py") false st2)
           empty_env.

(** [calc] after its source was replaced by the version that raises. *)
Definition broken_state : state :=
  set_files {[ "calc.py" := calc_broken ]} calc_state.

(** [calc] with its worker running, after [tick] was removed from its
    source. *)
Definition edited_worker_state : state :=
  set_files {[ "calc.py" := calc_v2 ]} worker_state.

(** The same, the worker having been stopped before the edit. *)
Definition edited_killed_state : state :=
  set_files {[ "calc.py" := calc_v2 ]} (kill_thread "calc" worker_state).

(** An environment in which the import system finds a module [util] that
    no one has imported yet. *)
Definition util_src : source :=
  Source [x20] {[ "twice" := AFunc (λ _ _, Returns (VInt 2)) ]} None.

Definition util_env : state :=
  __init__ (State ∅ ∅ ∅ ∅ ∅ ∅ [] ∅ ∅ {[ "util" := util_src ]} ∅
                  "20240101_000000" []).

(** A new reloader next to the source of [calc], with an empty backup
    directory; a first backup of the source, and a second one a minute
    later. *)
Definition fresh_store : state :=
  __init__ (set_files {[ "calc.py" := calc_v1 ]} empty_env).

Definition first_save : string * state :=
  _create_backup toy_hash "calc" "calc.py" fresh_store.


(** The two states have the same registry, dependencies, workers and
    configurations. *)
Definition same_dicts (st st' : state) : Prop :=
  _loaded_modules st' = _loaded_modules st
  ∧ _module_dependencies st' = _module_dependencies st
  ∧ _module_threads st' = _module_threads st
  ∧ _thread_configs st' = _thread_configs st.

(** The call [r] ended in [st'], by returning or by raising. *)
Definition ends_in (r : result) (st' : state) : Prop :=
  r = Done st' ∨ ∃ e, r = Raised e st'.

(** The states a reloader gets into: it is created in some environment, its
    methods are called, and between the calls the environment changes (the
    files are edited, the clock moves on, other code imports modules), which
    leaves the dictionaries of the reloader alone. *)
Inductive reachable (sha256 : list byte → string) : state → Prop :=
  | reachable_init env : reachable sha256 (__init__ env)
  | reachable_environment st st' :
      reachable sha256 st → same_dicts st st' →
      module_path st' = module_path st → reachable sha256 st'
  | reachable_register_module module_name custom_path use_cython st st' :
      reachable sha256 st →
      ends_in (register_module sha256 module_name custom_path use_cython st)
              st' →
      reachable sha256 st'
  | reachable_reload_module fuel module_name st st' :
      reachable sha256 st →
      ends_in (reload_module fuel module_name st) st' →
      reachable sha256 st'
  | reachable_reload_all fuel st st' :
      reachable sha256 st → ends_in (reload_all fuel st) st' →
      reachable sha256 st'
  | reachable_start_module_thread module_name target_function args kwargs
      st st' :
      reachable sha256 st →
      ends_in (start_module_thread module_name target_function args kwargs st)
              st' →
      reachable sha256 st'
  | reachable_kill_thread module_name st :
      reachable sha256 st → reachable sha256 (kill_thread module_name st)
  | reachable_load_module_function module_name function_name args kwargs st :
      reachable sha256 st →
      reachable sha256
        (load_module_function module_name function_name args kwargs st).2.

(** The number of calls of the operation among the events of a thread. *)
Definition is_call (ev : run_event) : bool :=
  match ev with RunCall _ => true | _ => false end.

Definition calls_of (events : list run_event) : nat :=
  length (filter (λ ev, is_call ev = true) events).

(** A backup directory that holds a backup of the module [calc_v2]. *)
Definition v2_store : state :=
  (_create_backup toy_hash "calc_v2" "calc.py" fresh_store).2.


(** A new reloader next to two versions of a source, with an empty backup
    directory. *)
Definition two_versions_store : state :=
  __init__ (set_files {[ "calc.py" := calc_v1; "calc_new.py" := calc_v2 ]}
              empty_env).

(** The state [st'] differs from [st] in the backup directory and in the
    output at most. *)
Definition same_but_backups (st st' : state) : Prop :=
  same_dicts st st'
  ∧ module_path st' = module_path st ∧ sys_modules st' = sys_modules st
  ∧ sys_path st' = sys_path st ∧ files st' = files st
  ∧ finder st' = finder st ∧ cythonizable st' = cythonizable st
  ∧ now st' = now st.

(** What a registration of [n] leaves alone in the dictionaries of the
    reloader: the handle, the dependencies and the path of every other
    name, the handle of [n] when it has one, the workers and the
    configurations. *)
Definition register_frame (n : string) (st st' : state) : Prop :=
  (∀ n', n' ≠ n →
     _loaded_modules st' !! n' = _loaded_modules st !! n'
     ∧ _module_dependencies st' !! n' = _module_dependencies st !! n'
     ∧ module_path st' !! n' = module_path st !! n')
  ∧ (is_Some (_loaded_modules st !! n) →
     _loaded_modules st' !! n = _loaded_modules st !! n)
  ∧ _module_threads st' = _module_threads st
  ∧ _thread_configs st' = _thread_configs st.

(** The files outside the backup directory are those of [st]. *)
Definition same_files (st st' : state) : Prop := files st' = files st.

(** A path of a Python source file: [spec_from_file_location] chooses the
    loader by the suffix of the path, and has none for a path without a
    suffix it knows, such as a directory. *)
Definition python_source (path : string) : Prop :=
  endswith path ".py" = true.

(** A new reloader next to a source of [calc] that raises, without a
    backup; and one in a later run of the program, after the source was
    saved once and then broken. *)
Definition broken_store : state :=
  __init__ (set_files {[ "calc.py" := calc_broken ]} empty_env).

Definition broken_store_with_backup : state :=
  set_files {[ "calc.py" := calc_broken ]} first_save.2.

(** The entries of [x] in the dictionaries of the reloader are those of
    [st]. *)
Definition same_records (x : string) (st st' : state) : Prop :=
  _loaded_modules st' !! x = _loaded_modules st !! x
  ∧ _module_dependencies st' !! x = _module_dependencies st !! x
  ∧ _module_threads st' !! x = _module_threads st !! x
  ∧ _thread_configs st' !! x = _thread_configs st !! x.

(** The same, and the entry of [x] in [sys.modules] stays when there is
    one. *)
Definition same_entry (x : string) (st st' : state) : Prop :=
  same_records x st st'
  ∧ (is_Some (sys_modules st !! x) →
     sys_modules st' !! x = sys_modules st !! x).

(** [calc] with its worker running, after its source was replaced by the
    version that raises. *)
Definition broken_worker_state : state :=
  set_files {[ "calc.py" := calc_broken ]} worker_state.

(** Every worker in the table is marked as running. *)
Definition workers_running (st : state) : Prop :=
  map_Forall (λ _ th, is_running th = true) (_module_threads st).

Definition keeps_running (st st' : state) : Prop :=
  workers_running st → workers_running st'.

(** No record of [st] is missing in [st']: the registered names, the names
    with a dependency set and the names with a worker configuration. *)
Definition keeps_records (st st' : state) : Prop :=
  dom (_loaded_modules st) ⊆ dom (_loaded_modules st')
  ∧ dom (_module_dependencies st) ⊆ dom (_module_dependencies st')
  ∧ dom (_thread_configs st) ⊆ dom (_thread_configs st').

(** One call of a method of the reloader, from [st] to [st']. *)
Inductive method_call (sha256 : list byte → string) (st : state)
  : state → Prop :=
  | call_register_module module_name custom_path use_cython st' :
      ends_in (register_module sha256 module_name custom_path use_cython st)
              st' →
      method_call sha256 st st'
  | call_reload_module fuel module_name st' :
      ends_in (reload_module fuel module_name st) st' →
      method_call sha256 st st'
  | call_reload_all fuel st' :
      ends_in (reload_all fuel st) st' → method_call sha256 st st'
  | call_start_module_thread module_name target_function args kwargs st' :
      ends_in (start_module_thread module_name target_function args kwargs st)
              st' →
      method_call sha256 st st'
  | call_kill_thread module_name :
      method_call sha256 st (kill_thread module_name st)
  | call_load_module_function module_name function_name args kwargs :
      method_call sha256 st
        (load_module_function module_name function_name args kwargs st).2.

(** * Facts *)

(** ** Strings and paths *)

Lemma app_cons c a s : String c a +:+ s = String c (a +:+ s).
Proof. reflexivity. Qed.

Lemma strip_prefix_app p s : strip_prefix p (p +:+ s) = Some s.
Proof.
  induction p as [|c p IH]; [done|].
  rewrite app_cons. simpl. by rewrite decide_True.
Qed.

Lemma startswith_app p s : startswith (p +:+ s) p = true.
Proof.
  induction p as [|c p IH]; [done|].
  rewrite app_cons. simpl. by rewrite decide_True.
Qed.

Lemma app_assoc_str a b c : (a +:+ b) +:+ c = a +:+ (b +:+ c).
Proof.
  induction a as [|x a IH]; [done|]. by rewrite !app_cons, IH.
Qed.

Lemma endswith_app a suf : endswith (a +:+ suf) suf = true.
Proof.
  induction a as [|c a IH].
  - change ("" +:+ suf) with suf. destruct suf; simpl; [done|].
    by rewrite decide_True.
  - rewrite app_cons. simpl. case_decide; [done|]. exact IH.
Qed.

Lemma new_backup_name_is_backup module_name ts :
  is_backup_of module_name (module_name +:+ "_" +:+ ts +:+ ".py") = true.
Proof.
  unfold is_backup_of. apply andb_true_iff. split.
  - rewrite <- app_assoc_str. apply startswith_app.
  - rewrite <- !app_assoc_str. apply endswith_app.
Qed.

Lemma read_file_backup_path st f : read_file st (backup_path f) = backups st !! f.
Proof.
  unfold read_file, backup_path. rewrite <- app_assoc_str.
  by rewrite strip_prefix_app.
Qed.

Lemma write_file_backup_path f s st :
  write_file (backup_path f) s st = set_backups (insert f s) st.
Proof.
  unfold write_file, backup_path. rewrite <- app_assoc_str.
  by rewrite strip_prefix_app.
Qed.

Lemma elem_of_backup_files st module_name f :
  f ∈ backup_files st module_name
  ↔ is_backup_of module_name f = true ∧ is_Some (backups st !! f).
Proof.
  unfold backup_files. rewrite list_elem_of_filter, list_elem_of_fmap.
  split.
  - intros [Hb [[g s] [-> Hin]]]. apply elem_of_map_to_list in Hin. eauto.
  - intros [Hb [s Hs]]. split; [done|]. exists (f, s). split; [done|].
    by apply elem_of_map_to_list.
Qed.

(** ** The backup store *)

Section BackupStore.

Variable sha256 : list byte → string.

(** A hex digest is never the empty string. *)
Hypothesis sha256_nonempty : ∀ b, sha256 b ≠ "".

Lemma calculate_file_hash_backup st f :
  _calculate_file_hash sha256 (backup_path f) st =
  match backups st !! f with
  | Some s => (sha256 (src_bytes s), st)
  | None => ("", print (MsgHashError (backup_path f)) st)
  end.
Proof. unfold _calculate_file_hash. by rewrite read_file_backup_path. Qed.

(** The search only prints. *)
Lemma find_same_hash_frame module_name h fs st :
  let r := find_same_hash sha256 module_name h fs st in
  backups r.2 = backups st ∧ files r.2 = files st ∧ now r.2 = now st.
Proof.
  revert st. induction fs as [|f fs IH]; intros st; simpl; [done|].
  rewrite calculate_file_hash_backup.
  destruct (backups st !! f) as [s|]; case_decide; simpl; try done.
  apply (IH (print _ st)).
Qed.

Lemma find_same_hash_Some module_name h fs st p st' :
  h ≠ "" →
  find_same_hash sha256 module_name h fs st = (Some p, st') →
  ∃ f s, p = backup_path f ∧ f ∈ fs ∧ backups st !! f = Some s
         ∧ sha256 (src_bytes s) = h.
Proof.
  intros Hh. revert st. induction fs as [|f fs IH]; intros st; simpl;
    [done|].
  rewrite calculate_file_hash_backup.
  destruct (backups st !! f) as [s|] eqn:Hf; case_decide; simpl.
  - intros [= <- <-]. exists f, s. set_solver.
  - intros H'. destruct (IH _ H') as (g & s' & ? & ? & ? & ?).
    exists g, s'. set_solver.
  - congruence.
  - intros H'. destruct (IH _ H') as (g & s' & ? & ? & ? & ?).
    exists g, s'. set_solver.
Qed.

Lemma find_same_hash_None module_name h fs st st' :
  find_same_hash sha256 module_name h fs st = (None, st') →
  ∀ f s, f ∈ fs → backups st !! f = Some s → sha256 (src_bytes s) ≠ h.
Proof.
  revert st. induction fs as [|f fs IH]; intros st; simpl.
  - intros _ g s Hg. by apply elem_of_nil in Hg.
  - rewrite calculate_file_hash_backup.
    destruct (backups st !! f) as [s|] eqn:Hf; case_decide; simpl;
      try done; intros H' g s' Hg Hs'.
    + apply elem_of_cons in Hg as [->|Hg]; [congruence|].
      eapply (IH _ H'); eauto.
    + apply elem_of_cons in Hg as [->|Hg]; [congruence|].
      eapply (IH _ H'); eauto.
Qed.

Lemma find_same_hash_finds module_name h fs st f s :
  f ∈ fs → backups st !! f = Some s → sha256 (src_bytes s) = h →
  ∃ p st', find_same_hash sha256 module_name h fs st = (Some p, st').
Proof.
  intros Hin Hf Hh. revert st Hf.
  induction fs as [|g fs IH]; intros st Hf; [by apply elem_of_nil in Hin|].
  simpl. rewrite calculate_file_hash_backup.
  destruct (backups st !! g) as [s'|] eqn:Hg; case_decide; simpl; eauto.
  - apply elem_of_cons in Hin as [->|Hin]; [congruence|]. by apply IH.
  - apply elem_of_cons in Hin as [->|Hin]; [congruence|]. by apply IH.
Qed.

Lemma is_record_backups st st' module_name h f :
  backups st' = backups st →
  is_record sha256 st' module_name h f ↔ is_record sha256 st module_name h f.
Proof. unfold is_record. by intros ->. Qed.

Lemma read_file_frame st st' path :
  backups st' = backups st → files st' = files st →
  read_file st' path = read_file st path.
Proof. unfold read_file. by intros -> ->. Qed.

(** What one call of [_create_backup] on a readable source leaves: a
    record with the hash of the source, which is either one that was there
    before, the store being as it was, or the one new entry, which is
    written only when no record had that hash. *)
Lemma create_backup_post module_name source_path s st :
  read_file st source_path = Some s →
  let h := sha256 (src_bytes s) in
  let r := _create_backup sha256 module_name source_path st in
  files r.2 = files st
  ∧ ∃ f, r.1 = backup_path f
         ∧ is_record sha256 r.2 module_name h f
         ∧ (backups r.2 = backups st
            ∨ ((∀ g, ¬ is_record sha256 st module_name h g)
               ∧ backups r.2 = <[f := s]> (backups st))).
Proof.
  intros Hread h r. subst r. unfold _create_backup, _calculate_file_hash.
  rewrite Hread. rewrite decide_False by apply sha256_nonempty.
  fold h.
  destruct (find_same_hash sha256 module_name h
              (backup_files st module_name) st) as [[p|] st2] eqn:Hfind.
  - pose proof (find_same_hash_frame module_name h
                  (backup_files st module_name) st) as Hfr.
    rewrite Hfind in Hfr. simpl in Hfr. destruct Hfr as (Hb & Hf & _).
    apply find_same_hash_Some in Hfind as (f & s' & -> & Hin & Hs' & Hh);
      [|apply sha256_nonempty].
    apply elem_of_backup_files in Hin as [Hbk _].
    simpl. split; [done|]. exists f. split; [done|]. split; [|by left].
    apply (is_record_backups st); [done|]. split; eauto.
  - pose proof (find_same_hash_frame module_name h
                  (backup_files st module_name) st) as Hfr.
    rewrite Hfind in Hfr. simpl in Hfr. destruct Hfr as (Hb & Hf & Hn).
    rewrite (read_file_frame st) by done. rewrite Hread.
    rewrite write_file_backup_path. simpl. split; [done|].
    eexists. split; [reflexivity|]. split.
    + split; [apply new_backup_name_is_backup|].
      exists s. simpl. by rewrite Hb, lookup_insert_eq.
    + right. split; [|by rewrite Hb].
      intros g [Hbk (s' & Hs' & Hh)].
      eapply (find_same_hash_None _ _ _ _ _ Hfind); eauto.
      apply elem_of_backup_files. eauto.
Qed.



(** C6, as the code has it. When the source cannot be read, so that its
    hash cannot be computed, [_create_backup] reports the failure of the
    hash, returns the empty path and leaves the state otherwise as it was:
    no copy is attempted. *)
Theorem create_backup_unreadable_source module_name source_path st :
  read_file st source_path = None →
  _create_backup sha256 module_name source_path st
  = ("", print (MsgHashError source_path) st).
Proof.
  intros Hread. unfold _create_backup, _calculate_file_hash.
  rewrite Hread. by rewrite decide_True.
Qed.

End BackupStore.

(** ** What every reload preserves *)

(** One induction on the fuel serves every relation between the state
    before and the state after that the steps of [reload_module] respect. *)
Section ReloadInvariant.

Variable R : relation state.
Context `{!PreOrder R}.

Hypothesis R_print : ∀ m st, R st (print m st).
Hypothesis R_kill : ∀ n st, R st (kill_thread n st).
Hypothesis R_exec : ∀ n path st, R st (exec_from_path n path st).2.
Hypothesis R_store : ∀ n foo st,
  is_Some (_loaded_modules st !! n) →
  R st (set_module_dependencies
          (insert n (_get_module_dependencies foo))
          (set_loaded_modules (insert n foo) st)).
Hypothesis R_start : ∀ n f args kw st,
  ¬ binding_clash kw → R st (start_module_thread_body n f args kw st).

Lemma restart_module_thread_rel n cfg st :
  result_after (R st) (restart_module_thread n cfg st).
Proof.
  unfold restart_module_thread, start_module_thread.
  destruct (cfg_args cfg); simpl; [|reflexivity].
  case_decide; simpl; [reflexivity|by apply R_start].
Qed.

Lemma reload_dependencies_rel reload deps :
  (∀ d st, result_after (R st) (reload d st)) →
  ∀ st, result_after (R st) (reload_dependencies reload deps st).
Proof.
  intros Hrel. induction deps as [|d deps IH]; intros st; simpl;
    [reflexivity|].
  destruct (_loaded_modules st !! d); [|apply IH].
  specialize (Hrel d st). destruct (reload d st) as [st1| |]; simpl in *;
    try done.
  specialize (IH st1).
  destruct (reload_dependencies reload deps st1); simpl in *; try done;
    by etrans.
Qed.

Lemma reload_module_rel fuel :
  ∀ n st, result_after (R st) (reload_module fuel n st).
Proof.
  induction fuel as [|fuel IH]; intros n st; simpl; [done|].
  destruct (_loaded_modules st !! n) as [m|] eqn:Hn; simpl;
    [|apply R_print].
  set (st1 := kill_existing_threads n st).
  assert (H1 : R st st1).
  { subst st1. unfold kill_existing_threads.
    destruct (_module_threads st !! n); [|reflexivity].
    etrans; [apply R_print|apply R_kill]. }
  assert (Hn1 : is_Some (_loaded_modules st1 !! n)).
  { subst st1. unfold kill_existing_threads.
    destruct (_module_threads st !! n); [|by eauto].
    unfold kill_thread. simpl.
    destruct (_module_threads st !! n) as [th|]; [destruct (stop th)|];
      simpl; eauto. }
  destruct (module_path st1 !! n) as [path|]; simpl; [|done].
  pose proof (R_exec n path st1) as H2.
  assert (Hn2 : is_Some (_loaded_modules (exec_from_path n path st1).2 !! n)).
  { unfold exec_from_path. destruct (read_file st1 path) as [s|]; [|done].
    by destruct (src_raises s). }
  destruct (exec_from_path n path st1) as [[e|foo] st2]; simpl in *;
    [by etrans|].
  pose proof (R_store n foo st2 Hn2) as H3.
  pose proof (reload_dependencies_rel (reload_module fuel)
                (_get_module_dependencies foo) IH
                (set_module_dependencies
                   (insert n (_get_module_dependencies foo))
                   (set_loaded_modules (insert n foo) st2))) as H4.
  destruct (reload_dependencies _ _ _) as [st5| |]; simpl in *; try done.
  - assert (H5 : R st st5) by (etrans; [|exact H4]; etrans; [|exact H3];
                               by etrans).
    destruct (_thread_configs st !! n) as [cfg|]; simpl.
    + pose proof (restart_module_thread_rel n cfg
                    (print (MsgRestarting n) (print (MsgReloaded n) st5)))
        as H6.
      destruct (restart_module_thread _ _ _); simpl in *; try done;
        (etrans; [exact H5|]; etrans; [apply R_print|];
         etrans; [apply R_print|]; exact H6).
    + etrans; [exact H5|apply R_print].
  - etrans; [|exact H4]. etrans; [|exact H3]. by etrans.
Qed.

End ReloadInvariant.

(** ** The sources, paths and registered names stay *)

Global Instance same_sources_preorder : PreOrder same_sources.
Proof.
  split.
  - by intros st.
  - intros st1 st2 st3 (?&?&?&?) (?&?&?&?). unfold same_sources.
    repeat split; congruence.
Qed.

Lemma same_sources_sym st st' : same_sources st st' → same_sources st' st.
Proof. intros (?&?&?&?). by repeat split. Qed.

Lemma kill_thread_loaded n st :
  _loaded_modules (kill_thread n st) = _loaded_modules st.
Proof.
  unfold kill_thread. destruct (_module_threads st !! n) as [th|]; [|done].
  by destruct (stop th).
Qed.

Lemma kill_thread_same_sources n st : same_sources st (kill_thread n st).
Proof.
  unfold kill_thread. destruct (_module_threads st !! n) as [th|]; [|done].
  by destruct (stop th).
Qed.

Lemma exec_from_path_same_sources n path st :
  same_sources st (exec_from_path n path st).2.
Proof.
  unfold exec_from_path. destruct (read_file st path) as [s|]; [|done].
  by destruct (src_raises s).
Qed.

Lemma store_same_sources n foo st :
  is_Some (_loaded_modules st !! n) →
  same_sources st (set_module_dependencies
                     (insert n (_get_module_dependencies foo))
                     (set_loaded_modules (insert n foo) st)).
Proof.
  intros Hn. repeat split; simpl. by apply dom_insert_lookup_L.
Qed.

Lemma start_module_thread_body_same_sources n f args kw st :
  same_sources st (start_module_thread_body n f args kw st).
Proof.
  unfold start_module_thread_body.
  destruct (_loaded_modules st !! n) as [m|]; [|done].
  destruct (getattr m f) as [a|]; [|done].
  destruct (new a args kw) as [th|]; [|done].
  by destruct (start th).
Qed.

Lemma reload_module_same_sources fuel n st :
  result_after (same_sources st) (reload_module fuel n st).
Proof.
  apply reload_module_rel; try apply _;
    auto using kill_thread_same_sources, exec_from_path_same_sources,
               store_same_sources, start_module_thread_body_same_sources.
  by intros.
Qed.

Lemma same_sources_registered st st' n :
  same_sources st st' →
  is_Some (_loaded_modules st' !! n) ↔ is_Some (_loaded_modules st !! n).
Proof. intros (_&_&_&Hd). by rewrite <- !elem_of_dom, Hd. Qed.

Lemma same_sources_read_file st st' path :
  same_sources st st' → read_file st' path = read_file st path.
Proof. intros (Hf&Hb&_). unfold read_file. by rewrite Hf, Hb. Qed.

Lemma same_sources_source_of st st' n :
  same_sources st st' → source_of st' n = source_of st n.
Proof.
  intros (Hf&Hb&Hp&Hd). unfold source_of, read_file. by rewrite Hf, Hb, Hp.
Qed.

Lemma same_sources_dep_edge st st' n d :
  same_sources st st' → dep_edge st' n d ↔ dep_edge st n d.
Proof.
  intros Hs. unfold dep_edge, registered_edge, dependencies_of.
  rewrite !(same_sources_registered st st') by done.
  by rewrite (same_sources_source_of st st').
Qed.

Lemma same_sources_all_loadable st st' :
  same_sources st st' → all_loadable st → all_loadable st'.
Proof.
  intros Hs Hall n m Hn. rewrite (same_sources_source_of st st') by done.
  assert (is_Some (_loaded_modules st !! n)) as [m' Hm'].
  { apply (same_sources_registered st st'); eauto. }
  by apply (Hall n m').
Qed.

(** ** The output only grows *)

Global Instance output_grows_preorder : PreOrder output_grows.
Proof.
  split.
  - intros st. by unfold output_grows.
  - intros st1 st2 st3. unfold output_grows. by etrans.
Qed.

Lemma output_grows_same st st' : stdout st' = stdout st → output_grows st st'.
Proof. unfold output_grows. by intros ->. Qed.

Lemma print_output_grows m st : output_grows st (print m st).
Proof. by apply prefix_app_r. Qed.

Lemma kill_thread_output_grows n st : output_grows st (kill_thread n st).
Proof.
  unfold kill_thread, output_grows.
  destruct (_module_threads st !! n) as [th|]; [|by apply prefix_app_r].
  destruct (stop th). simpl. by do 2 apply prefix_app_r.
Qed.

Lemma start_module_thread_body_output_grows n f args kw st :
  output_grows st (start_module_thread_body n f args kw st).
Proof.
  unfold start_module_thread_body, output_grows.
  destruct (_loaded_modules st !! n) as [m|]; [|by apply prefix_app_r].
  destruct (getattr m f) as [a|]; [|by apply prefix_app_r].
  destruct (new a args kw) as [th|]; [|by apply prefix_app_r].
  destruct (start th). simpl. by do 2 apply prefix_app_r.
Qed.

Lemma reload_module_output_grows fuel n st :
  result_after (output_grows st) (reload_module fuel n st).
Proof.
  apply reload_module_rel; try apply _;
    auto using print_output_grows, kill_thread_output_grows,
               start_module_thread_body_output_grows.
  - intros m path st'. apply output_grows_same. unfold exec_from_path.
    destruct (read_file st' path) as [s|]; [|done]. by destruct (src_raises s).
  - intros. by apply output_grows_same.
Qed.

Lemma new_output_app st st' out :
  stdout st' = stdout st ++ out → new_output st st' = out.
Proof. unfold new_output. intros ->. by rewrite drop_app_length. Qed.

Lemma output_grows_new_output st st' :
  output_grows st st' → stdout st' = stdout st ++ new_output st st'.
Proof. intros [out Hout]. by rewrite (new_output_app _ _ out). Qed.

Lemma new_output_trans st1 st2 st3 :
  output_grows st1 st2 → output_grows st2 st3 →
  new_output st1 st3 = new_output st1 st2 ++ new_output st2 st3.
Proof.
  intros H12 H23. apply new_output_app.
  rewrite (output_grows_new_output _ _ H23).
  rewrite (output_grows_new_output _ _ H12) at 1. by rewrite <- app_assoc.
Qed.

Lemma reloads_of_app name out1 out2 :
  reloads_of name (out1 ++ out2) = reloads_of name out1 + reloads_of name out2.
Proof. unfold reloads_of. by rewrite filter_app, length_app. Qed.

Lemma reloads_of_print_reloaded name st :
  reloads_of name (new_output st (print (MsgReloaded name) st)) = 1.
Proof.
  rewrite (new_output_app _ _ [MsgReloaded name]) by done.
  unfold reloads_of. by rewrite filter_cons_True.
Qed.

(** ** One step of [reload_module] *)

Lemma kill_existing_threads_same_sources n st :
  same_sources st (kill_existing_threads n st).
Proof.
  unfold kill_existing_threads. destruct (_module_threads st !! n); [|done].
  etrans; [|apply kill_thread_same_sources]. done.
Qed.

Lemma kill_existing_threads_output_grows n st :
  output_grows st (kill_existing_threads n st).
Proof.
  unfold kill_existing_threads. destruct (_module_threads st !! n); [|done].
  etrans; [apply print_output_grows|apply kill_thread_output_grows].
Qed.

Lemma reload_module_unregistered fuel n st :
  _loaded_modules st !! n = None →
  reload_module (S fuel) n st = Done (print (MsgNotRegistered n) st).
Proof. intros Hn. simpl. by rewrite Hn. Qed.

Lemma reload_module_loadable fuel n st s :
  is_Some (_loaded_modules st !! n) → source_of st n = Some s →
  reload_module (S fuel) n st =
  finish_reload n (_thread_configs st !! n)
    (reload_dependencies (reload_module fuel)
       (_get_module_dependencies (PyModule n (src_dict s)))
       (reloaded n s st)).
Proof.
  intros [m Hn] Hs. simpl. rewrite Hn.
  pose proof (kill_existing_threads_same_sources n st) as Hk.
  destruct Hk as (Hf & Hb & Hp & Hd).
  rewrite Hp. unfold source_of in Hs.
  destruct (module_path st !! n) as [path|]; [|done].
  unfold exec_from_path. rewrite (same_sources_read_file st) by done.
  destruct (read_file st path) as [s'|]; [|done].
  destruct (src_raises s'); [done|]. injection Hs as ->.
  unfold finish_reload, reloaded.
  by destruct (reload_dependencies _ _ _).
Qed.

Lemma reload_module_not_loadable fuel n st :
  is_Some (_loaded_modules st !! n) → source_of st n = None →
  ∃ e st', reload_module (S fuel) n st = Raised e st'
           ∧ _loaded_modules st' = _loaded_modules st
           ∧ _module_dependencies st' = _module_dependencies st.
Proof.
  intros [m Hn] Hs. simpl. rewrite Hn.
  pose proof (kill_existing_threads_same_sources n st) as Hk.
  destruct (Hk) as (_ & _ & Hp & _). rewrite Hp.
  assert (Hl : _loaded_modules (kill_existing_threads n st)
               = _loaded_modules st
               ∧ _module_dependencies (kill_existing_threads n st)
                 = _module_dependencies st).
  { unfold kill_existing_threads, kill_thread.
    destruct (_module_threads st !! n) as [th|] eqn:Hth; [|done]. simpl.
    rewrite Hth. by destruct (stop th). }
  unfold source_of in Hs.
  destruct (module_path st !! n) as [path|]; [|by eauto].
  unfold exec_from_path. rewrite (same_sources_read_file st) by done.
  destruct (read_file st path) as [s'|]; [|by eauto].
  destruct (src_raises s'); [by eauto|done].
Qed.

Lemma reloaded_same_sources n s st :
  is_Some (_loaded_modules st !! n) → same_sources st (reloaded n s st).
Proof.
  intros Hn. unfold reloaded.
  etrans; [apply (kill_existing_threads_same_sources n)|].
  etrans; [|apply store_same_sources].
  - done.
  - simpl. by apply (same_sources_registered st);
      [apply kill_existing_threads_same_sources|].
Qed.

Lemma reloaded_output_grows n s st : output_grows st (reloaded n s st).
Proof.
  etrans; [apply (kill_existing_threads_output_grows n)|].
  by apply output_grows_same.
Qed.

Lemma finish_reload_Done n cfg st5 st' :
  finish_reload n cfg (Done st5) = Done st' →
  output_grows (print (MsgReloaded n) st5) st'.
Proof.
  simpl. destruct cfg as [cfg|]; [|by intros [= <-]].
  intros Hr.
  pose proof (restart_module_thread_rel output_grows
                (λ n f a k st _, start_module_thread_body_output_grows
                                   n f a k st)
                n cfg (print (MsgRestarting n) (print (MsgReloaded n) st5)))
    as Hg.
  rewrite Hr in Hg. simpl in Hg.
  etrans; [apply (print_output_grows (MsgRestarting n))|exact Hg].
Qed.

(** A reload that returns went through the whole of [reload_module]. *)
Lemma reload_module_Done_inv fuel n st st' :
  is_Some (_loaded_modules st !! n) →
  reload_module (S fuel) n st = Done st' →
  ∃ s st5,
    source_of st n = Some s
    ∧ reload_dependencies (reload_module fuel)
        (_get_module_dependencies (PyModule n (src_dict s)))
        (reloaded n s st) = Done st5
    ∧ finish_reload n (_thread_configs st !! n) (Done st5) = Done st'.
Proof.
  intros Hn Hr. destruct (source_of st n) as [s|] eqn:Hs.
  - rewrite (reload_module_loadable fuel n st s Hn Hs) in Hr.
    destruct (reload_dependencies _ _ _) as [st5| |] eqn:Hc; try done.
    by exists s, st5.
  - destruct (reload_module_not_loadable fuel n st Hn Hs) as (e & st'' & He & _).
    congruence.
Qed.

(** ** The cascade *)

Lemma reload_dependencies_reaches reload deps d :
  (∀ x s, result_after (same_sources s) (reload x s)) →
  (∀ x s, result_after (output_grows s) (reload x s)) →
  ∀ st st',
    reload_dependencies reload deps st = Done st' →
    d ∈ deps → is_Some (_loaded_modules st !! d) →
    ∃ sti stj, same_sources st sti ∧ output_grows st sti
               ∧ reload d sti = Done stj ∧ output_grows stj st'.
Proof.
  intros Hsame Hout. induction deps as [|d0 deps IH]; intros st st' Hr Hin Hd.
  { by apply elem_of_nil in Hin. }
  simpl in Hr.
  destruct (decide (d = d0)) as [->|Hne].
  - destruct Hd as [m Hd]. rewrite Hd in Hr.
    destruct (reload d0 st) as [st1| |] eqn:H1; try done.
    exists st, st1. split; [done|]. split; [done|]. split; [done|].
    pose proof (reload_dependencies_rel output_grows reload deps Hout st1)
      as Hg. by rewrite Hr in Hg.
  - apply elem_of_cons in Hin as [?|Hin]; [done|].
    destruct (_loaded_modules st !! d0) as [m0|].
    + pose proof (Hsame d0 st) as Hs1. pose proof (Hout d0 st) as Ho1.
      destruct (reload d0 st) as [st1| |]; try done. simpl in *.
      destruct (IH st1 st' Hr Hin) as (sti & stj & ? & ? & ? & ?).
      { by apply (same_sources_registered st st1). }
      exists sti, stj. split; [by etrans|]. split; [by etrans|]. done.
    + by apply IH.
Qed.

Lemma reload_dependencies_terminates reload deps st0 :
  (∀ x s, result_after (same_sources s) (reload x s)) →
  (∀ d st, d ∈ deps → same_sources st0 st →
           is_Some (_loaded_modules st !! d) → terminates (reload d st)) →
  ∀ st, same_sources st0 st →
        terminates (reload_dependencies reload deps st).
Proof.
  intros Hsame. induction deps as [|d deps IH]; intros Hterm st Hst; simpl;
    [done|].
  assert (Hrest : ∀ st1, same_sources st0 st1 →
                         terminates (reload_dependencies reload deps st1)).
  { apply IH. intros d' st' Hd'. apply Hterm. by apply list_elem_of_further. }
  destruct (_loaded_modules st !! d) as [m|] eqn:Hd; [|by apply Hrest].
  pose proof (Hterm d st (list_elem_of_here _ _) Hst (mk_is_Some _ _ Hd)) as Ht.
  pose proof (Hsame d st) as Hs.
  destruct (reload d st) as [st1| |]; simpl in *; try done.
  apply Hrest. by etrans.
Qed.

Lemma finish_reload_terminates n cfg r :
  terminates r → terminates (finish_reload n cfg r).
Proof.
  destruct r as [st5| |]; simpl; try done. intros _.
  destruct cfg as [cfg|]; [|done].
  unfold restart_module_thread, start_module_thread.
  destruct (cfg_args cfg); [|done]. by case_decide.
Qed.

(** A reload that returns has printed that it reloaded the module. *)
Lemma reload_module_reports fuel n st st' :
  is_Some (_loaded_modules st !! n) →
  reload_module fuel n st = Done st' →
  output_grows st st' ∧ 1 ≤ reloads_of n (new_output st st').
Proof.
  intros Hn Hr. destruct fuel as [|fuel]; [done|].
  destruct (reload_module_Done_inv fuel n st st' Hn Hr)
    as (s & st5 & Hs & Hc & Hf).
  apply finish_reload_Done in Hf.
  pose proof (reload_dependencies_rel output_grows (reload_module fuel)
                (_get_module_dependencies (PyModule n (src_dict s)))
                (reload_module_output_grows fuel) (reloaded n s st)) as H5.
  rewrite Hc in H5. simpl in H5.
  assert (H05 : output_grows st st5).
  { etrans; [apply (reloaded_output_grows n s)|done]. }
  assert (H56 : output_grows st5 (print (MsgReloaded n) st5))
    by apply print_output_grows.
  split; [by repeat (etrans; [eassumption|])|].
  rewrite (new_output_trans st st5 st') by (done || by etrans).
  rewrite (new_output_trans st5 (print (MsgReloaded n) st5) st') by done.
  rewrite !reloads_of_app, reloads_of_print_reloaded. lia.
Qed.

Lemma reaches_cycle_step (R : relation string) n :
  reaches_cycle R n → ∃ d, R n d ∧ reaches_cycle R d.
Proof.
  intros (x & Hnx & Hxx). apply rtc_inv in Hnx as [->|(y & Hny & Hyx)].
  - inversion Hxx as [? ? Hstep|? y ? Hstep Hrest]; subst.
    + exists x. split; [done|]. exists x. split; [done|by apply tc_once].
    + exists y. split; [done|]. exists y. split; [done|].
      by eapply tc_r.
  - exists y. split; [done|]. by exists x.
Qed.

Lemma reaches_cycle_same_sources st st' n :
  same_sources st st' →
  reaches_cycle (dep_edge st) n → reaches_cycle (dep_edge st') n.
Proof.
  intros Hs (x & Hnx & Hxx). exists x. split.
  - eapply rtc_subrel; [|exact Hnx].
    intros a b. by apply same_sources_dep_edge.
  - apply (tc_congruence id (dep_edge st')) in Hxx; [done|].
    intros a b. by apply same_sources_dep_edge.
Qed.

(** A reload that returns met no cycle. *)
Lemma reload_module_Done_acyclic fuel :
  ∀ n st st', reload_module fuel n st = Done st' →
              ¬ reaches_cycle (dep_edge st) n.
Proof.
  induction fuel as [|fuel IH]; intros n st st' Hr Hcyc; [done|].
  apply reaches_cycle_step in Hcyc as (d & (Hn & Hd & Hin) & Hcyc).
  destruct (reload_module_Done_inv fuel n st st' Hn Hr)
    as (s & st5 & Hs & Hc & _).
  unfold dependencies_of in Hin. rewrite Hs in Hin.
  pose proof (reloaded_same_sources n s st Hn) as H4.
  destruct (reload_dependencies_reaches (reload_module fuel) _ d
              (reload_module_same_sources fuel)
              (reload_module_output_grows fuel) _ _ Hc Hin)
    as (sti & stj & Hsi & _ & Hri & _).
  { by apply (same_sources_registered st (reloaded n s st)). }
  apply (IH d sti stj Hri).
  apply (reaches_cycle_same_sources st); [by etrans|done].
Qed.

(** ** Well-formed states *)

Global Instance keeps_wf_preorder : PreOrder keeps_wf.
Proof. split; unfold keeps_wf; [by intros st|intros st1 st2 st3; eauto]. Qed.

Lemma wf_same_dicts st st' :
  _loaded_modules st' = _loaded_modules st →
  _module_dependencies st' = _module_dependencies st →
  _module_threads st' = _module_threads st →
  _thread_configs st' = _thread_configs st →
  keeps_wf st st'.
Proof.
  intros Hl Hd Ht Hc [H1 H2 H3 H4]. split; by rewrite ?Hl, ?Hd, ?Ht, ?Hc.
Qed.

Lemma print_keeps_wf m st : keeps_wf st (print m st).
Proof. by apply wf_same_dicts. Qed.

Lemma kill_thread_keeps_wf n st : keeps_wf st (kill_thread n st).
Proof.
  unfold kill_thread. destruct (_module_threads st !! n) as [th|];
    [|apply print_keeps_wf].
  destruct (stop th) as [th' m]. intros [H1 H2 H3 H4]. split; simpl; try done.
  rewrite dom_delete_L. etrans; [apply subseteq_difference_l|]; done.
Qed.

Lemma exec_from_path_keeps_wf n path st :
  keeps_wf st (exec_from_path n path st).2.
Proof.
  apply wf_same_dicts; unfold exec_from_path;
    destruct (read_file st path) as [s|]; try done; by destruct (src_raises s).
Qed.

Lemma store_keeps_wf n foo deps st :
  keeps_wf st (set_module_dependencies (insert n deps)
                 (set_loaded_modules (insert n foo) st)).
Proof.
  intros [H1 H2 H3 H4]. split; simpl; try done.
  - rewrite !dom_insert_L. by apply union_mono_l.
  - rewrite dom_insert_L. etrans; [exact H3|]. apply union_subseteq_r.
Qed.

Lemma new_Some_inv target args kw th :
  new target args kw = Some th →
  args = [] ∧ kw !! "target" = None
  ∧ th = module_thread_template.__init__ target
           (default (VInt 1) (kw !! "func_type")) (delete "func_type" kw).
Proof.
  unfold new. destruct args; [|done]. case_decide as Hk; [done|].
  intros [= <-]. split; [done|]. split; [|done].
  apply eq_None_not_Some. tauto.
Qed.

Lemma start_module_thread_body_keeps_wf n f args kw st :
  ¬ binding_clash kw → keeps_wf st (start_module_thread_body n f args kw st).
Proof.
  intros Hclash. unfold start_module_thread_body.
  destruct (_loaded_modules st !! n) as [m|] eqn:Hn; [|apply print_keeps_wf].
  destruct (getattr m f) as [a|]; [|apply print_keeps_wf].
  destruct (new a args kw) as [th|] eqn:Hnew; [|apply print_keeps_wf].
  apply new_Some_inv in Hnew as (-> & Htarget & _).
  destruct (start th) as [th' msg']. intros [H1 H2 H3 H4].
  apply elem_of_dom_2 in Hn.
  split; simpl; try done.
  - rewrite !dom_insert_L. by apply union_mono_l.
  - rewrite dom_insert_L. apply union_least; [|done].
    by apply singleton_subseteq_l.
  - by apply map_Forall_insert_2.
Qed.

Lemma reload_module_keeps_wf fuel n st :
  result_after (keeps_wf st) (reload_module fuel n st).
Proof.
  apply reload_module_rel; try apply _;
    auto using print_keeps_wf, kill_thread_keeps_wf, exec_from_path_keeps_wf,
               start_module_thread_body_keeps_wf.
  intros. apply store_keeps_wf.
Qed.

Lemma restart_module_thread_config_ok n cfg st :
  config_ok cfg →
  restart_module_thread n cfg st
  = Done (start_module_thread_body n (cfg_target_function cfg) []
            (cfg_kwargs cfg) st).
Proof.
  intros (Hargs & Hclash & _). unfold restart_module_thread, start_module_thread.
  rewrite Hargs. by rewrite decide_False.
Qed.

(** ** Reloads that cannot raise *)

Lemma reload_dependencies_never_raises reload deps (I : state → Prop) :
  (∀ x s, I s → result_after I (reload x s)) →
  (∀ x s e s', I s → reload x s ≠ Raised e s') →
  ∀ st e st', I st → reload_dependencies reload deps st ≠ Raised e st'.
Proof.
  intros Hinv Hnr. induction deps as [|d deps IH]; intros st e st' Hst; simpl;
    [done|].
  destruct (_loaded_modules st !! d); [|by apply IH].
  pose proof (Hinv d st Hst) as Hi. pose proof (Hnr d st e st' Hst) as Hn.
  destruct (reload d st) as [st1| |]; simpl in *; try done. by apply IH.
Qed.

Lemma reload_module_never_raises fuel :
  ∀ n st e st', wf st → all_loadable st →
                reload_module fuel n st ≠ Raised e st'.
Proof.
  induction fuel as [|fuel IH]; intros n st e st' Hwf Hall; [done|].
  destruct (_loaded_modules st !! n) as [m|] eqn:Hn;
    [|by rewrite reload_module_unregistered].
  destruct (Hall n m Hn) as [s Hs].
  rewrite (reload_module_loadable fuel n st s) by eauto.
  pose proof (reloaded_same_sources n s st (mk_is_Some _ _ Hn)) as H4.
  assert (Hwf4 : wf (reloaded n s st)).
  { unfold reloaded. apply store_keeps_wf.
    eapply (wf_same_dicts (kill_existing_threads n st)); try done.
    unfold kill_existing_threads.
    destruct (_module_threads st !! n); [|done].
    by apply kill_thread_keeps_wf, print_keeps_wf. }
  pose proof (reload_dependencies_never_raises (reload_module fuel)
                (_get_module_dependencies (PyModule n (src_dict s)))
                (λ s', wf s' ∧ all_loadable s')) as Hc.
  destruct (reload_dependencies _ _ _) as [st5| |] eqn:Hcasc; simpl; try done.
  - destruct (_thread_configs st !! n) as [cfg|] eqn:Hcfg; [|done].
    rewrite restart_module_thread_config_ok; [done|].
    by apply (wf_config_ok st Hwf n).
  - exfalso. refine (Hc _ _ _ _ _ _ Hcasc); [| |split; [exact Hwf4|]].
    + intros x s' [Hw Ha].
      pose proof (reload_module_keeps_wf fuel x s') as Hk.
      pose proof (reload_module_same_sources fuel x s') as Hss.
      destruct (reload_module fuel x s'); simpl in *; try done;
        (split; [by apply Hk|by eapply same_sources_all_loadable]).
    + intros x s' e' s'' [Hw Ha]. by apply IH.
    + by eapply same_sources_all_loadable.
Qed.

(** On a cycle, with sources that load, no depth of recursion is enough. *)
Lemma reload_module_cycle_unbounded fuel n st :
  wf st → all_loadable st → reaches_cycle (dep_edge st) n →
  reload_module fuel n st = OutOfFuel.
Proof.
  intros Hwf Hall Hcyc.
  destruct (reload_module fuel n st) as [st'|e st'|] eqn:Hr; [| |done].
  - by destruct (reload_module_Done_acyclic fuel n st st' Hr).
  - by destruct (reload_module_never_raises fuel n st e st' Hwf Hall).
Qed.

(** ** Termination on acyclic graphs *)

Lemma tc_dep_edge_registered st n x :
  tc (dep_edge st) n x → is_Some (_loaded_modules st !! x).
Proof. induction 1 as [? ? (?&?&?)|]; done. Qed.

Lemma dep_edge_finite st n : pred_finite (tc (dep_edge st) n).
Proof.
  exists (elements (dom (_loaded_modules st))). intros x Hx.
  apply elem_of_elements, elem_of_dom. by eapply tc_dep_edge_registered.
Qed.

Lemma bounded_choice (P : string → nat → Prop) (l : list string) :
  (∀ d k k', P d k → k ≤ k' → P d k') →
  (∀ d, d ∈ l → ∃ k, P d k) →
  ∃ K, ∀ d, d ∈ l → P d K.
Proof.
  intros Hmono. induction l as [|d l IH]; intros Hex.
  - exists 0. intros d Hd. by apply elem_of_nil in Hd.
  - destruct (Hex d) as [k Hk]; [by left|].
    destruct IH as [K HK]; [intros d' Hd'; apply Hex; by right|].
    exists (k `max` K). intros d' Hd'.
    apply elem_of_cons in Hd' as [->|Hd'].
    + eapply Hmono; [exact Hk|lia].
    + eapply Hmono; [by apply HK|lia].
Qed.

Lemma reload_module_terminates_sn st n :
  sn (dep_edge st) n →
  ∃ k, ∀ fuel st', k ≤ fuel → same_sources st st' →
                   terminates (reload_module fuel n st').
Proof.
  induction 1 as [n _ IH].
  destruct (_loaded_modules st !! n) as [m|] eqn:Hn.
  2: { exists 1. intros [|fuel] st' Hf Hs; [lia|].
       rewrite reload_module_unregistered; [done|].
       apply eq_None_not_Some. rewrite (same_sources_registered st st') by done.
       by rewrite Hn; intros [? ?]. }
  destruct (source_of st n) as [s|] eqn:Hs.
  2: { exists 1. intros [|fuel] st' Hf Hss; [lia|].
       destruct (reload_module_not_loadable fuel n st') as (e & st'' & -> & _);
         [| |done].
       - apply (same_sources_registered st st'); eauto.
       - by rewrite (same_sources_source_of st st'). }
  set (deps := _get_module_dependencies (PyModule n (src_dict s))).
  destruct (bounded_choice
              (λ d k, ∀ fuel st', k ≤ fuel → same_sources st st' →
                        is_Some (_loaded_modules st' !! d) →
                        terminates (reload_module fuel d st')) deps)
    as [K HK].
  { intros d k k' Hk Hle fuel st' Hf. apply Hk. lia. }
  { intros d Hd. destruct (_loaded_modules st !! d) as [md|] eqn:Hmd.
    - destruct (IH d) as [k Hk].
      + repeat split; eauto. unfold dependencies_of. by rewrite Hs.
      + exists k. intros fuel st' Hf Hss _. by apply Hk.
    - exists 0. intros fuel st' _ Hss Hd'.
      apply (same_sources_registered st st') in Hd'; [|done].
      rewrite Hmd in Hd'. by destruct Hd'. }
  exists (S K). intros [|fuel] st' Hf Hss; [lia|].
  rewrite (reload_module_loadable fuel n st' s).
  - apply finish_reload_terminates.
    apply (reload_dependencies_terminates _ _ st).
    + apply reload_module_same_sources.
    + intros d st'' Hd Hss'' Hreg. apply HK; [done|lia|done|done].
    + etrans; [exact Hss|]. apply reloaded_same_sources.
      apply (same_sources_registered st st'); eauto.
  - apply (same_sources_registered st st'); eauto.
  - by rewrite (same_sources_source_of st st').
Qed.

Lemma reload_module_terminates_acyclic st n :
  Irreflexive (tc (dep_edge st)) →
  ∃ fuel, ∀ fuel', fuel ≤ fuel' → terminates (reload_module fuel' n st).
Proof.
  intros Hirr.
  destruct (reload_module_terminates_sn st n) as [k Hk].
  { apply tc_finite_sn; [done|apply dep_edge_finite]. }
  exists k. intros fuel' Hf. by apply Hk.
Qed.

(** A ranking of the registered names that every edge decreases shows the
    graph acyclic; the condition can be evaluated on a given state. *)
Lemma acyclic_by_rank st succ (rank : string → nat) :
  map_Forall (λ x _, Forall (λ y, is_Some (_loaded_modules st !! y) →
                                  rank y < rank x)
                            (succ x))
             (_loaded_modules st) →
  Irreflexive (tc (registered_edge st succ)).
Proof.
  intros Hrank.
  assert (Hstep : ∀ x y, registered_edge st succ x y → rank y < rank x).
  { intros x y ([m Hx] & Hy & Hin).
    pose proof (Hrank x m Hx) as Hall. rewrite Forall_forall in Hall.
    by apply Hall. }
  assert (Htc : ∀ x y, tc (registered_edge st succ) x y → rank y < rank x).
  { induction 1 as [x y H|x y z H _ IH].
    - by apply Hstep.
    - apply Hstep in H. lia. }
  intros x Hx. apply Htc in Hx. lia.
Qed.

(** ** More fuel changes nothing *)

Lemma reload_module_S fuel n st :
  reload_module (S fuel) n st = reload_body (reload_module fuel) n st.
Proof.
  simpl. unfold reload_body.
  destruct (_loaded_modules st !! n); [|done].
  destruct (module_path _ !! n); [|done].
  destruct (exec_from_path _ _ _) as [[e|foo] st2]; [done|].
  unfold finish_reload. by destruct (reload_dependencies _ _ _).
Qed.

Lemma reload_dependencies_ext reload1 reload2 deps :
  (∀ d st, terminates (reload1 d st) → reload2 d st = reload1 d st) →
  ∀ st, terminates (reload_dependencies reload1 deps st) →
        reload_dependencies reload2 deps st
        = reload_dependencies reload1 deps st.
Proof.
  intros Hext. induction deps as [|d deps IH]; intros st Ht; simpl in *;
    [done|].
  destruct (_loaded_modules st !! d); [|by apply IH].
  destruct (reload1 d st) as [st1| |] eqn:H1.
  - rewrite Hext by (by rewrite H1). rewrite H1. by apply IH.
  - rewrite Hext by (by rewrite H1). by rewrite H1.
  - done.
Qed.

Lemma reload_body_ext reload1 reload2 n st :
  (∀ d st, terminates (reload1 d st) → reload2 d st = reload1 d st) →
  terminates (reload_body reload1 n st) →
  reload_body reload2 n st = reload_body reload1 n st.
Proof.
  intros Hext. unfold reload_body.
  destruct (_loaded_modules st !! n); [|done].
  destruct (module_path _ !! n); [|done].
  destruct (exec_from_path _ _ _) as [[e|foo] st2]; [done|].
  intros Ht. rewrite (reload_dependencies_ext reload1 reload2); [done..|].
  destruct (reload_dependencies reload1 _ _); try done.
Qed.

Lemma reload_module_fuel_S fuel :
  ∀ n st, terminates (reload_module fuel n st) →
          reload_module (S fuel) n st = reload_module fuel n st.
Proof.
  induction fuel as [|fuel IH]; intros n st Ht; [done|].
  rewrite (reload_module_S (S fuel)), (reload_module_S fuel) in *.
  by apply reload_body_ext.
Qed.

(** Once the fuel is enough for a call to end, any larger amount gives the
    same result. *)
Lemma reload_module_fuel_mono_aux fuel fuel' n st :
  fuel ≤ fuel' → terminates (reload_module fuel n st) →
  reload_module fuel' n st = reload_module fuel n st.
Proof.
  induction 1 as [|fuel' _ IH]; intros Ht; [done|].
  rewrite reload_module_fuel_S; [by apply IH|]. by rewrite IH.
Qed.

Lemma reload_module_fuel_mono fuel fuel' n st r :
  reload_module fuel n st = r → r ≠ OutOfFuel → fuel ≤ fuel' →
  reload_module fuel' n st = r.
Proof.
  intros <- Ht Hle. by apply reload_module_fuel_mono_aux.
Qed.

(** * The reload engine *)

(** C8. Reloading a name that is not registered returns at once, whatever
    the fuel: the only effect is the printed line that the module is not
    registered.  The registered names, every handle and dependency set, the
    workers and their configurations, the registered paths and
    [sys.modules] are what they were. *)
Theorem reload_module_not_registered fuel module_name st :
  _loaded_modules st !! module_name = None →
  ∃ st', reload_module (S fuel) module_name st = Done st'
         ∧ stdout st' = stdout st ++ [MsgNotRegistered module_name]
         ∧ _loaded_modules st' = _loaded_modules st
         ∧ _module_dependencies st' = _module_dependencies st
         ∧ _module_threads st' = _module_threads st
         ∧ _thread_configs st' = _thread_configs st
         ∧ module_path st' = module_path st
         ∧ sys_modules st' = sys_modules st.
Proof.
  intros Hn. exists (print (MsgNotRegistered module_name) st).
  by rewrite reload_module_unregistered.
Qed.

Lemma reload_module_not_registered_witness :
  ∃ st', reload_module 1 "ghost" calc_state = Done st'
         ∧ stdout st' = stdout calc_state ++ [MsgNotRegistered "ghost"]
         ∧ _loaded_modules st' = _loaded_modules calc_state
         ∧ _module_dependencies st' = _module_dependencies calc_state
         ∧ _module_threads st' = _module_threads calc_state
         ∧ _thread_configs st' = _thread_configs calc_state
         ∧ module_path st' = module_path calc_state
         ∧ sys_modules st' = sys_modules calc_state.
Proof.
  apply (reload_module_not_registered 0 "ghost" calc_state).
  vm_compute. reflexivity.
Defined.

(** C1, as the code has it. The cascade of [reload_module] follows the
    dependencies of the module that was reloaded, as scanned from its
    freshly loaded source, and not the modules that depend on it: when [b]
    is among those dependencies of [a] and both are registered, a reload of
    [a] that returns has reloaded [b] at least once. *)
Theorem reload_module_cascades_to_dependencies fuel a b st st' :
  dep_edge st a b →
  reload_module fuel a st = Done st' →
  output_grows st st' ∧ 1 ≤ reloads_of b (new_output st st').
Proof.
  intros (Ha & Hb & Hin) Hr.
  destruct (reload_module_reports fuel a st st' Ha Hr) as [Hg _].
  split; [done|].
  destruct fuel as [|fuel]; [done|].
  destruct (reload_module_Done_inv fuel a st st' Ha Hr)
    as (s & st5 & Hs & Hc & Hf).
  unfold dependencies_of in Hin. rewrite Hs in Hin.
  destruct (reload_dependencies_reaches (reload_module fuel) _ b
              (reload_module_same_sources fuel)
              (reload_module_output_grows fuel) _ _ Hc Hin)
    as (sti & stj & Hsi & Hgi & Hri & Hgj).
  { by apply (same_sources_registered st (reloaded a s st));
      [apply reloaded_same_sources|]. }
  assert (Hbi : is_Some (_loaded_modules sti !! b)).
  { apply (same_sources_registered (reloaded a s st) sti); [done|].
    by apply (same_sources_registered st (reloaded a s st));
      [apply reloaded_same_sources|]. }
  destruct (reload_module_reports fuel b sti stj Hbi Hri) as [Hgij Hcount].
  apply finish_reload_Done in Hf.
  assert (H0i : output_grows st sti).
  { etrans; [apply (reloaded_output_grows a s)|done]. }
  assert (Hj' : output_grows stj st').
  { etrans; [exact Hgj|]. etrans; [apply print_output_grows|exact Hf]. }
  rewrite (new_output_trans st sti st') by (done || by etrans).
  rewrite (new_output_trans sti stj st') by done.
  rewrite !reloads_of_app. lia.
Qed.

Lemma reload_module_cascades_to_dependencies_witness :
  output_grows ab_state (state_of (reload_module 2 "b" ab_state) empty_env)
  ∧ 1 ≤ reloads_of "a"
          (new_output ab_state
             (state_of (reload_module 2 "b" ab_state) empty_env)).
Proof.
  apply (reload_module_cascades_to_dependencies 2 "b" "a" ab_state).
  - apply (bool_decide_unpack _). vm_compute. exact I.
  - vm_compute. reflexivity.
Defined.

(** C1, the claim as it is stated, fails. [b] is registered with [a] in its
    recorded dependency set, the recorded graph is acyclic, and a reload of
    [a] returns without having reloaded [b]. *)
Lemma reload_module_dependent_not_reloaded :
  Irreflexive (tc (recorded_edge ab_state))
  ∧ is_Some (_loaded_modules ab_state !! "a")
  ∧ is_Some (_loaded_modules ab_state !! "b")
  ∧ "a" ∈ recorded_dependencies ab_state "b"
  ∧ ∀ fuel, 1 ≤ fuel →
      ∃ st', reload_module fuel "a" ab_state = Done st'
             ∧ reloads_of "b" (new_output ab_state st') = 0.
Proof.
  split.
  { apply (acyclic_by_rank _ _ (λ x, if decide (x = "b") then 1 else 0)).
    compute_done. }
  split; [compute_done|]. split; [compute_done|]. split; [compute_done|].
  intros fuel Hfuel. eexists. split.
  - apply (reload_module_fuel_mono 1);
      [vm_compute; reflexivity|discriminate|exact Hfuel].
  - vm_compute. reflexivity.
Qed.

(** Nor does the forward cascade reload a dependency exactly once: [base]
    is reached from [top] directly and through [mid], and is reloaded
    twice. *)
Example reload_module_diamond_twice :
  ∃ st', reload_module 3 "top" diamond_state = Done st'
         ∧ reloads_of "base" (new_output diamond_state st') = 2.
Proof. eexists. split; vm_compute; reflexivity. Qed.

(** C4, as the code has it. The graph that matters is the one the cascade
    follows: the dependencies scanned from the freshly loaded sources,
    restricted to registered names.  When it is acyclic, some fuel is
    enough for the reload to end, and so is any larger amount.  When a cycle
    of it can be reached from the reloaded name, no fuel lets the reload
    return; and in a well-formed state in which every registered source
    loads, no fuel lets it end at all. *)
Theorem reload_module_termination module_name st :
  (Irreflexive (tc (dep_edge st)) →
   ∃ fuel, ∀ fuel', fuel ≤ fuel' →
                    terminates (reload_module fuel' module_name st))
  ∧ (reaches_cycle (dep_edge st) module_name →
     ∀ fuel st', reload_module fuel module_name st ≠ Done st')
  ∧ (reaches_cycle (dep_edge st) module_name → wf st → all_loadable st →
     ∀ fuel, reload_module fuel module_name st = OutOfFuel).
Proof.
  split; [apply reload_module_terminates_acyclic|]. split.
  - intros Hcyc fuel st' Hr.
    by destruct (reload_module_Done_acyclic fuel module_name st st' Hr).
  - intros Hcyc Hwf Hall fuel. by apply reload_module_cycle_unbounded.
Qed.

Lemma loop_state_cycle : reaches_cycle (dep_edge loop_state) "a".
Proof.
  exists "a". split; [done|].
  apply (tc_l _ "a" "b" "a"); [compute_done|]. apply tc_once. compute_done.
Qed.

Lemma loop_state_wf : wf loop_state.
Proof. split; compute_done. Qed.

Lemma loop_state_all_loadable : all_loadable loop_state.
Proof. compute_done. Qed.

Lemma reload_module_termination_witness :
  (∃ fuel, ∀ fuel', fuel ≤ fuel' →
                    terminates (reload_module fuel' "b" ab_state))
  ∧ (∀ fuel st', reload_module fuel "a" loop_state ≠ Done st')
  ∧ (∀ fuel, reload_module fuel "a" loop_state = OutOfFuel).
Proof.
  split; [|split].
  - apply (proj1 (reload_module_termination "b" ab_state)).
    apply (acyclic_by_rank _ _ (λ x, if decide (x = "b") then 1 else 0)).
    apply (bool_decide_unpack _). vm_compute. exact I.
  - apply (proj1 (proj2 (reload_module_termination "a" loop_state))).
    exact loop_state_cycle.
  - apply (proj2 (proj2 (reload_module_termination "a" loop_state))).
    + exact loop_state_cycle.
    + exact loop_state_wf.
    + exact loop_state_all_loadable.
Defined.

(** C4, the claim as it is stated, fails. The recorded graph of
    [loop_state] is acyclic, and no fuel lets the reload of the registered
    module [a] end: the sources on disk now import from each other, and the
    reload records and follows their dependencies. *)
Lemma reload_module_recorded_acyclic_diverges :
  is_Some (_loaded_modules loop_state !! "a")
  ∧ Irreflexive (tc (recorded_edge loop_state))
  ∧ ∀ fuel, ¬ terminates (reload_module fuel "a" loop_state).
Proof.
  split; [compute_done|]. split.
  { apply (acyclic_by_rank _ _ (λ _, 0)). compute_done. }
  intros fuel Ht. apply Ht.
  apply reload_module_cycle_unbounded;
    auto using loop_state_cycle, loop_state_wf, loop_state_all_loadable.
Qed.

(** * The thread supervisor *)

Lemma start_module_thread_body_starts n f kw st m target :
  _loaded_modules st !! n = Some m → getattr m f = Some target →
  kw !! "target" = None → kw !! "self" = None →
  let st' := start_module_thread_body n f [] kw st in
  _module_threads st' !! n
  = Some (Thread false true target (delete "func_type" kw)
            (default (VInt 1) (kw !! "func_type")))
  ∧ _thread_configs st' !! n = Some (Config f [] kw)
  ∧ _loaded_modules st' = _loaded_modules st.
Proof.
  intros Hn Hf Ht Hs. unfold start_module_thread_body. rewrite Hn, Hf.
  unfold new. rewrite decide_False.
  2: { rewrite Ht, Hs. intros [[? ?]|[? ?]]; done. }
  simpl. by rewrite !lookup_insert_eq.
Qed.

Lemma start_module_thread_body_not_found n f args kw st m :
  _loaded_modules st !! n = Some m → getattr m f = None →
  start_module_thread_body n f args kw st
  = print (MsgFunctionNotFound f n) st.
Proof. intros Hn Hf. unfold start_module_thread_body. by rewrite Hn, Hf. Qed.

Lemma start_module_thread_body_loaded n f args kw st :
  _loaded_modules (start_module_thread_body n f args kw st)
  = _loaded_modules st.
Proof.
  unfold start_module_thread_body.
  destruct (_loaded_modules st !! n) as [m|]; [|done].
  destruct (getattr m f) as [a|]; [|done].
  destruct (new a args kw) as [th|]; [|done].
  by destruct (start th).
Qed.

(** A reload that returns restarts the worker of a stored configuration
    when the reloaded module still has the operation. *)
Lemma reload_module_restart fuel n st st' cfg m target :
  config_ok cfg →
  is_Some (_loaded_modules st !! n) →
  _thread_configs st !! n = Some cfg →
  reload_module fuel n st = Done st' →
  _loaded_modules st' !! n = Some m →
  getattr m (cfg_target_function cfg) = Some target →
  ∃ th, _module_threads st' !! n = Some th
        ∧ is_running th = true
        ∧ main_function th = target
        ∧ main_function_parameter th = delete "func_type" (cfg_kwargs cfg)
        ∧ _thread_configs st' !! n = Some cfg.
Proof.
  intros Hok Hn Hcfg Hr Hm Htarget. destruct fuel as [|fuel]; [done|].
  destruct (reload_module_Done_inv fuel n st st' Hn Hr)
    as (s & st5 & _ & _ & Hf).
  rewrite Hcfg in Hf. simpl in Hf.
  rewrite restart_module_thread_config_ok in Hf by done.
  injection Hf as <-.
  rewrite start_module_thread_body_loaded in Hm.
  destruct Hok as (Hargs & Hclash & Hnotarget).
  destruct (start_module_thread_body_starts n (cfg_target_function cfg)
              (cfg_kwargs cfg) _ m target Hm Htarget Hnotarget)
    as (Hth & Hc & _).
  { apply eq_None_not_Some. intros ?. apply Hclash. by left. }
  eexists. split; [exact Hth|]. repeat split.
  rewrite Hc. destruct cfg; simpl in *; by subst.
Qed.

Lemma kill_thread_removes n st :
  _module_threads (kill_thread n st) !! n = None
  ∧ _thread_configs (kill_thread n st) = _thread_configs st
  ∧ _loaded_modules (kill_thread n st) = _loaded_modules st.
Proof.
  unfold kill_thread. destruct (_module_threads st !! n) as [th|] eqn:Hth.
  - destruct (stop th). simpl. by rewrite lookup_delete_eq.
  - done.
Qed.

(** C3, as the code has it. In a well-formed state, where a stored
    configuration has no positional arguments, a reload of [module_name]
    that returns leaves a worker running for it whenever the module it
    loaded still has the attribute the configuration names: the worker is
    built on that attribute of the new module, with the keyword arguments
    of the configuration, and the recorded configuration is the one that
    was stored before the call. *)
Theorem reload_module_restarts_worker
    fuel module_name st st' cfg module target :
  wf st →
  _thread_configs st !! module_name = Some cfg →
  reload_module fuel module_name st = Done st' →
  get_module module_name st' = Some module →
  getattr module (cfg_target_function cfg) = Some target →
  cfg_args cfg = []
  ∧ ∃ th, _module_threads st' !! module_name = Some th
          ∧ is_running th = true
          ∧ main_function th = target
          ∧ main_function_parameter th = delete "func_type" (cfg_kwargs cfg)
          ∧ _thread_configs st' !! module_name = Some cfg.
Proof.
  intros Hwf Hcfg Hr Hm Htarget.
  pose proof (wf_config_ok st Hwf module_name cfg Hcfg) as Hok.
  simpl in Hok. split; [by destruct Hok|].
  apply (reload_module_restart fuel module_name st st' cfg module target);
    try done.
  apply elem_of_dom, (wf_configs st Hwf), elem_of_dom. eauto.
Qed.

Lemma worker_state_wf : wf worker_state.
Proof. split; compute_done. Qed.

Lemma reload_module_restarts_worker_witness :
  cfg_args (Config "tick" [] {[ "n" := VInt 1 ]}) = []
  ∧ ∃ th, _module_threads
            (state_of (reload_module 1 "calc" worker_state) empty_env)
            !! "calc" = Some th
          ∧ is_running th = true
          ∧ main_function th = AFunc returns_none
          ∧ main_function_parameter th
            = delete "func_type" ({[ "n" := VInt 1 ]} : gmap string value)
          ∧ _thread_configs
              (state_of (reload_module 1 "calc" worker_state) empty_env)
              !! "calc" = Some (Config "tick" [] {[ "n" := VInt 1 ]}).
Proof.
  refine (reload_module_restarts_worker 1 "calc" worker_state
            (state_of (reload_module 1 "calc" worker_state) empty_env)
            (Config "tick" [] {[ "n" := VInt 1 ]})
            (PyModule "calc" (src_dict calc_v1)) (AFunc returns_none)
            _ _ _ _ _).
  - exact worker_state_wf.
  - vm_compute. reflexivity.
  - vm_compute. reflexivity.
  - vm_compute. reflexivity.
  - vm_compute. reflexivity.
Defined.

(** C3, the claim as it is stated, fails. [calc] has a continuous worker
    running on [tick] with the keyword argument [n=1]; its source was
    edited and no longer defines [tick].  The reload returns, and no worker
    runs for [calc] afterwards. *)
Lemma reload_module_worker_not_restarted :
  (∃ th, _module_threads edited_worker_state !! "calc" = Some th
         ∧ is_running th = true ∧ func_type th = VInt 1)
  ∧ _thread_configs edited_worker_state !! "calc"
    = Some (Config "tick" [] {[ "n" := VInt 1 ]})
  ∧ ∀ fuel, 1 ≤ fuel →
      ∃ st', reload_module fuel "calc" edited_worker_state = Done st'
             ∧ _module_threads st' !! "calc" = None.
Proof.
  split; [eexists; split; [vm_compute; reflexivity|done]|].
  split; [vm_compute; reflexivity|].
  intros fuel Hfuel. eexists. split.
  - apply (reload_module_fuel_mono 1);
      [vm_compute; reflexivity|discriminate|exact Hfuel].
  - vm_compute. reflexivity.
Qed.

(** * Evaluations on the examples *)

Lemma toy_hash_nonempty b : toy_hash b ≠ "".
Proof. unfold toy_hash. by rewrite app_cons. Qed.


Lemma create_backup_unreadable_source_witness :
  _create_backup toy_hash "calc" "ghost.py" calc_state
  = ("", print (MsgHashError "ghost.py") calc_state).
Proof.
  apply (create_backup_unreadable_source toy_hash "calc" "ghost.py" calc_state).
  vm_compute. reflexivity.
Defined.

(** C6, the claim as it is stated, fails. The source [ghost.py] cannot be
    read, so that its hash is the empty string of a failed computation, and
    [_create_backup] returns without having tried to copy anything: the
    backup directory is as it was. *)
Lemma create_backup_hash_failure_no_attempt :
  (_calculate_file_hash toy_hash "ghost.py" calc_state).1 = ""
  ∧ ¬ attempted_copy "calc"
        (new_output calc_state
           (_create_backup toy_hash "calc" "ghost.py" calc_state).2)
  ∧ backups (_create_backup toy_hash "calc" "ghost.py" calc_state).2
    = backups calc_state.
Proof.
  split; [vm_compute; reflexivity|]. split; [|vm_compute; reflexivity].
  assert (new_output calc_state
            (_create_backup toy_hash "calc" "ghost.py" calc_state).2
          = [MsgHashError "ghost.py"]) as -> by (vm_compute; reflexivity).
  intros [[p Hp]|Hp]; apply list_elem_of_singleton in Hp; discriminate.
Qed.

(** C2: the code does not do what the claim says. The source of the
    registered module [calc] raises when it is executed, and a backup of
    [calc] is in the backup directory and loads.  [reload_module] does not
    turn to the backup and does not report a failure: the exception of the
    source leaves the call, whatever the fuel.  The handle and the
    dependency set of [calc] are what they were. *)
Theorem reload_module_source_failure_raises :
  is_Some (_loaded_modules broken_state !! "calc")
  ∧ is_Some (_load_from_backup "calc" broken_state).1
  ∧ ∀ fuel, 1 ≤ fuel →
      ∃ st', reload_module fuel "calc" broken_state = Raised OtherException st'
             ∧ new_output broken_state st' = []
             ∧ _loaded_modules st' = _loaded_modules broken_state
             ∧ _module_dependencies st' = _module_dependencies broken_state.
Proof.
  split; [compute_done|]. split; [compute_done|].
  intros fuel Hfuel. eexists. split.
  - apply (reload_module_fuel_mono 1);
      [vm_compute; reflexivity|discriminate|exact Hfuel].
  - repeat split; vm_compute; reflexivity.
Qed.

(** The worker is started on whatever [getattr] finds: [callable] is not
    asked. *)
Lemma start_module_thread_ignores_callable n f kw st m target :
  _loaded_modules st !! n = Some m → getattr m f = Some target →
  ¬ binding_clash kw → kw !! "target" = None →
  ∃ st', start_module_thread n f [] kw st = Done st'
         ∧ (∃ th, _module_threads st' !! n = Some th
                  ∧ is_running th = true ∧ main_function th = target)
         ∧ _thread_configs st' !! n = Some (Config f [] kw).
Proof.
  intros Hn Hf Hclash Htarget. unfold start_module_thread.
  rewrite decide_False by done. eexists. split; [done|].
  destruct (start_module_thread_body_starts n f kw st m target Hn Hf Htarget)
    as (Hth & Hc & _).
  { apply eq_None_not_Some. intros ?. apply Hclash. by left. }
  split; [|done]. eexists. by split.
Qed.

(** An operation that the module does not have is reported as not found:
    no worker is made and no configuration is stored. *)
Lemma start_module_thread_not_found n f args kw st m :
  _loaded_modules st !! n = Some m → getattr m f = None →
  ¬ binding_clash kw →
  start_module_thread n f args kw st
  = Done (print (MsgFunctionNotFound f n) st).
Proof.
  intros Hn Hf Hclash. unfold start_module_thread.
  rewrite decide_False by done.
  by rewrite (start_module_thread_body_not_found n f args kw st m).
Qed.

(** C7: the code does not do what the claim says. The attribute [VERSION]
    of [calc] is the number 3 and cannot be called.  [start_module_thread]
    reports no failure: it makes a worker whose operation is that number,
    marks it as running, stores its configuration and prints that the
    worker was started. *)
Theorem start_module_thread_not_callable_starts :
  (∃ m, _loaded_modules calc_state !! "calc" = Some m
        ∧ getattr m "VERSION" = Some (AValue (VInt 3))
        ∧ callable (AValue (VInt 3)) = false
        ∧ getattr m "missing" = None)
  ∧ (∃ st', start_module_thread "calc" "VERSION" [] ∅ calc_state = Done st'
            ∧ (∃ th, _module_threads st' !! "calc" = Some th
                     ∧ is_running th = true
                     ∧ main_function th = AValue (VInt 3))
            ∧ _thread_configs st' !! "calc" = Some (Config "VERSION" [] ∅)
            ∧ new_output calc_state st'
              = [MsgThreadStarted; MsgStarted "VERSION" "calc"])
  ∧ (∃ st', start_module_thread "calc" "missing" [] ∅ calc_state = Done st'
            ∧ _module_threads st' !! "calc" = None
            ∧ _thread_configs st' !! "calc" = None
            ∧ new_output calc_state st'
              = [MsgFunctionNotFound "missing" "calc"]).
Proof.
  split; [|split].
  - eexists. split; [vm_compute; reflexivity|]. repeat split.
  - eexists. split; [vm_compute; reflexivity|]. split.
    + eexists. split; [vm_compute; reflexivity|]. by split.
    + split; vm_compute; reflexivity.
  - eexists. split; [vm_compute; reflexivity|].
    repeat split; vm_compute; reflexivity.
Qed.

(** * Direct invocation *)

(** C9. A direct invocation for a name that is neither registered nor in
    [sys.modules], and that the import system finds, registers the imported
    module: [get_module] returns it afterwards, and when the operation is
    there, can be called and returns, the invocation returns its value.
    The dependencies are what they were, so that in a well-formed state the
    name is registered without a dependency set afterwards. *)
Theorem load_module_function_registers_without_dependencies
    module_name function_name args kwargs st s :
  _loaded_modules st !! module_name = None →
  sys_modules st !! module_name = None →
  finder st !! module_name = Some s →
  src_raises s = None →
  let module := PyModule module_name (src_dict s) in
  let r := load_module_function module_name function_name args kwargs st in
  get_module module_name r.2 = Some module
  ∧ _module_dependencies r.2 = _module_dependencies st
  ∧ (∀ target v, getattr module function_name = Some target →
                 callable target = true →
                 call target args kwargs = Returns v → r.1 = v)
  ∧ (wf st →
     module_name ∈ dom (_loaded_modules r.2)
     ∧ module_name ∉ dom (_module_dependencies r.2)).
Proof.
  intros Hn Hsys Hfind Hok module r.
  assert (Hr : get_module module_name r.2 = Some module
               ∧ _module_dependencies r.2 = _module_dependencies st
               ∧ ∀ target v, getattr module function_name = Some target →
                             callable target = true →
                             call target args kwargs = Returns v → r.1 = v).
  { subst r. unfold load_module_function, import_module.
    rewrite Hn, Hsys, Hfind, Hok. fold module.
    destruct (getattr module function_name) as [target|] eqn:Hget; simpl.
    - destruct (callable target) eqn:Hcall; simpl.
      + destruct (call target args kwargs) as [v|] eqn:Hv; simpl;
          unfold get_module; simpl; rewrite lookup_insert_eq;
          (split; [done|]); (split; [done|]);
          intros t v' [= <-] _ Hv'; congruence.
      + unfold get_module; simpl; rewrite lookup_insert_eq.
        split; [done|]. split; [done|]. intros t v' [= <-]. congruence.
    - unfold get_module; simpl; rewrite lookup_insert_eq.
      split; [done|]. split; [done|]. done. }
  destruct Hr as (Hget & Hdeps & Hcall).
  split; [done|]. split; [done|]. split; [done|].
  intros Hwf. split.
  - apply elem_of_dom. unfold get_module in Hget. eauto.
  - rewrite Hdeps. intros Hin. apply (wf_dependencies st Hwf) in Hin.
    apply elem_of_dom in Hin as [? Hin]. congruence.
Qed.

Lemma load_module_function_registers_without_dependencies_witness :
  get_module "util" (load_module_function "util" "twice" [] ∅ util_env).2
  = Some (PyModule "util" (src_dict util_src))
  ∧ _module_dependencies
      (load_module_function "util" "twice" [] ∅ util_env).2
    = _module_dependencies util_env
  ∧ (load_module_function "util" "twice" [] ∅ util_env).1 = VInt 2
  ∧ "util" ∈ dom (_loaded_modules
                    (load_module_function "util" "twice" [] ∅ util_env).2)
  ∧ "util" ∉ dom (_module_dependencies
                    (load_module_function "util" "twice" [] ∅ util_env).2).
Proof.
  pose proof (load_module_function_registers_without_dependencies
                "util" "twice" [] ∅ util_env util_src) as H.
  destruct H as (H1 & H2 & H3 & H4).
  - vm_compute. reflexivity.
  - vm_compute. reflexivity.
  - vm_compute. reflexivity.
  - reflexivity.
  - split; [exact H1|]. split; [exact H2|]. split.
    + apply (H3 (AFunc (λ _ _, Returns (VInt 2)))); reflexivity.
    + apply H4. split; compute_done.
Defined.

(** * Every reachable state is well formed *)

Global Instance same_dicts_preorder : PreOrder same_dicts.
Proof.
  split.
  - by intros st.
  - intros st1 st2 st3 (?&?&?&?) (?&?&?&?). unfold same_dicts.
    repeat split; congruence.
Qed.

Lemma same_dicts_keeps_wf st st' : same_dicts st st' → keeps_wf st st'.
Proof. intros (?&?&?&?). by apply wf_same_dicts. Qed.

Lemma init_wf env : wf (__init__ env).
Proof.
  split; simpl; rewrite ?dom_empty_L; try done.
Qed.

Lemma exec_from_path_same_dicts n path st :
  same_dicts st (exec_from_path n path st).2.
Proof.
  unfold exec_from_path. destruct (read_file st path) as [s|]; [|done].
  by destruct (src_raises s).
Qed.

Lemma import_module_same_dicts n st : same_dicts st (import_module n st).2.
Proof.
  unfold import_module. destruct (sys_modules st !! n); [done|].
  destruct (finder st !! n) as [s|]; [|done]. by destruct (src_raises s).
Qed.

Lemma load_from_backup_same_dicts n st :
  same_dicts st (_load_from_backup n st).2.
Proof.
  unfold _load_from_backup.
  destruct (latest_backup (backup_files st n)) as [f|]; [|done].
  destruct (read_file _ _) as [s|]; [|done]. by destruct (src_raises s).
Qed.

Lemma write_file_same_dicts path s st : same_dicts st (write_file path s st).
Proof. unfold write_file. by destruct (strip_prefix _ _). Qed.

Section Registration.

Variable sha256 : list byte → string.

Lemma calculate_file_hash_same_dicts path st :
  same_dicts st (_calculate_file_hash sha256 path st).2.
Proof. unfold _calculate_file_hash. by destruct (read_file st path). Qed.

Lemma find_same_hash_same_dicts n h fs :
  ∀ st, same_dicts st (find_same_hash sha256 n h fs st).2.
Proof.
  induction fs as [|f fs IH]; intros st; simpl; [done|].
  pose proof (calculate_file_hash_same_dicts (backup_path f) st) as H1.
  destruct (_calculate_file_hash sha256 (backup_path f) st) as [h' st1].
  simpl in H1. case_decide; simpl; [done|]. etrans; [exact H1|apply IH].
Qed.

Lemma create_backup_same_dicts n path st :
  same_dicts st (_create_backup sha256 n path st).2.
Proof.
  unfold _create_backup.
  pose proof (calculate_file_hash_same_dicts path st) as H1.
  destruct (_calculate_file_hash sha256 path st) as [h st1]. simpl in H1.
  case_decide; [done|].
  pose proof (find_same_hash_same_dicts n h (backup_files st1 n) st1) as H2.
  destruct (find_same_hash sha256 n h (backup_files st1 n) st1)
    as [[p|] st2]; simpl in *; [by etrans|].
  destruct (read_file st2 path) as [s|]; simpl.
  - etrans; [exact H1|]. etrans; [exact H2|].
    etrans; [apply write_file_same_dicts|done].
  - by etrans.
Qed.

Lemma store_module_keeps_wf n m st : keeps_wf st (store_module n m st).
Proof.
  unfold store_module.
  set (st2 := set_module_dependencies _ _).
  assert (H2 : keeps_wf st st2) by apply store_keeps_wf.
  destruct (sys_modules st2 !! n); [exact H2|].
  etrans; [exact H2|]. by apply same_dicts_keeps_wf.
Qed.

Lemma register_loaded_keeps_wf n st :
  result_after (keeps_wf st) (register_loaded n st).
Proof.
  unfold register_loaded.
  destruct (_loaded_modules st !! n); [simpl; reflexivity|].
  pose proof (import_module_same_dicts n st) as H1.
  apply same_dicts_keeps_wf in H1.
  destruct (import_module n st) as [[e|m] st1]; simpl in *.
  - destruct e; simpl; try exact H1.
    pose proof (load_from_backup_same_dicts n (print (MsgRegisterError n) st1))
      as H2.
    apply same_dicts_keeps_wf in H2.
    destruct (_load_from_backup n _) as [[b|] st3]; simpl in *.
    + etrans; [exact H1|]. etrans; [apply print_keeps_wf|].
      etrans; [exact H2|]. etrans; [apply store_module_keeps_wf|].
      apply print_keeps_wf.
    + etrans; [exact H1|]. etrans; [apply print_keeps_wf|].
      etrans; [exact H2|]. apply print_keeps_wf.
  - etrans; [exact H1|]. etrans; [apply store_module_keeps_wf|].
    apply print_keeps_wf.
Qed.

Lemma result_after_trans (R : relation state) `{!PreOrder R} st st1 r :
  R st st1 → result_after (R st1) r → result_after (R st) r.
Proof. intros H1. destruct r; simpl; try done; by etrans. Qed.

Lemma custom_path_fallback_keeps_wf n st :
  result_after (keeps_wf st) (custom_path_fallback n st).
Proof.
  unfold custom_path_fallback.
  pose proof (load_from_backup_same_dicts n (print MsgCustomPathError st))
    as H2.
  apply same_dicts_keeps_wf in H2.
  destruct (_load_from_backup n _) as [[b|] st2]; simpl in *.
  - eapply result_after_trans; [apply _| |apply register_loaded_keeps_wf].
    etrans; [apply print_keeps_wf|]. etrans; [exact H2|].
    by apply same_dicts_keeps_wf.
  - etrans; [apply print_keeps_wf|]. etrans; [exact H2|].
    apply print_keeps_wf.
Qed.

Lemma register_module_keeps_wf n custom_path use_cython st :
  result_after (keeps_wf st)
    (register_module sha256 n custom_path use_cython st).
Proof.
  unfold register_module.
  destruct (sys_modules st !! n); [apply print_keeps_wf|].
  destruct custom_path as [path|]; [|apply register_loaded_keeps_wf].
  case_decide; [|apply register_loaded_keeps_wf].
  set (st1 := set_sys_path _ _).
  assert (H1 : keeps_wf st st1) by by apply same_dicts_keeps_wf.
  pose proof (exec_from_path_same_dicts n path st1) as H2.
  apply same_dicts_keeps_wf in H2.
  destruct (exec_from_path n path st1) as [[e|foo] st2]; simpl in H2.
  { eapply result_after_trans; [apply _| |apply custom_path_fallback_keeps_wf].
    by etrans. }
  assert (H02 : keeps_wf st st2) by by etrans.
  destruct (read_file st2 path) as [s|];
    [|by eapply result_after_trans; [apply _| |apply register_loaded_keeps_wf]].
  pose proof (create_backup_same_dicts n path st2) as H3.
  apply same_dicts_keeps_wf in H3.
  set (st3 := (_create_backup sha256 n path st2).2) in *.
  assert (H03 : keeps_wf st st3) by by etrans.
  destruct (use_cython && _create_cython_version n path st3);
    [|by eapply result_after_trans; [apply _| |apply register_loaded_keeps_wf]].
  pose proof (import_module_same_dicts n (set_sys_modules (delete n) st3))
    as H4.
  apply same_dicts_keeps_wf in H4.
  destruct (import_module n _) as [[e|m] st5]; simpl in H4.
  - assert (H05 : keeps_wf st st5).
    { etrans; [exact H03|]. etrans; [|exact H4].
      by apply (same_dicts_keeps_wf st3 (set_sys_modules (delete n) st3)). }
    destruct e;
      try (by eapply result_after_trans;
             [apply _| |apply custom_path_fallback_keeps_wf]).
    eapply result_after_trans; [apply _| |apply register_loaded_keeps_wf].
    etrans; [exact H05|apply print_keeps_wf].
  - eapply result_after_trans; [apply _| |apply register_loaded_keeps_wf].
    etrans; [exact H03|].
    etrans; [apply (same_dicts_keeps_wf st3 (set_sys_modules (delete n) st3));
             done|].
    etrans; [exact H4|].
    etrans; [apply (same_dicts_keeps_wf st5
                      (set_sys_modules (insert n m) st5)); done|].
    apply print_keeps_wf.
Qed.

End Registration.

Lemma start_module_thread_keeps_wf n f args kw st :
  result_after (keeps_wf st) (start_module_thread n f args kw st).
Proof.
  unfold start_module_thread. case_decide; simpl; [reflexivity|].
  by apply start_module_thread_body_keeps_wf.
Qed.

Lemma reload_each_keeps_wf reload names :
  (∀ n st, result_after (keeps_wf st) (reload n st)) →
  ∀ st, result_after (keeps_wf st) (reload_each reload names st).
Proof.
  intros Hrel. induction names as [|n names IH]; intros st; simpl;
    [reflexivity|].
  specialize (Hrel n st). destruct (reload n st) as [st1| |]; simpl in *;
    try done.
  eapply result_after_trans; [apply _|exact Hrel|apply IH].
Qed.

Lemma load_module_function_keeps_wf n f args kw st :
  keeps_wf st (load_module_function n f args kw st).2.
Proof.
  unfold load_module_function.
  set (found := match _loaded_modules st !! n with
                | Some _ => _ | None => _ end).
  assert (Hfound : keeps_wf st found.2).
  { subst found. destruct (_loaded_modules st !! n); [reflexivity|].
    destruct (sys_modules st !! n); [reflexivity|].
    pose proof (import_module_same_dicts n st) as H1.
    apply same_dicts_keeps_wf in H1.
    destruct (import_module n st) as [[e|m] st1]; simpl in *; [exact H1|].
    etrans; [exact H1|]. intros [Hd Ht Hc Hok]. split; simpl; try done.
    - rewrite dom_insert_L. etrans; [exact Hd|]. apply union_subseteq_r.
    - rewrite dom_insert_L. etrans; [exact Hc|]. apply union_subseteq_r. }
  destruct found as [[e|m] st1]; simpl in *.
  - etrans; [exact Hfound|apply print_keeps_wf].
  - destruct (getattr m f) as [target|];
      [|etrans; [exact Hfound|apply print_keeps_wf]].
    destruct (callable target);
      [|etrans; [exact Hfound|apply print_keeps_wf]].
    destruct (call target args kw); simpl; [exact Hfound|].
    etrans; [exact Hfound|apply print_keeps_wf].
Qed.

(** The hypothesis [wf] of the theorems above holds of every state a
    reloader can be in. *)
Lemma reachable_wf sha256 st : reachable sha256 st → wf st.
Proof.
  induction 1 as [env|st st' _ IH Hd _|n p c st st' _ IH He
                 |fuel n st st' _ IH He|fuel st st' _ IH He
                 |n f args kw st st' _ IH He|n st _ IH|n f args kw st _ IH].
  - apply init_wf.
  - by apply (same_dicts_keeps_wf st).
  - pose proof (register_module_keeps_wf sha256 n p c st) as Hk.
    destruct He as [He|[e He]]; rewrite He in Hk; by apply Hk.
  - pose proof (reload_module_keeps_wf fuel n st) as Hk.
    destruct He as [He|[e He]]; rewrite He in Hk; by apply Hk.
  - pose proof (reload_each_keeps_wf (reload_module fuel)
                  (get_loaded_modules st)
                  (reload_module_keeps_wf fuel) st) as Hk.
    unfold reload_all in He.
    destruct He as [He|[e He]]; rewrite He in Hk; by apply Hk.
  - pose proof (start_module_thread_keeps_wf n f args kw st) as Hk.
    destruct He as [He|[e He]]; rewrite He in Hk; by apply Hk.
  - by apply kill_thread_keeps_wf.
  - by apply load_module_function_keeps_wf.
Qed.

Lemma terminates_ends_in r d : terminates r → ends_in r (state_of r d).
Proof. destruct r; [by left|right; by eexists|done]. Qed.

Lemma register_loaded_terminates n st : terminates (register_loaded n st).
Proof.
  unfold register_loaded. destruct (_loaded_modules st !! n); [done|].
  destruct (import_module n st) as [[[]|m] st1]; try done.
  by destruct (_load_from_backup n _) as [[b|] st3].
Qed.

Lemma custom_path_fallback_terminates n st :
  terminates (custom_path_fallback n st).
Proof.
  unfold custom_path_fallback.
  destruct (_load_from_backup n _) as [[b|] st2]; [|done].
  apply register_loaded_terminates.
Qed.

Lemma register_module_terminates sha256 n custom_path use_cython st :
  terminates (register_module sha256 n custom_path use_cython st).
Proof.
  unfold register_module. destruct (sys_modules st !! n); [done|].
  destruct custom_path as [path|]; [|apply register_loaded_terminates].
  case_decide; [|apply register_loaded_terminates].
  destruct (exec_from_path n path _) as [[e|foo] st2];
    [apply custom_path_fallback_terminates|].
  destruct (read_file st2 path); [|apply register_loaded_terminates].
  destruct (use_cython && _); [|apply register_loaded_terminates].
  destruct (import_module n _) as [[[]|m] st5];
    auto using register_loaded_terminates, custom_path_fallback_terminates.
Qed.

Lemma start_module_thread_terminates n f args kw st :
  terminates (start_module_thread n f args kw st).
Proof. unfold start_module_thread. by case_decide. Qed.

Lemma reachable_set_files sha256 fs st :
  reachable sha256 st → reachable sha256 (set_files fs st).
Proof. intros H. by apply (reachable_environment _ st). Qed.

(** The states of the examples are states a reloader gets into. *)
Lemma calc_state_reachable : reachable toy_hash calc_state.
Proof.
  unfold calc_state.
  eapply reachable_register_module;
    [|apply terminates_ends_in, register_module_terminates].
  apply reachable_init.
Qed.

Lemma worker_state_reachable : reachable toy_hash worker_state.
Proof.
  unfold worker_state.
  eapply reachable_start_module_thread;
    [|apply terminates_ends_in, start_module_thread_terminates].
  apply calc_state_reachable.
Qed.

Lemma broken_state_reachable : reachable toy_hash broken_state.
Proof. apply reachable_set_files, calc_state_reachable. Qed.

Lemma edited_worker_state_reachable : reachable toy_hash edited_worker_state.
Proof. apply reachable_set_files, worker_state_reachable. Qed.

Lemma edited_killed_state_reachable : reachable toy_hash edited_killed_state.
Proof.
  apply reachable_set_files, reachable_kill_thread, worker_state_reachable.
Qed.

Lemma register_both_reachable a_src b_src :
  reachable toy_hash (register_both a_src b_src).
Proof.
  unfold register_both.
  eapply reachable_register_module;
    [|apply terminates_ends_in, register_module_terminates].
  eapply reachable_register_module;
    [|apply terminates_ends_in, register_module_terminates].
  apply reachable_init.
Qed.

Lemma ab_state_reachable : reachable toy_hash ab_state.
Proof. apply register_both_reachable. Qed.

Lemma loop_state_reachable : reachable toy_hash loop_state.
Proof. apply reachable_set_files, register_both_reachable. Qed.

Lemma diamond_state_reachable : reachable toy_hash diamond_state.
Proof.
  unfold diamond_state.
  repeat (eapply reachable_register_module;
          [|apply terminates_ends_in, register_module_terminates]).
  apply reachable_init.
Qed.


(** * Further properties *)

(** ** The dependency scan *)

(** X1. [_get_module_dependencies] lists, without repetition, exactly the
    modules that defined a class found among the attributes of the module,
    the module itself and the empty name apart. *)
Theorem get_module_dependencies_spec module d :
  NoDup (_get_module_dependencies module)
  ∧ (d ∈ _get_module_dependencies module
     ↔ d ≠ "" ∧ d ≠ mod_name module
       ∧ ∃ a ctor, mod_dict module !! a = Some (AType d ctor)).
Proof.
  unfold _get_module_dependencies. split; [apply NoDup_elements|].
  rewrite elem_of_elements, elem_of_list_to_set, list_elem_of_omap. split.
  - intros ([a x] & Hin & Hx). apply elem_of_map_to_list in Hin. simpl in Hx.
    destruct x as [m ctor| |]; simpl in Hx; try done.
    case_decide as Hm; [|done]. injection Hx as ->.
    destruct Hm. eauto.
  - intros (H1 & H2 & a & ctor & Ha). exists (a, AType d ctor). split.
    + by apply elem_of_map_to_list.
    + simpl. by rewrite decide_True.
Qed.

(** ** The backup store *)

Lemma ltb_le g f : String.ltb g f = true → (g ≤ f)%string.
Proof.
  unfold String.ltb, String.le, String.leb.
  by destruct (String.compare g f).
Qed.

Lemma not_ltb_le g f : String.ltb g f = false → (f ≤ g)%string.
Proof.
  unfold String.ltb, String.le, String.leb.
  rewrite (String.compare_antisym f g).
  by destruct (String.compare g f).
Qed.

Lemma latest_backup_spec fs :
  match latest_backup fs with
  | None => fs = []
  | Some latest => latest ∈ fs ∧ ∀ f, f ∈ fs → (f ≤ latest)%string
  end.
Proof.
  induction fs as [|f fs IH]; simpl; [done|].
  destruct (latest_backup fs) as [g|].
  - destruct IH as [Hg Hmax].
    destruct (String.ltb g f) eqn:Hlt.
    + split; [by left|]. intros x Hx.
      apply elem_of_cons in Hx as [->|Hx]; [done|].
      etrans; [by apply Hmax|by apply ltb_le].
    + split; [by right|]. intros x Hx.
      apply elem_of_cons in Hx as [->|Hx]; [by apply not_ltb_le|].
      by apply Hmax.
  - subst fs. split; [by left|]. intros x Hx.
    apply elem_of_cons in Hx as [->|Hx]; [done|].
    by apply elem_of_nil in Hx.
Qed.

(** X2. When [_load_from_backup] returns a module, it is what the backup
    file of the module with the greatest name leaves when executed: the
    name of every backup file of the module is at most the name of the file
    that was loaded, in the order of character codes, which for the
    timestamps of the file names is the order of time.  The module is named
    after the module asked for, and nothing but the output changes:
    [sys.modules] and the registry are left alone. *)
Theorem load_from_backup_loads_greatest module_name st module :
  (_load_from_backup module_name st).1 = Some module →
  (∃ latest s,
      is_backup_of module_name latest = true
      ∧ backups st !! latest = Some s ∧ src_raises s = None
      ∧ module = PyModule module_name (src_dict s)
      ∧ ∀ f, is_backup_of module_name f = true →
             is_Some (backups st !! f) → (f ≤ latest)%string)
  ∧ (_load_from_backup module_name st).2
    = print (MsgLoadingBackup module_name
               (default "" (latest_backup (backup_files st module_name)))) st.
Proof.
  unfold _load_from_backup.
  pose proof (latest_backup_spec (backup_files st module_name)) as Hspec.
  destruct (latest_backup (backup_files st module_name)) as [latest|];
    [|done].
  destruct Hspec as [Hin Hmax]. rewrite read_file_backup_path. simpl.
  apply elem_of_backup_files in Hin as [Hbk [s Hs]]. rewrite Hs.
  destruct (src_raises s) eqn:Hraises; [done|]. simpl. intros [= <-].
  split; [|done]. exists latest, s. repeat split; try done.
  intros f Hf Hsome. apply Hmax, elem_of_backup_files. by split.
Qed.

Lemma load_from_backup_loads_greatest_witness :
  (∃ latest s,
      is_backup_of "calc" latest = true
      ∧ backups broken_state !! latest = Some s ∧ src_raises s = None
      ∧ PyModule "calc" (src_dict calc_v1) = PyModule "calc" (src_dict s)
      ∧ ∀ f, is_backup_of "calc" f = true →
             is_Some (backups broken_state !! f) → (f ≤ latest)%string)
  ∧ (_load_from_backup "calc" broken_state).2
    = print (MsgLoadingBackup "calc"
               (default "" (latest_backup (backup_files broken_state "calc"))))
            broken_state.
Proof.
  apply (load_from_backup_loads_greatest "calc" broken_state
           (PyModule "calc" (src_dict calc_v1))).
  vm_compute. reflexivity.
Defined.

Lemma startswith_app_weaken f p q :
  startswith f (p +:+ q) = true → startswith f p = true.
Proof.
  revert f. induction p as [|c p IH]; intros f; [done|].
  rewrite app_cons. simpl. destruct f as [|d f]; [done|].
  case_decide; [|done]. apply IH.
Qed.

(** X3. The files taken for backups of a module are told by the prefix
    [name_] alone, so every backup of a module whose name continues the name
    of another module with an underscore counts as a backup of that other
    module too. *)
Theorem backups_of_longer_name_are_taken st a b f :
  f ∈ backup_files st (a +:+ "_" +:+ b) → f ∈ backup_files st a.
Proof.
  rewrite !elem_of_backup_files. intros [Hbk Hsome]. split; [|done].
  unfold is_backup_of in *. apply andb_true_iff in Hbk as [Hstart Hend].
  apply andb_true_iff. split; [|done].
  rewrite !app_assoc_str in Hstart.
  rewrite <- (app_assoc_str a "_") in Hstart.
  by apply startswith_app_weaken in Hstart.
Qed.

Lemma backups_of_longer_name_are_taken_witness :
  "calc_v2_20240101_000000.py" ∈ backup_files v2_store "calc".
Proof.
  apply (backups_of_longer_name_are_taken v2_store "calc" "v2").
  apply (bool_decide_unpack _). vm_compute. exact I.
Defined.

(** A consequence: with no backup of its own, [calc] is loaded from the
    backup of [calc_v2]. *)
Example load_from_backup_of_other_module :
  backup_files v2_store "calc" = ["calc_v2_20240101_000000.py"]
  ∧ (_load_from_backup "calc" v2_store).1
    = Some (PyModule "calc" (src_dict calc_v1)).
Proof. split; vm_compute; reflexivity. Qed.

Section BackupStoreMore.

Variable sha256 : list byte → string.

(** X4. [_create_backup] never removes or changes a backup: whatever it is
    called with, every entry of the backup directory is still there
    afterwards with its content, except that the one file named after the
    module and the current second may be written; the files outside the
    backup directory are left alone. *)
Theorem create_backup_keeps_entries module_name source_path st f :
  let r := _create_backup sha256 module_name source_path st in
  files r.2 = files st
  ∧ (is_Some (backups st !! f) → is_Some (backups r.2 !! f))
  ∧ (f ≠ module_name +:+ "_" +:+ now st +:+ ".py" →
     backups r.2 !! f = backups st !! f).
Proof.
  unfold _create_backup, _calculate_file_hash.
  destruct (read_file st source_path) as [s|] eqn:Hread; simpl; [|done].
  case_decide; [done|].
  pose proof (find_same_hash_frame sha256 module_name (sha256 (src_bytes s))
                (backup_files st module_name) st) as Hfr.
  destruct (find_same_hash sha256 module_name _ _ st) as [[p|] st2];
    simpl in Hfr; destruct Hfr as (Hb & Hf & Hn); simpl.
  { by rewrite Hb, Hf. }
  rewrite (read_file_frame st) by done. rewrite Hread.
  rewrite write_file_backup_path. simpl. rewrite Hb, Hf, Hn.
  split; [done|]. split.
  - intros Hsome. rewrite lookup_insert. by case_decide.
  - intros Hne. by rewrite lookup_insert_ne.
Qed.

Hypothesis sha256_nonempty : ∀ b, sha256 b ≠ "".

(** A call that finds no record with the hash of the source writes the file
    named after the module and the current second. *)
Lemma create_backup_fresh module_name source_path s st :
  read_file st source_path = Some s →
  (∀ g, ¬ is_record sha256 st module_name (sha256 (src_bytes s)) g) →
  let f := module_name +:+ "_" +:+ now st +:+ ".py" in
  let r := _create_backup sha256 module_name source_path st in
  r.1 = backup_path f ∧ backups r.2 = <[f := s]> (backups st)
  ∧ files r.2 = files st ∧ now r.2 = now st.
Proof.
  intros Hread Hnone. unfold _create_backup, _calculate_file_hash.
  rewrite Hread. rewrite decide_False by apply sha256_nonempty.
  pose proof (find_same_hash_frame sha256 module_name (sha256 (src_bytes s))
                (backup_files st module_name) st) as Hfr.
  destruct (find_same_hash sha256 module_name _ _ st) as [[p|] st2] eqn:Hfind;
    simpl in Hfr; destruct Hfr as (Hb & Hf & Hn).
  - apply find_same_hash_Some in Hfind as (g & s' & -> & Hin & Hs' & Hh);
      [|apply sha256_nonempty..].
    apply elem_of_backup_files in Hin as [Hbk _].
    destruct (Hnone g). split; eauto.
  - rewrite (read_file_frame st) by done. rewrite Hread.
    rewrite write_file_backup_path. simpl. by rewrite Hb, Hf, Hn.
Qed.

(** X5. The name of a backup file has the resolution of a second.  When two
    versions of a source, with different hashes that the backup directory
    does not hold yet, are saved for one module within the same second, the
    second save writes the file the first one wrote: both calls return the
    same path, the file holds the second version, and no backup of the first
    version is left. *)
Theorem create_backup_same_second_overwrites
    module_name source_path source_path' s s' st :
  let h := sha256 (src_bytes s) in
  let h' := sha256 (src_bytes s') in
  let r1 := _create_backup sha256 module_name source_path st in
  let r2 := _create_backup sha256 module_name source_path' r1.2 in
  read_file st source_path = Some s →
  read_file r1.2 source_path' = Some s' →
  h ≠ h' →
  (∀ g, ¬ is_record sha256 st module_name h g) →
  (∀ g, ¬ is_record sha256 st module_name h' g) →
  r2.1 = r1.1
  ∧ read_file r2.2 r1.1 = Some s'
  ∧ ∀ g, ¬ is_record sha256 r2.2 module_name h g.
Proof.
  intros h h' r1 r2 Hread Hread' Hne Hnone Hnone'.
  destruct (create_backup_fresh module_name source_path s st Hread Hnone)
    as (Hp1 & Hb1 & Hf1 & Hn1). fold r1 in Hp1, Hb1, Hf1, Hn1.
  set (f := module_name +:+ "_" +:+ now st +:+ ".py") in *.
  assert (Hnone1 : ∀ g, ¬ is_record sha256 r1.2 module_name h' g).
  { intros g [Hbk (sg & Hsg & Hh)]. rewrite Hb1 in Hsg.
    destruct (decide (g = f)) as [->|Hg].
    - rewrite lookup_insert_eq in Hsg. injection Hsg as <-. by apply Hne.
    - rewrite lookup_insert_ne in Hsg by done.
      apply (Hnone' g). split; eauto. }
  destruct (create_backup_fresh module_name source_path' s' r1.2 Hread' Hnone1)
    as (Hp2 & Hb2 & Hf2 & Hn2). fold r2 in Hp2, Hb2, Hf2, Hn2.
  rewrite Hn1 in Hp2, Hb2. fold f in Hp2, Hb2.
  split; [by rewrite Hp1, Hp2|]. split.
  - rewrite Hp1, read_file_backup_path, Hb2. apply lookup_insert_eq.
  - intros g [Hbk (sg & Hsg & Hh)]. rewrite Hb2, Hb1 in Hsg.
    destruct (decide (g = f)) as [->|Hg].
    + rewrite lookup_insert_eq in Hsg. injection Hsg as <-.
      apply Hne. symmetry. exact Hh.
    + rewrite !lookup_insert_ne in Hsg by done.
      apply (Hnone g). split; eauto.
Qed.

End BackupStoreMore.

Lemma create_backup_same_second_overwrites_witness :
  (_create_backup toy_hash "calc" "calc_new.py"
     (_create_backup toy_hash "calc" "calc.py" two_versions_store).2).1
  = (_create_backup toy_hash "calc" "calc.py" two_versions_store).1
  ∧ read_file
      (_create_backup toy_hash "calc" "calc_new.py"
         (_create_backup toy_hash "calc" "calc.py" two_versions_store).2).2
      (_create_backup toy_hash "calc" "calc.py" two_versions_store).1
    = Some calc_v2
  ∧ ∀ g, ¬ is_record toy_hash
             (_create_backup toy_hash "calc" "calc_new.py"
                (_create_backup toy_hash "calc" "calc.py"
                   two_versions_store).2).2
             "calc" (toy_hash (src_bytes calc_v1)) g.
Proof.
  apply (create_backup_same_second_overwrites toy_hash toy_hash_nonempty
           "calc" "calc.py" "calc_new.py" calc_v1 calc_v2 two_versions_store).
  - vm_compute. reflexivity.
  - vm_compute. reflexivity.
  - vm_compute. discriminate.
  - intros g [_ (s & Hs & _)]. vm_compute in Hs. discriminate.
  - intros g [_ (s & Hs & _)]. vm_compute in Hs. discriminate.
Defined.

(** ** Worker threads *)

(** X6. The life cycle of a [ThreadTemplate].  [start] always leaves the
    object running and [stop] always leaves it not running; a second
    [start] or a second [stop] changes nothing.  [stop] after [start] leaves
    the stop signal set, and a later [start] clears it.  Neither touches
    the operation, its keyword arguments or the mode; the context manager
    is [start] on entry and [stop] on exit. *)
Theorem thread_start_stop t :
  is_running (start t).1 = true
  ∧ is_running (stop t).1 = false
  ∧ (start (start t).1).1 = (start t).1
  ∧ (stop (stop t).1).1 = (stop t).1
  ∧ (start (start t).1).2 = [MsgThreadAlreadyRunning]
  ∧ (stop (stop t).1).2 = [MsgThreadNotRunning]
  ∧ _stop_event (stop (start t).1).1 = true
  ∧ _stop_event (start (stop t).1).1 = false
  ∧ (__exit__ (__enter__ t).1).1 = (stop (start t).1).1
  ∧ (main_function (start t).1, main_function_parameter (start t).1,
     func_type (start t).1)
    = (main_function t, main_function_parameter t, func_type t)
  ∧ (main_function (stop t).1, main_function_parameter (stop t).1,
     func_type (stop t).1)
    = (main_function t, main_function_parameter t, func_type t).
Proof.
  unfold __exit__, __enter__, is_running, start, stop.
  destruct t as [stop_event [] f kw mode]; simpl; repeat split.
Qed.

(** X7. How the call [ThreadTemplate(target=target_func, *args, **kwargs)]
    binds its arguments.  It fails exactly when there is a positional
    argument or a keyword named [target] or [self].  Otherwise the new
    object is not running, its operation is the target, a keyword
    [func_type] sets the mode (1 when absent) and is not passed on to the
    operation, and every other keyword is passed on as it is. *)
Theorem new_binds_arguments target args kw :
  match new target args kw with
  | None =>
      args ≠ [] ∨ is_Some (kw !! "target") ∨ is_Some (kw !! "self")
  | Some th =>
      args = [] ∧ kw !! "target" = None ∧ kw !! "self" = None
      ∧ is_running th = false
      ∧ main_function th = target
      ∧ func_type th = default (VInt 1) (kw !! "func_type")
      ∧ main_function_parameter th !! "func_type" = None
      ∧ ∀ k, k ≠ "func_type" → main_function_parameter th !! k = kw !! k
  end.
Proof.
  unfold new. destruct args as [|a args]; [|by left].
  case_decide as Hk; [by right|]. simpl.
  split; [done|]. split; [apply eq_None_not_Some; tauto|].
  split; [apply eq_None_not_Some; tauto|]. split; [done|].
  split; [done|]. split; [done|]. split; [apply lookup_delete_eq|].
  intros k Hne. by rewrite lookup_delete_ne.
Qed.

Lemma func_type_is_exclusive t :
  func_type_is t 1 = true → func_type_is t 0 = false.
Proof.
  unfold func_type_is. destruct (func_type t) as [|[]|z|]; try done.
  intros Hz. apply bool_decide_eq_true in Hz as ->. done.
Qed.

Lemma invoke_not_callable exits t v :
  main_function t = AValue v → invoke exits t = Outcome (Throws TypeError).
Proof.
  intros Hf. unfold invoke, call. rewrite Hf. simpl.
  by rewrite andb_false_r.
Qed.

Lemma run_loop_returns checks exits t v :
  invoke exits t = Outcome (Returns v) →
  run_loop checks exits t
  = (Ended, replicate checks (RunCall (Outcome (Returns v)))).
Proof.
  intros Hv. induction checks as [|checks IH]; simpl; [done|].
  unfold run_call. by rewrite Hv, IH.
Qed.

Lemma calls_of_replicate n r : calls_of (replicate n (RunCall r)) = n.
Proof.
  unfold calls_of. induction n as [|n IH]; [done|].
  change (replicate (S n) (RunCall r)) with (RunCall r :: replicate n (RunCall r)).
  rewrite filter_cons_True by done. simpl. by rewrite IH.
Qed.

(** X8. What the body of a worker thread does, [checks] being the number
    of times its loop finds the stop signal clear.  It always ends with the
    report of the clean-up.  In continuous mode an operation that returns is
    called once per check and no error is reported.  An operation that
    raises an exception derived from [Exception], or a target that cannot be
    called, is called once, the error is reported and the loop is left.  An
    operation that leaves by any other exception ([SystemExit] and the like)
    is called once too, but nothing is reported and the exception leaves
    [_run], after the report of the clean-up.  In one-shot mode the
    operation is called once, with the same three outcomes.  In any other
    mode it is never called. *)
Theorem run_calls checks exits t :
  last (_run checks exits t).2 = Some RunCleanup
  ∧ if func_type_is t 1 then
      match invoke exits t with
      | Outcome (Returns v) =>
          _run checks exits t
          = (Ended,
             replicate checks (RunCall (Outcome (Returns v))) ++ [RunCleanup])
          ∧ calls_of (_run checks exits t).2 = checks
      | Outcome (Throws e) =>
          _run checks exits t
          = match checks with
            | 0 => (Ended, [RunCleanup])
            | S _ =>
                (Caught, [RunCall (Outcome (Throws e)); RunError; RunCleanup])
            end
      | Exits =>
          _run checks exits t
          = match checks with
            | 0 => (Ended, [RunCleanup])
            | S _ => (Escaped, [RunCall Exits; RunCleanup])
            end
      end
    else if func_type_is t 0 then
      _run checks exits t
      = match invoke exits t with
        | Outcome (Returns v) =>
            (Ended, [RunCall (Outcome (Returns v)); RunCleanup])
        | Outcome (Throws e) =>
            (Caught, [RunCall (Outcome (Throws e)); RunError; RunCleanup])
        | Exits => (Escaped, [RunCall Exits; RunCleanup])
        end
      ∧ calls_of (_run checks exits t).2 = 1
    else _run checks exits t = (Ended, [RunCleanup]).
Proof.
  split.
  { unfold _run. destruct (if func_type_is t 1 then _ else _) as [e1 ev].
    destruct (match e1 with Ended => _ | _ => _ end) as [e2 once]. simpl.
    by rewrite app_assoc, last_snoc. }
  unfold _run. destruct (func_type_is t 1) eqn:H1.
  - rewrite (func_type_is_exclusive t H1).
    destruct (invoke exits t) as [[v|e]|] eqn:Hv.
    + rewrite (run_loop_returns checks exits t v Hv). simpl.
      split; [done|]. unfold calls_of.
      rewrite filter_app, length_app.
      fold (calls_of (replicate checks (RunCall (Outcome (Returns v))))).
      rewrite calls_of_replicate. simpl. lia.
    + destruct checks as [|checks]; simpl; [done|].
      unfold run_call. by rewrite Hv.
    + destruct checks as [|checks]; simpl; [done|].
      unfold run_call. by rewrite Hv.
  - destruct (func_type_is t 0); [|done]. unfold run_call.
    by destruct (invoke exits t) as [[v|e]|].
Qed.

(** A worker on an attribute that cannot be called: one call, which
    raises [TypeError], one report, and the thread is over, whatever the
    mode asked for by 0 or 1. *)
Lemma run_not_callable checks exits t v :
  main_function t = AValue v → func_type_is t 1 = true →
  _run (S checks) exits t
  = (Caught, [RunCall (Outcome (Throws TypeError)); RunError; RunCleanup]).
Proof.
  intros Hf H1. unfold _run. rewrite H1. simpl.
  unfold run_call. by rewrite (invoke_not_callable exits t v Hf).
Qed.

(** ** Registration *)

Global Instance same_but_backups_preorder : PreOrder same_but_backups.
Proof.
  split.
  - intros st. by repeat split.
  - intros st1 st2 st3 (Hd&?&?&?&?&?&?&?) (Hd'&?&?&?&?&?&?&?).
    split; [by etrans|]. repeat split; congruence.
Qed.

Section RegistrationSteps.

Variable sha256 : list byte → string.

Lemma calculate_file_hash_same_but_backups path st :
  same_but_backups st (_calculate_file_hash sha256 path st).2.
Proof.
  unfold _calculate_file_hash.
  destruct (read_file st path); by repeat split.
Qed.

Lemma find_same_hash_same_but_backups n h fs :
  ∀ st, same_but_backups st (find_same_hash sha256 n h fs st).2.
Proof.
  induction fs as [|f fs IH]; intros st; simpl; [reflexivity|].
  pose proof (calculate_file_hash_same_but_backups (backup_path f) st) as H1.
  destruct (_calculate_file_hash sha256 (backup_path f) st) as [h' st1].
  simpl in H1. case_decide; simpl.
  - etrans; [exact H1|]. by repeat split.
  - etrans; [exact H1|apply IH].
Qed.

(** [_create_backup] changes the backup directory and the output, and
    nothing else. *)
Lemma create_backup_same_but_backups n path st :
  same_but_backups st (_create_backup sha256 n path st).2.
Proof.
  unfold _create_backup.
  pose proof (calculate_file_hash_same_but_backups path st) as H1.
  destruct (_calculate_file_hash sha256 path st) as [h st1]. simpl in H1.
  case_decide; [done|].
  pose proof (find_same_hash_same_but_backups n h (backup_files st1 n) st1)
    as H2.
  destruct (find_same_hash sha256 n h (backup_files st1 n) st1)
    as [[p|] st2]; simpl in *; [by etrans|].
  destruct (read_file st2 path) as [s|]; simpl.
  - etrans; [exact H1|]. etrans; [exact H2|].
    rewrite write_file_backup_path. by repeat split.
  - etrans; [exact H1|]. etrans; [exact H2|]. by repeat split.
Qed.

End RegistrationSteps.

(** One induction-free walk through [register_module] serves every relation
    between the state before and the state after that its steps respect. *)
Section RegistrationInvariant.

Variable sha256 : list byte → string.
Variable n : string.
Variable R : relation state.
Context `{!PreOrder R}.

Hypothesis R_print : ∀ m st, R st (print m st).
Hypothesis R_paths : ∀ path st,
  R st (set_sys_path (λ l, l ++ [path])
          (set_module_path (insert n path) st)).
Hypothesis R_exec : ∀ path st, R st (exec_from_path n path st).2.
Hypothesis R_backup : ∀ path st, R st (_create_backup sha256 n path st).2.
Hypothesis R_sys_delete : ∀ st, R st (set_sys_modules (delete n) st).
Hypothesis R_sys_insert : ∀ m st, R st (set_sys_modules (insert n m) st).
Hypothesis R_import : ∀ st, R st (import_module n st).2.
Hypothesis R_load : ∀ st, R st (_load_from_backup n st).2.
Hypothesis R_store : ∀ m st,
  _loaded_modules st !! n = None → R st (store_module n m st).

Lemma register_loaded_rel st : result_after (R st) (register_loaded n st).
Proof.
  unfold register_loaded.
  destruct (_loaded_modules st !! n) eqn:Hn; [simpl; reflexivity|].
  pose proof (R_import st) as H1.
  pose proof (import_module_same_dicts n st) as (Hl & _).
  destruct (import_module n st) as [[e|m] st1]; simpl in *.
  - destruct e; simpl; try exact H1.
    pose proof (R_load (print (MsgRegisterError n) st1)) as H2.
    pose proof (load_from_backup_same_dicts n
                  (print (MsgRegisterError n) st1)) as (Hl2 & _).
    destruct (_load_from_backup n _) as [[b|] st3]; simpl in *.
    + etrans; [exact H1|]. etrans; [apply R_print|].
      etrans; [exact H2|]. etrans; [apply R_store|apply R_print].
      by rewrite Hl2, Hl.
    + etrans; [exact H1|]. etrans; [apply R_print|].
      etrans; [exact H2|]. apply R_print.
  - etrans; [exact H1|]. etrans; [apply R_store|apply R_print].
    by rewrite Hl.
Qed.

Lemma custom_path_fallback_rel st :
  result_after (R st) (custom_path_fallback n st).
Proof.
  unfold custom_path_fallback.
  pose proof (R_load (print MsgCustomPathError st)) as H2.
  destruct (_load_from_backup n _) as [[b|] st2]; simpl in *.
  - eapply result_after_trans; [apply _| |apply register_loaded_rel].
    etrans; [apply R_print|]. etrans; [exact H2|]. apply R_sys_insert.
  - etrans; [apply R_print|]. etrans; [exact H2|]. apply R_print.
Qed.

Lemma register_module_rel custom_path use_cython st :
  result_after (R st) (register_module sha256 n custom_path use_cython st).
Proof.
  unfold register_module.
  destruct (sys_modules st !! n); [apply R_print|].
  destruct custom_path as [path|]; [|apply register_loaded_rel].
  case_decide; [|apply register_loaded_rel].
  set (st1 := set_sys_path _ _).
  assert (H1 : R st st1) by apply R_paths.
  pose proof (R_exec path st1) as H2.
  destruct (exec_from_path n path st1) as [[e|foo] st2]; simpl in H2.
  { eapply result_after_trans; [apply _| |apply custom_path_fallback_rel].
    by etrans. }
  assert (H02 : R st st2) by by etrans.
  destruct (read_file st2 path) as [s|];
    [|by eapply result_after_trans; [apply _| |apply register_loaded_rel]].
  pose proof (R_backup path st2) as H3.
  set (st3 := (_create_backup sha256 n path st2).2) in *.
  assert (H03 : R st st3) by by etrans.
  destruct (use_cython && _create_cython_version n path st3);
    [|by eapply result_after_trans; [apply _| |apply register_loaded_rel]].
  pose proof (R_import (set_sys_modules (delete n) st3)) as H4.
  assert (H04 : R st (import_module n (set_sys_modules (delete n) st3)).2).
  { etrans; [exact H03|]. etrans; [apply R_sys_delete|exact H4]. }
  destruct (import_module n _) as [[e|m] st5]; simpl in H04.
  - destruct e;
      try (by eapply result_after_trans;
             [apply _| |apply custom_path_fallback_rel]).
    eapply result_after_trans; [apply _| |apply register_loaded_rel].
    etrans; [exact H04|apply R_print].
  - eapply result_after_trans; [apply _| |apply register_loaded_rel].
    etrans; [exact H04|]. etrans; [apply R_sys_insert|apply R_print].
Qed.

End RegistrationInvariant.

Global Instance register_frame_preorder n : PreOrder (register_frame n).
Proof.
  split.
  - intros st. by repeat split.
  - intros st1 st2 st3 (Ho & Hn & Ht & Hc) (Ho' & Hn' & Ht' & Hc').
    split; [|split; [|repeat split; congruence]].
    + intros n' Hne. destruct (Ho n' Hne) as (?&?&?).
      destruct (Ho' n' Hne) as (?&?&?). repeat split; congruence.
    + intros Hsome. rewrite <- (Hn Hsome). apply Hn'. by rewrite (Hn Hsome).
Qed.

Lemma same_but_backups_register_frame n st st' :
  same_but_backups st st' → register_frame n st st'.
Proof.
  intros ((Hl & Hd & Ht & Hc) & Hp & Hs & _ & Hf & _).
  repeat split; congruence.
Qed.

Lemma print_register_frame n m st : register_frame n st (print m st).
Proof. by repeat split. Qed.

Lemma paths_register_frame n path st :
  register_frame n st
    (set_sys_path (λ l, l ++ [path]) (set_module_path (insert n path) st)).
Proof.
  repeat split; simpl; try done. by rewrite lookup_insert_ne.
Qed.

Lemma sys_insert_register_frame n m st :
  register_frame n st (set_sys_modules (insert n m) st).
Proof. by repeat split. Qed.

Lemma sys_delete_register_frame n st :
  register_frame n st (set_sys_modules (delete n) st).
Proof. by repeat split. Qed.

Lemma exec_from_path_register_frame n path st :
  register_frame n st (exec_from_path n path st).2.
Proof.
  unfold exec_from_path.
  destruct (read_file st path) as [s|]; [destruct (src_raises s)|]; simpl;
    apply sys_insert_register_frame.
Qed.

Lemma import_module_register_frame n st :
  register_frame n st (import_module n st).2.
Proof.
  unfold import_module. destruct (sys_modules st !! n); [reflexivity|].
  destruct (finder st !! n) as [s|]; [|reflexivity].
  destruct (src_raises s); [reflexivity|]. apply sys_insert_register_frame.
Qed.

Lemma load_from_backup_register_frame n st :
  register_frame n st (_load_from_backup n st).2.
Proof.
  unfold _load_from_backup.
  destruct (latest_backup (backup_files st n)) as [f|];
    [|apply print_register_frame].
  destruct (read_file _ _) as [s|]; [destruct (src_raises s)|]; simpl;
    try (etrans; apply print_register_frame); apply print_register_frame.
Qed.

Lemma store_module_register_frame n m st :
  _loaded_modules st !! n = None → register_frame n st (store_module n m st).
Proof.
  intros Hn. unfold store_module. simpl.
  destruct (sys_modules st !! n); repeat split; simpl; try done;
    rewrite ?lookup_insert_ne by done; try done;
    intros [? ?]; congruence.
Qed.

Global Instance same_files_preorder : PreOrder same_files.
Proof.
  split; unfold same_files; [by intros st|].
  intros st1 st2 st3 ? ?. congruence.
Qed.



Lemma backup_files_frame st st' n :
  backups st' = backups st → backup_files st' n = backup_files st n.
Proof. unfold backup_files. by intros ->. Qed.

Lemma load_from_backup_none n st :
  backup_files st n = [] →
  _load_from_backup n st = (None, print (MsgNoBackupFiles n) st).
Proof. intros H. unfold _load_from_backup. by rewrite H. Qed.

Lemma load_from_backup_some n st latest b :
  latest_backup (backup_files st n) = Some latest →
  backups st !! latest = Some b → src_raises b = None →
  _load_from_backup n st
  = (Some (PyModule n (src_dict b)), print (MsgLoadingBackup n latest) st).
Proof.
  intros Hl Hb Hok. unfold _load_from_backup. rewrite Hl.
  rewrite read_file_backup_path. simpl. by rewrite Hb, Hok.
Qed.

Section RegistrationOutcomes.

Variable sha256 : list byte → string.

(** The handle of a name that [register_loaded] registers is in
    [sys.modules]. *)
Lemma register_loaded_sys n st :
  _loaded_modules st !! n = None →
  result_after (λ st', is_Some (_loaded_modules st' !! n) →
                       is_Some (sys_modules st' !! n))
               (register_loaded n st).
Proof.
  intros Hn. unfold register_loaded. rewrite Hn.
  pose proof (import_module_same_dicts n st) as (Hl & _).
  destruct (import_module n st) as [[e|m] st1]; simpl in *.
  - assert (Hnone : is_Some (_loaded_modules st1 !! n) →
                    is_Some (sys_modules st1 !! n)).
    { rewrite Hl, Hn. by intros [? ?]. }
    destruct e; simpl; try exact Hnone.
    pose proof (load_from_backup_same_dicts n
                  (print (MsgRegisterError n) st1)) as (Hl2 & _).
    destruct (_load_from_backup n _) as [[b|] st3]; simpl in *.
    + intros _. unfold store_module. simpl.
      destruct (sys_modules st3 !! n) eqn:Hs; simpl; [by rewrite Hs|].
      by rewrite lookup_insert_eq.
    + rewrite Hl2, Hl, Hn. by intros [? ?].
  - intros _. unfold store_module. simpl.
    destruct (sys_modules st1 !! n) eqn:Hs; simpl; [by rewrite Hs|].
    by rewrite lookup_insert_eq.
Qed.

Lemma custom_path_fallback_sys n st :
  _loaded_modules st !! n = None →
  result_after (λ st', is_Some (_loaded_modules st' !! n) →
                       is_Some (sys_modules st' !! n))
               (custom_path_fallback n st).
Proof.
  intros Hn. unfold custom_path_fallback.
  pose proof (load_from_backup_same_dicts n (print MsgCustomPathError st))
    as (Hl & _).
  destruct (_load_from_backup n _) as [[b|] st2]; simpl in *.
  - apply register_loaded_sys. simpl. by rewrite Hl.
  - rewrite Hl, Hn. by intros [? ?].
Qed.

Lemma register_module_sys n custom_path use_cython st :
  _loaded_modules st !! n = None →
  result_after (λ st', is_Some (_loaded_modules st' !! n) →
                       is_Some (sys_modules st' !! n))
               (register_module sha256 n custom_path use_cython st).
Proof.
  intros Hn. unfold register_module.
  destruct (sys_modules st !! n); [simpl; rewrite Hn; by intros [? ?]|].
  destruct custom_path as [path|]; [|by apply register_loaded_sys].
  case_decide; [|by apply register_loaded_sys].
  set (st1 := set_sys_path _ _).
  pose proof (exec_from_path_same_dicts n path st1) as (Hl2 & _).
  destruct (exec_from_path n path st1) as [[e|foo] st2]; simpl in Hl2;
    [by apply custom_path_fallback_sys; rewrite Hl2|].
  destruct (read_file st2 path) as [s|];
    [|by apply register_loaded_sys; rewrite Hl2].
  pose proof (create_backup_same_dicts sha256 n path st2) as (Hl3 & _).
  set (st3 := (_create_backup sha256 n path st2).2) in *.
  destruct (use_cython && _create_cython_version n path st3);
    [|by apply register_loaded_sys; rewrite Hl3, Hl2].
  pose proof (import_module_same_dicts n (set_sys_modules (delete n) st3))
    as (Hl5 & _).
  destruct (import_module n _) as [[e|m] st5]; simpl in Hl5.
  - destruct e;
      try (by apply custom_path_fallback_sys; rewrite Hl5, Hl3, Hl2).
    apply register_loaded_sys. simpl. by rewrite Hl5, Hl3, Hl2.
  - apply register_loaded_sys. simpl. by rewrite Hl5, Hl3, Hl2.
Qed.

(** X10. [register_module] is not idempotent.  Once a call of it has
    registered a name, every later call for that name, with whatever path
    and option, raises [TypeError] ([importlib.reload] is handed the name
    instead of the module) and changes nothing but the output. *)
Theorem register_module_twice_raises
    n custom_path use_cython custom_path' use_cython' st st' :
  _loaded_modules st !! n = None →
  ends_in (register_module sha256 n custom_path use_cython st) st' →
  is_Some (_loaded_modules st' !! n) →
  register_module sha256 n custom_path' use_cython' st'
  = Raised TypeError (print (MsgAlreadyRegistered n) st').
Proof.
  intros Hn Hend Hreg.
  pose proof (register_module_sys n custom_path use_cython st Hn) as Hsys.
  assert (is_Some (sys_modules st' !! n)) as [m Hm].
  { destruct Hend as [He|[e He]]; rewrite He in Hsys; by apply Hsys. }
  unfold register_module. by rewrite Hm.
Qed.

Hypothesis sha256_nonempty : ∀ b, sha256 b ≠ "".

(** X11. Registration from a source that loads, without the Cython
    option.  For a name that is neither registered nor in [sys.modules] and
    the path of a Python source file that is not on [sys.path] yet, whose
    file runs to its end, [register_module] called without the Cython option
    returns and reports success: the module loaded from the path is the
    handle of the name and its entry in [sys.modules], its scanned
    dependencies are recorded, the path is recorded for the name and
    appended to [sys.path], and the backup directory holds a backup with the
    hash of the source. *)
Theorem register_module_from_source n path s st :
  _loaded_modules st !! n = None →
  sys_modules st !! n = None →
  path ≠ "" → path ∉ sys_path st → python_source path →
  read_file st path = Some s → src_raises s = None →
  let foo := PyModule n (src_dict s) in
  ∃ st', register_module sha256 n (Some path) false st = Done st'
         ∧ _loaded_modules st' !! n = Some foo
         ∧ _module_dependencies st' !! n = Some (_get_module_dependencies foo)
         ∧ sys_modules st' !! n = Some foo
         ∧ module_path st' !! n = Some path
         ∧ sys_path st' = sys_path st ++ [path]
         ∧ (∃ f, is_record sha256 st' n (sha256 (src_bytes s)) f)
         ∧ last (stdout st') = Some (MsgRegistered n).
Proof.
  intros Hn Hsys Hpath Hnew _ Hread Hok foo.
  unfold register_module. rewrite Hsys. rewrite decide_True by done.
  set (st1 := set_sys_path _ _).
  unfold exec_from_path. rewrite (read_file_frame st st1) by done.
  rewrite Hread, Hok. fold foo.
  set (st2 := set_sys_modules (insert n foo) st1).
  assert (Hread2 : read_file st2 path = Some s)
    by by rewrite (read_file_frame st st2).
  rewrite Hread2. simpl andb. cbv iota.
  pose proof (create_backup_same_but_backups sha256 n path st2)
    as ((Hl & Hd & Ht & Hc) & Hp & Hs & Hsp & _).
  destruct (create_backup_post sha256 sha256_nonempty n path s st2 Hread2)
    as (_ & f & _ & Hrec & _).
  set (st3 := (_create_backup sha256 n path st2).2) in *.
  unfold register_loaded. rewrite Hl. simpl. rewrite Hn.
  unfold import_module. rewrite Hs. simpl. rewrite lookup_insert_eq.
  eexists. split; [reflexivity|].
  unfold store_module. simpl. rewrite Hs. simpl. rewrite lookup_insert_eq.
  simpl. rewrite !lookup_insert_eq, Hs, Hp, Hsp. simpl.
  rewrite !lookup_insert_eq. repeat split; try done.
  - exists f. by apply (is_record_backups sha256 st3).
  - by rewrite last_snoc.
Qed.

(** X12. Registration from a source that fails, without a backup.  When
    the file at the path of a Python source file cannot be read or raises,
    and the backup directory holds no backup of the name, [register_module]
    returns after reporting the double failure and registers nothing.  It
    does leave a trace: the path is recorded and the partly executed module
    is in [sys.modules], so that a second attempt for the name raises
    [TypeError] instead of loading the source again. *)
Theorem register_module_failure_blocks_retry
    n path use_cython custom_path' use_cython' st :
  sys_modules st !! n = None →
  path ≠ "" → path ∉ sys_path st → python_source path →
  (∀ s, read_file st path = Some s → is_Some (src_raises s)) →
  backup_files st n = [] →
  ∃ st', register_module sha256 n (Some path) use_cython st = Done st'
         ∧ _loaded_modules st' = _loaded_modules st
         ∧ _module_dependencies st' = _module_dependencies st
         ∧ is_Some (sys_modules st' !! n)
         ∧ module_path st' !! n = Some path
         ∧ stdout st' = stdout st ++ [MsgCustomPathError; MsgNoBackupFiles n;
                                      MsgBothFailed n]
         ∧ register_module sha256 n custom_path' use_cython' st'
           = Raised TypeError (print (MsgAlreadyRegistered n) st').
Proof.
  intros Hsys Hpath Hnew _ Hfail Hnone.
  unfold register_module at 1. rewrite Hsys. rewrite decide_True by done.
  set (st1 := set_sys_path _ _).
  assert (∃ e m, exec_from_path n path st1
                 = (inl e, set_sys_modules (insert n m) st1))
    as (e & m & ->).
  { unfold exec_from_path. rewrite (read_file_frame st st1) by done.
    destruct (read_file st path) as [s|] eqn:Hread; [|by eauto].
    destruct (Hfail s eq_refl) as [e ->]. by eauto. }
  unfold custom_path_fallback.
  rewrite load_from_backup_none by done.
  eexists. split; [reflexivity|]. simpl.
  rewrite !lookup_insert_eq. repeat split; eauto.
  - by rewrite <- !app_assoc.
  - unfold register_module. simpl. by rewrite lookup_insert_eq.
Qed.

(** X13. Registration from a source that fails, with a backup.  When the
    file at the path cannot be read or raises, and the latest backup of the
    name runs to its end, [register_module] registers the module loaded
    from that backup: it is the handle of the name and its entry in
    [sys.modules], and its scanned dependencies are recorded. *)
Theorem register_module_falls_back_to_backup
    n path use_cython latest b st :
  _loaded_modules st !! n = None →
  sys_modules st !! n = None →
  path ≠ "" → path ∉ sys_path st →
  (∀ s, read_file st path = Some s → is_Some (src_raises s)) →
  latest_backup (backup_files st n) = Some latest →
  backups st !! latest = Some b → src_raises b = None →
  let backup_module := PyModule n (src_dict b) in
  ∃ st', register_module sha256 n (Some path) use_cython st = Done st'
         ∧ _loaded_modules st' !! n = Some backup_module
         ∧ _module_dependencies st' !! n
           = Some (_get_module_dependencies backup_module)
         ∧ sys_modules st' !! n = Some backup_module
         ∧ stdout st' = stdout st ++ [MsgCustomPathError;
                                      MsgLoadingBackup n latest;
                                      MsgRegistered n].
Proof.
  intros Hn Hsys Hpath Hnew Hfail Hlatest Hb Hok backup_module.
  unfold register_module. rewrite Hsys. rewrite decide_True by done.
  set (st1 := set_sys_path _ _).
  assert (∃ e m, exec_from_path n path st1
                 = (inl e, set_sys_modules (insert n m) st1))
    as (e & m & ->).
  { unfold exec_from_path. rewrite (read_file_frame st st1) by done.
    destruct (read_file st path) as [s|] eqn:Hread; [|by eauto].
    destruct (Hfail s eq_refl) as [e ->]. by eauto. }
  unfold custom_path_fallback.
  rewrite (load_from_backup_some n _ latest b) by done.
  fold backup_module. unfold register_loaded. simpl. rewrite Hn.
  unfold import_module. simpl. rewrite lookup_insert_eq.
  eexists. split; [reflexivity|].
  unfold store_module. simpl. rewrite lookup_insert_eq. simpl.
  rewrite !lookup_insert_eq. repeat split; try done.
  by rewrite <- !app_assoc.
Qed.

End RegistrationOutcomes.

Lemma register_module_twice_raises_witness :
  register_module toy_hash "calc" (Some "calc.py") true calc_state
  = Raised TypeError (print (MsgAlreadyRegistered "calc") calc_state).
Proof.
  apply (register_module_twice_raises toy_hash "calc" (Some "calc.py") false
           (Some "calc.py") true fresh_store calc_state).
  - vm_compute. reflexivity.
  - left. vm_compute. reflexivity.
  - apply (bool_decide_unpack _). vm_compute. exact I.
Defined.

Lemma register_module_from_source_witness :
  ∃ st', register_module toy_hash "calc" (Some "calc.py") false fresh_store
         = Done st'
         ∧ _loaded_modules st' !! "calc"
           = Some (PyModule "calc" (src_dict calc_v1))
         ∧ _module_dependencies st' !! "calc"
           = Some (_get_module_dependencies
                     (PyModule "calc" (src_dict calc_v1)))
         ∧ sys_modules st' !! "calc"
           = Some (PyModule "calc" (src_dict calc_v1))
         ∧ module_path st' !! "calc" = Some "calc.py"
         ∧ sys_path st' = sys_path fresh_store ++ ["calc.py"]
         ∧ (∃ f, is_record toy_hash st' "calc"
                   (toy_hash (src_bytes calc_v1)) f)
         ∧ last (stdout st') = Some (MsgRegistered "calc").
Proof.
  apply (register_module_from_source toy_hash toy_hash_nonempty
           "calc" "calc.py" calc_v1 fresh_store).
  - vm_compute. reflexivity.
  - vm_compute. reflexivity.
  - discriminate.
  - apply (bool_decide_unpack _). vm_compute. exact I.
  - reflexivity.
  - vm_compute. reflexivity.
  - reflexivity.
Defined.

Lemma register_module_failure_blocks_retry_witness :
  ∃ st', register_module toy_hash "calc" (Some "calc.py") false broken_store
         = Done st'
         ∧ _loaded_modules st' = _loaded_modules broken_store
         ∧ _module_dependencies st' = _module_dependencies broken_store
         ∧ is_Some (sys_modules st' !! "calc")
         ∧ module_path st' !! "calc" = Some "calc.py"
         ∧ stdout st' = stdout broken_store
                        ++ [MsgCustomPathError; MsgNoBackupFiles "calc";
                            MsgBothFailed "calc"]
         ∧ register_module toy_hash "calc" (Some "calc.py") false st'
           = Raised TypeError (print (MsgAlreadyRegistered "calc") st').
Proof.
  apply (register_module_failure_blocks_retry toy_hash "calc" "calc.py" false
           (Some "calc.py") false broken_store).
  - vm_compute. reflexivity.
  - discriminate.
  - apply (bool_decide_unpack _). vm_compute. exact I.
  - reflexivity.
  - intros s Hs. vm_compute in Hs. injection Hs as <-. by eexists.
  - vm_compute. reflexivity.
Defined.

Lemma register_module_falls_back_to_backup_witness :
  ∃ st', register_module toy_hash "calc" (Some "calc.py") false
           broken_store_with_backup = Done st'
         ∧ _loaded_modules st' !! "calc"
           = Some (PyModule "calc" (src_dict calc_v1))
         ∧ _module_dependencies st' !! "calc"
           = Some (_get_module_dependencies
                     (PyModule "calc" (src_dict calc_v1)))
         ∧ sys_modules st' !! "calc"
           = Some (PyModule "calc" (src_dict calc_v1))
         ∧ stdout st'
           = stdout broken_store_with_backup
             ++ [MsgCustomPathError;
                 MsgLoadingBackup "calc" "calc_20240101_000000.py";
                 MsgRegistered "calc"].
Proof.
  apply (register_module_falls_back_to_backup toy_hash "calc" "calc.py" false
           "calc_20240101_000000.py" calc_v1 broken_store_with_backup).
  - vm_compute. reflexivity.
  - vm_compute. reflexivity.
  - discriminate.
  - apply (bool_decide_unpack _). vm_compute. exact I.
  - intros s Hs. vm_compute in Hs. injection Hs as <-. by eexists.
  - vm_compute. reflexivity.
  - vm_compute. reflexivity.
  - reflexivity.
Defined.

(** * What a reload changes, and what it leaves *)

(** ** What a reload leaves alone *)

Global Instance same_entry_preorder x : PreOrder (same_entry x).
Proof.
  split.
  - by intros st.
  - intros st1 st2 st3 ((?&?&?&?)&H12) ((?&?&?&?)&H23).
    unfold same_entry, same_records. split_and!; try congruence.
    intros Hsome. rewrite <- (H12 Hsome). apply H23. by rewrite (H12 Hsome).
Qed.

Lemma kill_thread_same_entry x n st :
  x ≠ n → same_entry x st (kill_thread n st).
Proof.
  intros Hx. unfold kill_thread.
  destruct (_module_threads st !! n) as [th|]; [|done].
  destruct (stop th). unfold same_entry, same_records.
  split_and!; simpl; [done..| |done|done].
  by rewrite lookup_delete_ne.
Qed.

Lemma kill_existing_threads_same_entry x n st :
  x ≠ n → same_entry x st (kill_existing_threads n st).
Proof.
  intros Hx. unfold kill_existing_threads.
  destruct (_module_threads st !! n); [|done].
  etrans; [|by apply kill_thread_same_entry]. done.
Qed.

Lemma exec_from_path_same_entry x n path st :
  x ≠ n → same_entry x st (exec_from_path n path st).2.
Proof.
  intros Hx. unfold exec_from_path.
  destruct (read_file st path) as [s|]; [destruct (src_raises s)|];
    unfold same_entry, same_records;
    split_and!; simpl; try done; by rewrite lookup_insert_ne.
Qed.

Lemma reloaded_same_entry x n s st :
  x ≠ n → same_entry x st (reloaded n s st).
Proof.
  intros Hx. etrans; [by apply (kill_existing_threads_same_entry x n)|].
  unfold reloaded, same_entry, same_records.
  split_and!; simpl; try done; by rewrite lookup_insert_ne.
Qed.

Lemma start_module_thread_body_same_entry x n f args kw st :
  x ≠ n → same_entry x st (start_module_thread_body n f args kw st).
Proof.
  intros Hx. unfold start_module_thread_body.
  destruct (_loaded_modules st !! n) as [m|]; [|done].
  destruct (getattr m f) as [a|]; [|done].
  destruct (new a args kw) as [th|]; [|done].
  destruct (start th). unfold same_entry, same_records.
  split_and!; simpl; try done; by rewrite lookup_insert_ne.
Qed.

Lemma finish_reload_same_entry x n cfg r st :
  x ≠ n → result_after (same_entry x st) r →
  result_after (same_entry x st) (finish_reload n cfg r).
Proof.
  intros Hx. destruct r as [st5| |]; simpl; try done. intros H5.
  assert (H6 : same_entry x st (print (MsgReloaded n) st5))
    by (etrans; [exact H5|done]).
  destruct cfg as [cfg|]; simpl; [|done].
  assert (H7 : same_entry x st
                 (print (MsgRestarting n) (print (MsgReloaded n) st5)))
    by (etrans; [exact H6|done]).
  unfold restart_module_thread, start_module_thread.
  destruct (cfg_args cfg); simpl; [|done].
  case_decide; simpl; [done|].
  etrans; [exact H7|].
  by apply (start_module_thread_body_same_entry x n).
Qed.

(** The part of [finish_reload] that is left of a state: the registry, the
    dependencies and [sys.modules]. *)
Lemma finish_reload_Done_modules n cfg st5 st' :
  finish_reload n cfg (Done st5) = Done st' →
  _loaded_modules st' = _loaded_modules st5
  ∧ _module_dependencies st' = _module_dependencies st5
  ∧ sys_modules st' = sys_modules st5.
Proof.
  simpl. destruct cfg as [cfg|]; [|by intros [= <-]].
  unfold restart_module_thread, start_module_thread.
  destruct (cfg_args cfg); [|done]. case_decide; [done|].
  intros [= <-]. unfold start_module_thread_body.
  destruct (_loaded_modules _ !! n) as [m|]; [|done].
  destruct (getattr m (cfg_target_function cfg)) as [a|]; [|done].
  destruct (new a [] (cfg_kwargs cfg)) as [th|]; [|done].
  by destruct (start th).
Qed.

Lemma reload_dependencies_same_entry reload deps x st0 :
  (∀ d st, result_after (same_sources st) (reload d st)) →
  (∀ d st, d ∈ deps → same_sources st0 st →
           is_Some (_loaded_modules st !! d) →
           result_after (same_entry x st) (reload d st)) →
  ∀ st, same_sources st0 st →
        result_after (same_entry x st) (reload_dependencies reload deps st).
Proof.
  intros Hsame. induction deps as [|d deps IH]; intros Hkeep st Hst; simpl;
    [done|].
  assert (Hrest : ∀ st1, same_sources st0 st1 →
            result_after (same_entry x st1)
              (reload_dependencies reload deps st1)).
  { apply IH. intros d' st' Hd'. apply Hkeep. by apply list_elem_of_further. }
  destruct (_loaded_modules st !! d) as [m|] eqn:Hd; [|by apply Hrest].
  pose proof (Hkeep d st (list_elem_of_here _ _) Hst (mk_is_Some _ _ Hd))
    as Hk.
  pose proof (Hsame d st) as Hs.
  destruct (reload d st) as [st1| |]; simpl in *; try done.
  apply (result_after_trans (same_entry x) st st1); [done|].
  apply Hrest. by etrans.
Qed.

(** A reload that fails before the cascade: what it leaves. *)
Lemma reload_module_not_loadable_state fuel n st :
  is_Some (_loaded_modules st !! n) → source_of st n = None →
  ∃ e st', reload_module (S fuel) n st = Raised e st'
           ∧ ∀ x, x ≠ n → same_entry x st st'.
Proof.
  intros [m Hn] Hs. simpl. rewrite Hn.
  pose proof (kill_existing_threads_same_sources n st) as Hk.
  destruct (Hk) as (_ & _ & Hp & _). rewrite Hp.
  unfold source_of in Hs.
  destruct (module_path st !! n) as [path|].
  - pose proof (λ x, exec_from_path_same_entry x n path
                       (kill_existing_threads n st)) as He.
    assert (Hx : ∃ e, (exec_from_path n path (kill_existing_threads n st)).1
                      = inl e).
    { unfold exec_from_path. rewrite (same_sources_read_file st) by done.
      destruct (read_file st path) as [s'|]; [|by eauto].
      destruct (src_raises s'); [by eauto|done]. }
    destruct Hx as [e Hx].
    destruct (exec_from_path n path (kill_existing_threads n st))
      as [[e'|foo] st2]; simpl in *; [|done].
    exists e', st2. split; [done|]. intros x Hne.
    etrans; [by apply (kill_existing_threads_same_entry x n)|by apply He].
  - exists KeyError, (kill_existing_threads n st). split; [done|].
    intros x Hne. by apply kill_existing_threads_same_entry.
Qed.

(** A module that cannot be reached from [n] in the graph of the cascade
    keeps its entries through a reload of [n]. *)
Lemma reload_module_same_entry fuel :
  ∀ n x st, ¬ rtc (dep_edge st) n x →
            result_after (same_entry x st) (reload_module fuel n st).
Proof.
  induction fuel as [|fuel IH]; intros n x st Hx; [done|].
  assert (Hne : x ≠ n) by (intros ->; by apply Hx).
  destruct (_loaded_modules st !! n) as [m|] eqn:Hn.
  2: { by rewrite reload_module_unregistered. }
  destruct (source_of st n) as [s|] eqn:Hs.
  - rewrite (reload_module_loadable fuel n st s) by eauto.
    apply finish_reload_same_entry; [done|].
    apply (result_after_trans (same_entry x) st (reloaded n s st));
      [by apply reloaded_same_entry|].
    apply (reload_dependencies_same_entry (reload_module fuel) _ x
             (reloaded n s st)); [apply reload_module_same_sources| |done].
    intros d st1 Hd H1 Hreg. apply IH.
    assert (H01 : same_sources st st1).
    { etrans; [apply (reloaded_same_sources n s); eauto|done]. }
    intros Hdx. apply Hx. apply (rtc_l _ _ d).
    + split; [by eauto|]. split.
      * by apply (same_sources_registered st st1).
      * unfold dependencies_of. by rewrite Hs.
    + eapply rtc_subrel; [|exact Hdx].
      intros a b. by apply (same_sources_dep_edge st st1).
  - destruct (reload_module_not_loadable_state fuel n st) as (e & st' & -> & H);
      [by eauto|done|].
    by apply H.
Qed.

(** X14. In the dictionaries of the reloader a reload of [n] touches the
    entries of the modules the cascade can reach from [n], and no others: a
    name [x] that cannot be reached from [n] along the scanned dependencies
    of registered modules has, after the call, the handle, the dependency
    set, the worker and the configuration it had before, whether the call
    returns or raises. *)
Theorem reload_module_leaves_unreachable fuel n x st st' :
  ¬ rtc (dep_edge st) n x →
  ends_in (reload_module fuel n st) st' →
  same_records x st st'.
Proof.
  intros Hx Hr. pose proof (reload_module_same_entry fuel n x st Hx) as H.
  destruct Hr as [Hr|[e Hr]]; rewrite Hr in H; by destruct H as [H _].
Qed.

Lemma reload_module_leaves_unreachable_witness :
  same_records "b" ab_state
    (state_of (reload_module 1 "a" ab_state) empty_env).
Proof.
  apply (reload_module_leaves_unreachable 1 "a" "b" ab_state).
  - intros H. apply rtc_inv in H as [H|(y & (_ & _ & Hy) & _)];
      [discriminate|].
    vm_compute in Hy. by apply elem_of_nil in Hy.
  - left. vm_compute. reflexivity.
Defined.

(** The cascade of a reload that returns leaves the entries of the
    reloaded module as the reload made them. *)
Lemma reload_module_Done_cascade fuel n st st' :
  is_Some (_loaded_modules st !! n) →
  reload_module (S fuel) n st = Done st' →
  ∃ s st5,
    source_of st n = Some s
    ∧ finish_reload n (_thread_configs st !! n) (Done st5) = Done st'
    ∧ same_entry n (reloaded n s st) st5.
Proof.
  intros Hn Hr.
  pose proof (reload_module_Done_acyclic (S fuel) n st st' Hr) as Hacyc.
  destruct (reload_module_Done_inv fuel n st st' Hn Hr)
    as (s & st5 & Hs & Hc & Hf).
  exists s, st5. split; [done|]. split; [done|].
  pose proof (reloaded_same_sources n s st Hn) as H4.
  assert (Hdeps : ∀ d st1,
            d ∈ _get_module_dependencies (PyModule n (src_dict s)) →
            same_sources (reloaded n s st) st1 →
            is_Some (_loaded_modules st1 !! d) →
            result_after (same_entry n st1) (reload_module fuel d st1)).
  { intros d st1 Hd H1 Hreg. apply reload_module_same_entry.
    intros Hdn. apply Hacyc. exists n. split; [done|].
    assert (H01 : same_sources st st1) by by etrans.
    apply (tc_rtc_r _ d).
    - apply tc_once. split; [done|]. split.
      + by apply (same_sources_registered st st1).
      + unfold dependencies_of. by rewrite Hs.
    - eapply rtc_subrel; [|exact Hdn].
      intros a b. by apply (same_sources_dep_edge st st1). }
  pose proof (reload_dependencies_same_entry (reload_module fuel)
                (_get_module_dependencies (PyModule n (src_dict s))) n
                (reloaded n s st) (reload_module_same_sources fuel) Hdeps
                (reloaded n s st)) as Hk.
  rewrite Hc in Hk. by apply Hk.
Qed.

(** X15. A reload of a registered module that returns has replaced its
    handle: the registry and [sys.modules] hold the module object made from
    the source at the registered path, and the recorded dependencies are
    the ones scanned from that object, whatever the cascade and the restart
    of a worker did afterwards. *)
Theorem reload_module_replaces_handle fuel n st st' :
  is_Some (_loaded_modules st !! n) →
  reload_module fuel n st = Done st' →
  ∃ s, source_of st n = Some s
       ∧ _loaded_modules st' !! n = Some (PyModule n (src_dict s))
       ∧ _module_dependencies st' !! n
         = Some (_get_module_dependencies (PyModule n (src_dict s)))
       ∧ sys_modules st' !! n = Some (PyModule n (src_dict s))
       ∧ dom (_loaded_modules st') = dom (_loaded_modules st).
Proof.
  intros Hn Hr.
  pose proof (reload_module_same_sources fuel n st) as Hsame.
  rewrite Hr in Hsame. simpl in Hsame.
  destruct fuel as [|fuel]; [done|].
  destruct (reload_module_Done_cascade fuel n st st' Hn Hr)
    as (s & st5 & Hs & Hf & (Hl & Hd & _ & _) & Hsys).
  exists s. split; [done|].
  destruct (finish_reload_Done_modules n _ st5 st' Hf) as (E1 & E2 & E3).
  destruct Hsame as (_ & _ & _ & Hdom). rewrite E1 in Hdom.
  rewrite E1, E2, E3, Hl, Hd, Hsys.
  - unfold reloaded. simpl. by rewrite !lookup_insert_eq.
  - unfold reloaded. simpl. rewrite lookup_insert_eq. by eauto.
Qed.

Lemma reload_module_replaces_handle_witness :
  ∃ s, source_of edited_worker_state "calc" = Some s
       ∧ _loaded_modules
           (state_of (reload_module 1 "calc" edited_worker_state) empty_env)
         !! "calc" = Some (PyModule "calc" (src_dict s))
       ∧ _module_dependencies
           (state_of (reload_module 1 "calc" edited_worker_state) empty_env)
         !! "calc"
         = Some (_get_module_dependencies (PyModule "calc" (src_dict s)))
       ∧ sys_modules
           (state_of (reload_module 1 "calc" edited_worker_state) empty_env)
         !! "calc" = Some (PyModule "calc" (src_dict s))
       ∧ dom (_loaded_modules
                (state_of (reload_module 1 "calc" edited_worker_state)
                   empty_env))
         = dom (_loaded_modules edited_worker_state).
Proof.
  apply (reload_module_replaces_handle 1 "calc" edited_worker_state).
  - apply (bool_decide_unpack _). vm_compute. exact I.
  - vm_compute. reflexivity.
Defined.

(** ** A reload after the worker was killed *)

Lemma same_sources_acyclic st st' :
  same_sources st st' →
  Irreflexive (tc (dep_edge st)) → Irreflexive (tc (dep_edge st')).
Proof.
  intros Hs Hirr x Hx. apply (Hirr x).
  assert (Hsub : ∀ a b, tc (dep_edge st') a b → tc (dep_edge st) a b).
  { intros a b H. induction H as [a b H|a b c H _ IH].
    - apply tc_once. by apply (same_sources_dep_edge st st').
    - eapply tc_l; [|exact IH]. by apply (same_sources_dep_edge st st'). }
  by apply Hsub.
Qed.

(** C10, as the code has it. Killing the worker of [module_name] removes it
    from [_module_threads] and leaves [_thread_configs] as it is.  In a
    well-formed state in which the source of every registered module loads
    and the modules do not import from each other in a circle, a later
    reload of the module returns, whatever depth of recursion it is given
    beyond the one it needs, and it has started a worker from the kept
    configuration, although none was running, whenever the source of the
    module still defines the attribute the configuration names. *)
Theorem kill_thread_then_reload_restarts module_name st cfg s target :
  wf st → all_loadable st → Irreflexive (tc (dep_edge st)) →
  _thread_configs st !! module_name = Some cfg →
  source_of st module_name = Some s →
  getattr (PyModule module_name (src_dict s)) (cfg_target_function cfg)
  = Some target →
  let st1 := kill_thread module_name st in
  _module_threads st1 !! module_name = None
  ∧ _thread_configs st1 = _thread_configs st
  ∧ ∃ fuel, ∀ fuel', fuel ≤ fuel' →
      ∃ st2 th,
        reload_module fuel' module_name st1 = Done st2
        ∧ _module_threads st2 !! module_name = Some th
        ∧ is_running th = true
        ∧ main_function th = target
        ∧ main_function_parameter th = delete "func_type" (cfg_kwargs cfg)
        ∧ _thread_configs st2 !! module_name = Some cfg.
Proof.
  intros Hwf Hall Hirr Hcfg Hs Htarget st1.
  destruct (kill_thread_removes module_name st) as (Hth & Hc & Hl).
  split; [done|]. split; [done|].
  pose proof (kill_thread_same_sources module_name st) as Hsame.
  fold st1 in Hth, Hc, Hl, Hsame.
  assert (Hwf1 : wf st1) by by apply kill_thread_keeps_wf.
  assert (Hall1 : all_loadable st1)
    by by apply (same_sources_all_loadable st).
  assert (Hirr1 : Irreflexive (tc (dep_edge st1)))
    by by apply (same_sources_acyclic st).
  assert (Hn1 : is_Some (_loaded_modules st1 !! module_name)).
  { rewrite Hl. apply elem_of_dom, (wf_configs st Hwf), elem_of_dom. eauto. }
  destruct (reload_module_terminates_acyclic st1 module_name Hirr1)
    as [fuel Hfuel].
  exists fuel. intros fuel' Hle. specialize (Hfuel fuel' Hle).
  destruct (reload_module fuel' module_name st1) as [st2|e st2|] eqn:Hr.
  - exists st2.
    destruct fuel' as [|k]; [done|].
    destruct (reload_module_Done_cascade k module_name st1 st2 Hn1 Hr)
      as (s' & st5 & Hs' & Hf & (H5 & _) & _).
    rewrite (same_sources_source_of st st1) in Hs' by done.
    assert (s' = s) as -> by congruence.
    destruct (finish_reload_Done_modules module_name _ st5 st2 Hf)
      as (E1 & _ & _).
    assert (Hm : _loaded_modules st2 !! module_name
                 = Some (PyModule module_name (src_dict s))).
    { rewrite E1, H5. unfold reloaded. simpl. by rewrite lookup_insert_eq. }
    destruct (reload_module_restart (S k) module_name st1 st2 cfg
                (PyModule module_name (src_dict s)) target) as (th & Hrest);
      try done.
    + by apply (wf_config_ok st Hwf module_name).
    + by rewrite Hc.
    + by exists th.
  - by destruct (reload_module_never_raises fuel' module_name st1 e st2).
  - done.
Qed.

Lemma calc_acyclic : Irreflexive (tc (dep_edge worker_state)).
Proof.
  apply (acyclic_by_rank worker_state (dependencies_of worker_state)
           (λ _, 0)).
  apply (bool_decide_unpack _). vm_compute. exact I.
Qed.

Lemma kill_thread_then_reload_restarts_witness :
  let st1 := kill_thread "calc" worker_state in
  _module_threads st1 !! "calc" = None
  ∧ _thread_configs st1 = _thread_configs worker_state
  ∧ ∃ fuel, ∀ fuel', fuel ≤ fuel' →
      ∃ st2 th,
        reload_module fuel' "calc" st1 = Done st2
        ∧ _module_threads st2 !! "calc" = Some th
        ∧ is_running th = true
        ∧ main_function th = AFunc returns_none
        ∧ main_function_parameter th
          = delete "func_type" ({[ "n" := VInt 1 ]} : gmap string value)
        ∧ _thread_configs st2 !! "calc"
          = Some (Config "tick" [] {[ "n" := VInt 1 ]}).
Proof.
  refine (kill_thread_then_reload_restarts "calc" worker_state
            (Config "tick" [] {[ "n" := VInt 1 ]}) calc_v1
            (AFunc returns_none) _ _ _ _ _ _).
  - exact worker_state_wf.
  - apply (bool_decide_unpack _). vm_compute. exact I.
  - exact calc_acyclic.
  - vm_compute. reflexivity.
  - vm_compute. reflexivity.
  - vm_compute. reflexivity.
Defined.

(** C10, the claim as it is stated, fails. The worker of [calc] was started
    and then stopped with [kill_thread], which kept its configuration; the
    source of [calc] was edited and no longer defines [tick].  The reload
    returns, and it has restarted no worker. *)
Lemma reload_module_after_kill_not_restarted :
  _module_threads edited_killed_state !! "calc" = None
  ∧ _thread_configs edited_killed_state !! "calc"
    = Some (Config "tick" [] {[ "n" := VInt 1 ]})
  ∧ ∀ fuel, 1 ≤ fuel →
      ∃ st', reload_module fuel "calc" edited_killed_state = Done st'
             ∧ _module_threads st' !! "calc" = None
             ∧ MsgFunctionNotFound "tick" "calc"
               ∈ new_output edited_killed_state st'.
Proof.
  split; [vm_compute; reflexivity|].
  split; [vm_compute; reflexivity|].
  intros fuel Hfuel. eexists. split.
  - apply (reload_module_fuel_mono 1);
      [vm_compute; reflexivity|discriminate|exact Hfuel].
  - split; [vm_compute; reflexivity|]. compute_done.
Qed.

(** ** [reload_all] *)

Lemma reload_each_rel (R : relation state) `{!PreOrder R} reload names :
  (∀ n st, result_after (R st) (reload n st)) →
  ∀ st, result_after (R st) (reload_each reload names st).
Proof.
  intros Hrel. induction names as [|n names IH]; intros st; simpl;
    [reflexivity|].
  specialize (Hrel n st). destruct (reload n st) as [st1| |]; simpl in *;
    try done.
  eapply result_after_trans; [apply _|exact Hrel|apply IH].
Qed.

Lemma reload_each_reaches reload names d :
  (∀ x s, result_after (same_sources s) (reload x s)) →
  (∀ x s, result_after (output_grows s) (reload x s)) →
  ∀ st st',
    reload_each reload names st = Done st' → d ∈ names →
    ∃ sti stj, same_sources st sti ∧ output_grows st sti
               ∧ reload d sti = Done stj ∧ output_grows stj st'.
Proof.
  intros Hsame Hout. induction names as [|d0 names IH]; intros st st' Hr Hin.
  { by apply elem_of_nil in Hin. }
  simpl in Hr.
  pose proof (Hsame d0 st) as Hs1. pose proof (Hout d0 st) as Ho1.
  destruct (reload d0 st) as [st1| |] eqn:H1; try done. simpl in *.
  destruct (decide (d = d0)) as [->|Hne].
  - exists st, st1. split; [done|]. split; [done|]. split; [done|].
    pose proof (reload_each_rel output_grows reload names Hout st1) as Hg.
    by rewrite Hr in Hg.
  - apply elem_of_cons in Hin as [?|Hin]; [done|].
    destruct (IH st1 st' Hr Hin) as (sti & stj & ? & ? & ? & ?).
    exists sti, stj. split; [by etrans|]. split; [by etrans|]. done.
Qed.

(** The cascade of a reload reports every registered dependency. *)
Lemma reload_module_cascade_reports fuel a b st st' :
  dep_edge st a b → reload_module fuel a st = Done st' →
  1 ≤ reloads_of b (new_output st st').
Proof.
  intros (Ha & Hb & Hin) Hr.
  destruct (reload_module_reports fuel a st st' Ha Hr) as [Hg _].
  destruct fuel as [|fuel]; [done|].
  destruct (reload_module_Done_inv fuel a st st' Ha Hr)
    as (s & st5 & Hs & Hc & Hf).
  unfold dependencies_of in Hin. rewrite Hs in Hin.
  pose proof (reloaded_same_sources a s st Ha) as H4.
  destruct (reload_dependencies_reaches (reload_module fuel) _ b
              (reload_module_same_sources fuel)
              (reload_module_output_grows fuel) _ _ Hc Hin)
    as (sti & stj & Hsi & Hgi & Hri & Hgj).
  { by apply (same_sources_registered st (reloaded a s st)). }
  assert (Hbi : is_Some (_loaded_modules sti !! b)).
  { apply (same_sources_registered st sti); [by etrans|done]. }
  destruct (reload_module_reports fuel b sti stj Hbi Hri) as [Hgij Hcount].
  apply finish_reload_Done in Hf.
  assert (H0i : output_grows st sti).
  { etrans; [apply (reloaded_output_grows a s)|done]. }
  assert (Hj' : output_grows stj st').
  { etrans; [exact Hgj|]. etrans; [apply print_output_grows|exact Hf]. }
  rewrite (new_output_trans st sti st') by (done || by etrans).
  rewrite (new_output_trans sti stj st') by done.
  rewrite !reloads_of_app. lia.
Qed.

(** The reloads of [a] that a loop over [names] reports are at least those
    of its rounds, [c d] for the round of [d]. *)
Lemma reload_each_counts reload names a (c : string → nat) st0 :
  (∀ x s, result_after (same_sources s) (reload x s)) →
  (∀ x s, result_after (output_grows s) (reload x s)) →
  (∀ d sti stj, d ∈ names → same_sources st0 sti →
                reload d sti = Done stj →
                c d ≤ reloads_of a (new_output sti stj)) →
  ∀ st st', same_sources st0 st → reload_each reload names st = Done st' →
            sum_list (c <$> names) ≤ reloads_of a (new_output st st').
Proof.
  intros Hsame Hout.
  induction names as [|d names IH]; intros Hc st st' Hst Hr;
    [simpl; lia|].
  simpl in Hr.
  pose proof (Hsame d st) as Hs1. pose proof (Hout d st) as Ho1.
  destruct (reload d st) as [st1| |] eqn:H1; try done.
  simpl in Hs1, Ho1.
  pose proof (Hc d st st1 (list_elem_of_here _ _) Hst H1) as Hd.
  assert (Hrest : sum_list (c <$> names)
                  ≤ reloads_of a (new_output st1 st')).
  { apply IH; [|by etrans|done].
    intros d' sti stj Hd'. apply Hc. by apply list_elem_of_further. }
  pose proof (reload_each_rel output_grows reload names Hout st1) as Hg.
  rewrite Hr in Hg. simpl in Hg.
  rewrite fmap_cons. csimpl.
  rewrite (new_output_trans st st1 st') by done.
  rewrite reloads_of_app. lia.
Qed.

Lemma sum_list_indicator (P : string → Prop) `{!∀ x, Decision (P x)} l :
  sum_list ((λ d, if decide (P d) then 1 else 0) <$> l)
  = length (filter P l).
Proof.
  induction l as [|x l IH]; [done|].
  rewrite fmap_cons, filter_cons. csimpl. rewrite IH.
  case_decide; simpl; lia.
Qed.

Lemma sum_list_add (f g : string → nat) l :
  sum_list ((λ d, f d + g d) <$> l)
  = sum_list (f <$> l) + sum_list (g <$> l).
Proof.
  induction l as [|x l IH]; [done|]. rewrite !fmap_cons. csimpl.
  rewrite IH. lia.
Qed.

Lemma elem_of_get_loaded_modules st n :
  n ∈ get_loaded_modules st ↔ is_Some (_loaded_modules st !! n).
Proof.
  unfold get_loaded_modules. rewrite list_elem_of_fmap. split.
  - intros ([n' m] & -> & Hin). apply elem_of_map_to_list in Hin. by eauto.
  - intros [m Hn]. exists (n, m). split; [done|].
    by apply elem_of_map_to_list.
Qed.

(** X16. A [reload_all] that returns has reloaded every module that was
    registered when it was called, and not once only: a module is reloaded
    in its own round of the loop and again in the round of every
    registered module whose scanned dependencies contain it.  The
    registered names are the same afterwards. *)
Theorem reload_all_reload_counts fuel st st' :
  reload_all fuel st = Done st' →
  dom (_loaded_modules st') = dom (_loaded_modules st)
  ∧ ∀ a, is_Some (_loaded_modules st !! a) →
         1 + length (filter (λ d, d ≠ a ∧ dep_edge st d a)
                       (get_loaded_modules st))
         ≤ reloads_of a (new_output st st').
Proof.
  unfold reload_all. intros Hr. split.
  { pose proof (reload_each_rel same_sources (reload_module fuel)
                  (get_loaded_modules st) (reload_module_same_sources fuel)
                  st) as Hs.
    rewrite Hr in Hs. by destruct Hs as (_ & _ & _ & ?). }
  intros a Ha.
  pose proof (reload_each_counts (reload_module fuel) (get_loaded_modules st)
                a (λ d, (if decide (d = a) then 1 else 0)
                        + (if decide (d ≠ a ∧ dep_edge st d a)
                           then 1 else 0))
                st (reload_module_same_sources fuel)
                (reload_module_output_grows fuel)) as Hcount.
  rewrite sum_list_add, !sum_list_indicator in Hcount.
  assert (Hone : 1 ≤ length (filter (λ d, d = a) (get_loaded_modules st))).
  { assert (Hin : a ∈ filter (λ d, d = a) (get_loaded_modules st)).
    { apply list_elem_of_filter. split; [done|].
      by apply elem_of_get_loaded_modules. }
    destruct (filter _ _); [by apply elem_of_nil in Hin|simpl; lia]. }
  etrans; [|apply (Hcount); [|done|exact Hr]].
  { lia. }
  intros d sti stj Hd Hsi Hri.
  apply elem_of_get_loaded_modules in Hd.
  assert (Hdi : is_Some (_loaded_modules sti !! d)).
  { by apply (same_sources_registered st sti). }
  destruct (decide (d = a)) as [->|Hne].
  - rewrite decide_False by (by intros [? _]).
    destruct (reload_module_reports fuel a sti stj Hdi Hri) as [_ H1]. lia.
  - case_decide as Hdep; [|lia]. destruct Hdep as [_ Hdep].
    pose proof (reload_module_cascade_reports fuel d a sti stj) as H1.
    simpl. apply H1; [|done]. by apply (same_sources_dep_edge st sti).
Qed.

Lemma reload_all_reload_counts_witness :
  dom (_loaded_modules (state_of (reload_all 3 diamond_state) empty_env))
  = dom (_loaded_modules diamond_state)
  ∧ ∀ a, is_Some (_loaded_modules diamond_state !! a) →
         1 + length (filter (λ d, d ≠ a ∧ dep_edge diamond_state d a)
                       (get_loaded_modules diamond_state))
         ≤ reloads_of a
             (new_output diamond_state
                (state_of (reload_all 3 diamond_state) empty_env)).
Proof.
  apply (reload_all_reload_counts 3 diamond_state).
  vm_compute. reflexivity.
Defined.

(** In the example [base] is reloaded four times by one [reload_all]: in
    its own round, twice in the round of [top] and once in that of
    [mid]. *)
Example reload_all_diamond :
  ∃ st', reload_all 3 diamond_state = Done st'
         ∧ reloads_of "base" (new_output diamond_state st') = 4.
Proof. eexists. split; vm_compute; reflexivity. Qed.

(** ** A reload that fails *)

Lemma kill_existing_threads_removes n st :
  _module_threads (kill_existing_threads n st) !! n = None
  ∧ same_sources st (kill_existing_threads n st)
  ∧ _loaded_modules (kill_existing_threads n st) = _loaded_modules st
  ∧ _module_dependencies (kill_existing_threads n st)
    = _module_dependencies st
  ∧ _thread_configs (kill_existing_threads n st) = _thread_configs st.
Proof.
  split_and!; [| apply kill_existing_threads_same_sources |..];
    unfold kill_existing_threads, kill_thread;
    destruct (_module_threads st !! n) as [th|] eqn:Hth; try done; simpl;
    rewrite Hth; destruct (stop th); simpl; try done.
  by rewrite lookup_delete_eq.
Qed.

Lemma kill_existing_threads_output n st :
  ∃ out, stdout (kill_existing_threads n st) = stdout st ++ out
         ∧ ∀ x, reloads_of x out = 0.
Proof.
  unfold kill_existing_threads, kill_thread.
  destruct (_module_threads st !! n) as [th|] eqn:Hth.
  - simpl. rewrite Hth. unfold stop. destruct (_is_running th); simpl.
    + exists [MsgKilling n; MsgThreadStopping; MsgThreadStopped; MsgKilled n].
      split; [by rewrite <- !app_assoc|]. intros x. unfold reloads_of.
      by rewrite !filter_cons_False.
    + exists [MsgKilling n; MsgThreadNotRunning; MsgKilled n].
      split; [by rewrite <- !app_assoc|]. intros x. unfold reloads_of.
      by rewrite !filter_cons_False.
  - exists []. split; [by rewrite app_nil_r|done].
Qed.

(** X17. A reload of a registered module whose source raises: the
    exception leaves [reload_module]; the registry and the recorded
    dependencies are what they were, while [sys.modules] holds the module
    object that was being executed; the worker of the module was stopped
    and is not started again, its configuration stays; nothing says that
    the module was reloaded. *)
Theorem reload_module_failed_source fuel n path s e st :
  is_Some (_loaded_modules st !! n) →
  module_path st !! n = Some path →
  read_file st path = Some s → src_raises s = Some e →
  ∃ st', reload_module (S fuel) n st = Raised e st'
         ∧ _loaded_modules st' = _loaded_modules st
         ∧ _module_dependencies st' = _module_dependencies st
         ∧ sys_modules st' !! n = Some (PyModule n (src_dict s))
         ∧ _module_threads st' !! n = None
         ∧ _thread_configs st' = _thread_configs st
         ∧ reloads_of n (new_output st st') = 0.
Proof.
  intros [m Hn] Hpath Hread He.
  destruct (kill_existing_threads_removes n st)
    as (Hth & Hsame & Hl & Hd & Hc).
  destruct (kill_existing_threads_output n st) as (out & Hout & Hnone).
  exists (set_sys_modules (insert n (PyModule n (src_dict s)))
            (kill_existing_threads n st)).
  split.
  { simpl. rewrite Hn. destruct (Hsame) as (_ & _ & Hp & _).
    rewrite Hp, Hpath. unfold exec_from_path.
    rewrite (same_sources_read_file st) by done.
    by rewrite Hread, He. }
  simpl. rewrite lookup_insert_eq. split_and!; try done.
  rewrite (new_output_app st _ out) by done. apply Hnone.
Qed.

Lemma reload_module_failed_source_witness :
  ∃ st', reload_module 1 "calc" broken_worker_state
         = Raised OtherException st'
         ∧ _loaded_modules st' = _loaded_modules broken_worker_state
         ∧ _module_dependencies st'
           = _module_dependencies broken_worker_state
         ∧ sys_modules st' !! "calc"
           = Some (PyModule "calc" (src_dict calc_broken))
         ∧ _module_threads st' !! "calc" = None
         ∧ _thread_configs st' = _thread_configs broken_worker_state
         ∧ reloads_of "calc" (new_output broken_worker_state st') = 0.
Proof.
  apply (reload_module_failed_source 0 "calc" "calc.py" calc_broken
           OtherException broken_worker_state).
  - apply (bool_decide_unpack _). vm_compute. exact I.
  - vm_compute. reflexivity.
  - vm_compute. reflexivity.
  - reflexivity.
Defined.

(** X18. [load_module_function] registers the module it imports and
    records no path for it: [module_path] is left as it was.  So when no
    path was recorded for the name before (a failed registration from a
    path leaves one), the next reload of the module in a well-formed state
    raises [KeyError], and changes nothing. *)
Theorem load_module_function_then_reload_raises
    fuel n f args kw st s :
  _loaded_modules st !! n = None → sys_modules st !! n = None →
  finder st !! n = Some s → src_raises s = None →
  let st' := (load_module_function n f args kw st).2 in
  is_Some (_loaded_modules st' !! n)
  ∧ module_path st' = module_path st
  ∧ (wf st → module_path st !! n = None →
     reload_module (S fuel) n st' = Raised KeyError st').
Proof.
  intros Hn Hsys Hfind Hok.
  unfold load_module_function, import_module.
  rewrite Hn, Hsys, Hfind, Hok.
  set (m := PyModule n (src_dict s)).
  assert (Hgen : ∀ st1,
            _loaded_modules st1 !! n = Some m →
            _module_threads st1 = _module_threads st →
            module_path st1 = module_path st →
            is_Some (_loaded_modules st1 !! n)
            ∧ module_path st1 = module_path st
            ∧ (wf st → module_path st !! n = None →
               reload_module (S fuel) n st1 = Raised KeyError st1)).
  { intros st1 H1 H2 H3. split_and!; [by eauto|done|].
    intros Hwf Hpath.
    assert (Hth : _module_threads st !! n = None).
    { apply not_elem_of_dom. intros Hin.
      apply (wf_threads st Hwf), (wf_configs st Hwf), elem_of_dom in Hin
        as [? Hin].
      congruence. }
    simpl. unfold kill_existing_threads. by rewrite H1, H2, Hth, H3, Hpath. }
  destruct (getattr m f) as [target|]; [destruct (callable target);
    [destruct (call target args kw)|]|];
    cbn [snd]; apply Hgen; simpl; by rewrite ?lookup_insert_eq.
Qed.

Lemma load_module_function_then_reload_raises_witness :
  is_Some (_loaded_modules
             (load_module_function "util" "twice" [] ∅ util_env).2
           !! "util")
  ∧ module_path (load_module_function "util" "twice" [] ∅ util_env).2
    = module_path util_env
  ∧ reload_module 1 "util"
      (load_module_function "util" "twice" [] ∅ util_env).2
    = Raised KeyError (load_module_function "util" "twice" [] ∅ util_env).2.
Proof.
  destruct (load_module_function_then_reload_raises 0 "util" "twice" [] ∅
              util_env util_src) as (Hreg & Hpath & Hreload).
  - vm_compute. reflexivity.
  - vm_compute. reflexivity.
  - vm_compute. reflexivity.
  - reflexivity.
  - split_and!; [exact Hreg|exact Hpath|]. apply Hreload.
    + split; compute_done.
    + vm_compute. reflexivity.
Defined.

(** * More on the workers *)

(** X19. A worker cannot be started with a positional argument for its
    operation, although [start_module_thread] accepts them: the dictionaries
    of the reloader are left as they were, and when the module and the
    operation are there the only effect is the report of an error. *)
Theorem start_module_thread_positional n f args kw st :
  args ≠ [] →
  result_after (same_dicts st) (start_module_thread n f args kw st)
  ∧ ∀ m target,
      ¬ binding_clash kw →
      _loaded_modules st !! n = Some m → getattr m f = Some target →
      start_module_thread n f args kw st
      = Done (print (MsgStartError n) st).
Proof.
  intros Hargs. unfold start_module_thread, start_module_thread_body.
  destruct args as [|a args]; [done|].
  split.
  - case_decide; simpl; [done|].
    destruct (_loaded_modules st !! n) as [m|]; [|done].
    by destruct (getattr m f).
  - intros m target Hclash Hn Hf. rewrite decide_False by done.
    by rewrite Hn, Hf.
Qed.

Lemma start_module_thread_positional_witness :
  result_after (same_dicts calc_state)
    (start_module_thread "calc" "tick" [VInt 1] ∅ calc_state)
  ∧ ∀ m target,
      ¬ binding_clash (∅ : gmap string value) →
      _loaded_modules calc_state !! "calc" = Some m →
      getattr m "tick" = Some target →
      start_module_thread "calc" "tick" [VInt 1] ∅ calc_state
      = Done (print (MsgStartError "calc") calc_state).
Proof.
  apply (start_module_thread_positional "calc" "tick" [VInt 1] ∅ calc_state).
  discriminate.
Defined.

(** X20. [start_module_thread] does not look at the worker a module has:
    the new worker takes its place in the table and the old one is not
    stopped.  The lines printed are those of the start alone. *)
Theorem start_module_thread_replaces_worker n f kw st m target :
  _loaded_modules st !! n = Some m → getattr m f = Some target →
  ¬ binding_clash kw → kw !! "target" = None →
  ∃ st' th,
    start_module_thread n f [] kw st = Done st'
    ∧ _module_threads st' = <[n := th]> (_module_threads st)
    ∧ main_function th = target ∧ is_running th = true
    ∧ _thread_configs st' = <[n := Config f [] kw]> (_thread_configs st)
    ∧ stdout st' = stdout st ++ [MsgThreadStarted; MsgStarted f n].
Proof.
  intros Hn Hf Hclash Htarget. unfold start_module_thread.
  rewrite decide_False by done.
  unfold start_module_thread_body. rewrite Hn, Hf. unfold new.
  rewrite decide_False.
  2: { rewrite Htarget. intros [[? ?]|Hself]; [done|].
       apply Hclash. by left. }
  simpl. eexists _, _. split; [done|]. simpl.
  split_and!; try done. by rewrite <- app_assoc.
Qed.

Lemma start_module_thread_replaces_worker_witness :
  ∃ st' th,
    start_module_thread "calc" "VERSION" [] ∅ worker_state = Done st'
    ∧ _module_threads st' = <["calc" := th]> (_module_threads worker_state)
    ∧ main_function th = AValue (VInt 3) ∧ is_running th = true
    ∧ _thread_configs st'
      = <["calc" := Config "VERSION" [] ∅]> (_thread_configs worker_state)
    ∧ stdout st'
      = stdout worker_state ++ [MsgThreadStarted; MsgStarted "VERSION" "calc"].
Proof.
  apply (start_module_thread_replaces_worker "calc" "VERSION" ∅ worker_state
           (PyModule "calc" (src_dict calc_v1)) (AValue (VInt 3))).
  - vm_compute. reflexivity.
  - vm_compute. reflexivity.
  - apply (bool_decide_unpack _). vm_compute. exact I.
  - reflexivity.
Defined.

(** X21. [kill_thread] removes the worker of the module from the table and
    touches no other dictionary; it prints what [stop] prints and that the
    worker was killed.  A second [kill_thread] only reports that there is no
    worker. *)
Theorem kill_thread_twice n st :
  let st1 := kill_thread n st in
  _module_threads st1 = delete n (_module_threads st)
  ∧ _loaded_modules st1 = _loaded_modules st
  ∧ _module_dependencies st1 = _module_dependencies st
  ∧ _thread_configs st1 = _thread_configs st
  ∧ (∀ th, _module_threads st !! n = Some th →
           stdout st1 = stdout st ++ (stop th).2 ++ [MsgKilled n])
  ∧ kill_thread n st1 = print (MsgNoThread n) st1.
Proof.
  intros st1. subst st1.
  destruct (_module_threads st !! n) as [th|] eqn:Hth.
  - assert (E : kill_thread n st
                = print (MsgKilled n)
                    (set_module_threads (delete n)
                       (print_lines (stop th).2 st))).
    { unfold kill_thread. rewrite Hth. by destruct (stop th). }
    rewrite E. simpl. split_and!; try done.
    + intros th0 [= <-]. by rewrite <- app_assoc.
    + unfold kill_thread. simpl. by rewrite lookup_delete_eq.
  - assert (E : kill_thread n st = print (MsgNoThread n) st).
    { unfold kill_thread. by rewrite Hth. }
    rewrite E. simpl. split_and!; try done.
    + by rewrite delete_id.
    + unfold kill_thread. simpl. by rewrite Hth.
Qed.

(** * More on direct invocation *)

(** X22. [load_module_function] looks for the module in the registry
    first and in [sys.modules] next, and imports nothing when it finds it:
    the state is untouched apart from the report of a failure, so that a
    module found in [sys.modules] alone is called without being registered.
    Unlike [start_module_thread] it refuses an attribute that cannot be
    called. *)
Theorem load_module_function_uses_loaded n f args kw st m :
  _loaded_modules st !! n = Some m
  ∨ (_loaded_modules st !! n = None ∧ sys_modules st !! n = Some m) →
  let r := load_module_function n f args kw st in
  same_dicts st r.2 ∧ sys_modules r.2 = sys_modules st
  ∧ (∀ target v, getattr m f = Some target → callable target = true →
                 call target args kw = Returns v → r = (v, st))
  ∧ (∀ target, getattr m f = Some target → callable target = false →
               r = (VNone, print (MsgNotCallable f n) st))
  ∧ (getattr m f = None → r = (VNone, print (MsgAccessError f n) st)).
Proof.
  intros Hfound r.
  assert (Hr : r = match getattr m f with
                   | None => (VNone, print (MsgAccessError f n) st)
                   | Some target_func =>
                       if callable target_func then
                         match call target_func args kw with
                         | Returns v => (v, st)
                         | Throws e =>
                             (VNone, print (report_exception e n f) st)
                         end
                       else (VNone, print (MsgNotCallable f n) st)
                   end).
  { subst r. unfold load_module_function.
    by destruct Hfound as [->|[-> ->]]. }
  rewrite Hr. clear Hr r.
  destruct (getattr m f) as [target|].
  - destruct (callable target) eqn:Hc.
    + destruct (call target args kw) as [v|e] eqn:Hv; simpl;
        split_and!; try done;
        try (intros t [= <-]; congruence); intros t v' [= <-]; congruence.
    + simpl; split_and!; try done;
        try (intros t [= <-]; congruence); intros t v' [= <-]; congruence.
  - simpl. by split_and!.
Qed.

Lemma load_module_function_uses_loaded_witness :
  let r := load_module_function "calc" "VERSION" [] ∅ worker_state in
  same_dicts worker_state r.2 ∧ sys_modules r.2 = sys_modules worker_state
  ∧ (∀ target v,
       getattr (PyModule "calc" (src_dict calc_v1)) "VERSION" = Some target →
       callable target = true →
       call target [] ∅ = Returns v → r = (v, worker_state))
  ∧ (∀ target,
       getattr (PyModule "calc" (src_dict calc_v1)) "VERSION" = Some target →
       callable target = false →
       r = (VNone, print (MsgNotCallable "VERSION" "calc") worker_state))
  ∧ (getattr (PyModule "calc" (src_dict calc_v1)) "VERSION" = None →
     r = (VNone, print (MsgAccessError "VERSION" "calc") worker_state)).
Proof.
  apply (load_module_function_uses_loaded "calc" "VERSION" [] ∅ worker_state
           (PyModule "calc" (src_dict calc_v1))).
  left. vm_compute. reflexivity.
Defined.

(** * What holds however the reloader is used *)

Global Instance keeps_running_preorder : PreOrder keeps_running.
Proof.
  split; unfold keeps_running; [by intros st|intros st1 st2 st3; eauto].
Qed.

Lemma same_threads_keeps_running st st' :
  _module_threads st' = _module_threads st → keeps_running st st'.
Proof. unfold keeps_running, workers_running. by intros ->. Qed.

Lemma start_running t : is_running (start t).1 = true.
Proof. unfold start. by destruct (_is_running t) eqn:Ht. Qed.

Lemma kill_thread_keeps_running n st : keeps_running st (kill_thread n st).
Proof.
  unfold kill_thread. destruct (_module_threads st !! n) as [th|];
    [|by apply same_threads_keeps_running].
  destruct (stop th). intros Hrun. unfold workers_running. simpl.
  by apply map_Forall_delete.
Qed.

Lemma start_module_thread_body_keeps_running n f args kw st :
  keeps_running st (start_module_thread_body n f args kw st).
Proof.
  unfold start_module_thread_body.
  destruct (_loaded_modules st !! n) as [m|];
    [|by apply same_threads_keeps_running].
  destruct (getattr m f) as [a|]; [|by apply same_threads_keeps_running].
  destruct (new a args kw) as [th|]; [|by apply same_threads_keeps_running].
  pose proof (start_running th) as Hth.
  destruct (start th) as [th' ms]. intros Hrun. unfold workers_running.
  simpl. by apply map_Forall_insert_2.
Qed.

Lemma reload_module_keeps_running fuel n st :
  result_after (keeps_running st) (reload_module fuel n st).
Proof.
  apply reload_module_rel; try apply _.
  - intros. by apply same_threads_keeps_running.
  - apply kill_thread_keeps_running.
  - intros n' path st0. apply same_threads_keeps_running.
    by destruct (exec_from_path_same_dicts n' path st0) as (_ & _ & ? & _).
  - intros. by apply same_threads_keeps_running.
  - intros. apply start_module_thread_body_keeps_running.
Qed.

Lemma register_module_register_frame sha256 n custom_path use_cython st :
  result_after (register_frame n st)
    (register_module sha256 n custom_path use_cython st).
Proof.
  apply (register_module_rel sha256 n (register_frame n)
           (print_register_frame n) (paths_register_frame n)
           (exec_from_path_register_frame n)
           (λ path st, same_but_backups_register_frame n _ _
              (create_backup_same_but_backups sha256 n path st))
           (sys_delete_register_frame n)
           (sys_insert_register_frame n)
           (import_module_register_frame n)
           (load_from_backup_register_frame n)
           (store_module_register_frame n)).
Qed.

Lemma load_module_function_threads n f args kw st :
  _module_threads (load_module_function n f args kw st).2
  = _module_threads st.
Proof.
  unfold load_module_function.
  set (found := match _loaded_modules st !! n with
                | Some _ => _ | None => _ end).
  assert (Hfound : _module_threads found.2 = _module_threads st).
  { subst found. destruct (_loaded_modules st !! n); [done|].
    destruct (sys_modules st !! n); [done|].
    destruct (import_module_same_dicts n st) as (_ & _ & H1 & _).
    by destruct (import_module n st) as [[e|m] st1]. }
  destruct found as [[e|m] st1]; simpl in *; [done|].
  destruct (getattr m f) as [target|]; [|done].
  destruct (callable target); [|done].
  by destruct (call target args kw).
Qed.

Lemma reachable_running sha256 st :
  reachable sha256 st → workers_running st.
Proof.
  induction 1 as [env|st st' _ IH Hd _|n p c st st' _ IH He
                 |fuel n st st' _ IH He|fuel st st' _ IH He
                 |n f args kw st st' _ IH He|n st _ IH|n f args kw st _ IH].
  - unfold workers_running. simpl. apply map_Forall_empty.
  - destruct Hd as (_ & _ & Ht & _).
    by apply (same_threads_keeps_running st).
  - pose proof (register_module_register_frame sha256 n p c st) as Hk.
    destruct He as [He|[e He]]; rewrite He in Hk;
      destruct Hk as (_ & _ & Ht & _);
      by apply (same_threads_keeps_running st).
  - pose proof (reload_module_keeps_running fuel n st) as Hk.
    destruct He as [He|[e He]]; rewrite He in Hk; by apply Hk.
  - pose proof (reload_each_rel keeps_running (reload_module fuel)
                  (get_loaded_modules st)
                  (reload_module_keeps_running fuel) st) as Hk.
    unfold reload_all in He.
    destruct He as [He|[e He]]; rewrite He in Hk; by apply Hk.
  - unfold start_module_thread in He.
    pose proof (start_module_thread_body_keeps_running n f args kw st) as Hk.
    case_decide; destruct He as [He|[e He]]; simplify_eq; by try apply Hk.
  - by apply kill_thread_keeps_running.
  - apply (same_threads_keeps_running st); [|done].
    apply load_module_function_threads.
Qed.

(** X23. However the reloader was used, a worker in its table belongs to
    a registered module, is marked as running and has a stored
    configuration without positional arguments; so [kill_thread] for it
    prints the two lines of a stop that took place, never that the thread was
    not running. *)
Theorem reachable_workers_running sha256 st n th :
  reachable sha256 st →
  _module_threads st !! n = Some th →
  is_running th = true
  ∧ is_Some (_loaded_modules st !! n)
  ∧ (∃ cfg, _thread_configs st !! n = Some cfg ∧ cfg_args cfg = [])
  ∧ stdout (kill_thread n st)
    = stdout st ++ [MsgThreadStopping; MsgThreadStopped; MsgKilled n].
Proof.
  intros Hreach Hth.
  pose proof (reachable_running sha256 st Hreach n th Hth) as Hrun.
  pose proof (reachable_wf sha256 st Hreach) as Hwf.
  assert (Hcfg : is_Some (_thread_configs st !! n)).
  { apply elem_of_dom, (wf_threads st Hwf), elem_of_dom. eauto. }
  destruct Hcfg as [cfg Hcfg].
  split; [done|]. split.
  { apply elem_of_dom, (wf_configs st Hwf), elem_of_dom. eauto. }
  split.
  { exists cfg. split; [done|].
    by destruct (wf_config_ok st Hwf n cfg Hcfg) as (? & _). }
  unfold kill_thread. rewrite Hth. unfold stop.
  unfold is_running in Hrun. rewrite Hrun. simpl. by rewrite <- app_assoc.
Qed.

Lemma reachable_workers_running_witness :
  is_running (Thread false true (AFunc returns_none) {[ "n" := VInt 1 ]}
                (VInt 1)) = true
  ∧ is_Some (_loaded_modules worker_state !! "calc")
  ∧ (∃ cfg, _thread_configs worker_state !! "calc" = Some cfg
            ∧ cfg_args cfg = [])
  ∧ stdout (kill_thread "calc" worker_state)
    = stdout worker_state
      ++ [MsgThreadStopping; MsgThreadStopped; MsgKilled "calc"].
Proof.
  apply (reachable_workers_running toy_hash worker_state "calc").
  - exact worker_state_reachable.
  - vm_compute. reflexivity.
Defined.

Global Instance keeps_records_preorder : PreOrder keeps_records.
Proof.
  split.
  - by intros st.
  - intros st1 st2 st3 (?&?&?) (?&?&?). split_and!; by etrans.
Qed.

Lemma same_dicts_keeps_records st st' :
  same_dicts st st' → keeps_records st st'.
Proof. intros (Hl & Hd & _ & Hc). unfold keeps_records. by rewrite Hl, Hd, Hc. Qed.

Lemma store_keeps_records n foo deps st :
  keeps_records st (set_module_dependencies (insert n deps)
                      (set_loaded_modules (insert n foo) st)).
Proof.
  split_and!; simpl; [| |done]; rewrite dom_insert_L; apply union_subseteq_r.
Qed.

Lemma kill_thread_keeps_records n st : keeps_records st (kill_thread n st).
Proof.
  unfold kill_thread. destruct (_module_threads st !! n) as [th|]; [|done].
  by destruct (stop th).
Qed.

Lemma start_module_thread_body_keeps_records n f args kw st :
  keeps_records st (start_module_thread_body n f args kw st).
Proof.
  unfold start_module_thread_body.
  destruct (_loaded_modules st !! n) as [m|]; [|done].
  destruct (getattr m f) as [a|]; [|done].
  destruct (new a args kw) as [th|]; [|done].
  destruct (start th). split_and!; simpl; [done..|].
  rewrite dom_insert_L. apply union_subseteq_r.
Qed.

Lemma reload_module_keeps_records fuel n st :
  result_after (keeps_records st) (reload_module fuel n st).
Proof.
  apply reload_module_rel; try apply _.
  - done.
  - apply kill_thread_keeps_records.
  - intros. apply same_dicts_keeps_records, exec_from_path_same_dicts.
  - intros. apply store_keeps_records.
  - intros. apply start_module_thread_body_keeps_records.
Qed.

Lemma register_module_keeps_records sha256 n custom_path use_cython st :
  result_after (keeps_records st)
    (register_module sha256 n custom_path use_cython st).
Proof.
  apply (register_module_rel sha256 n keeps_records); try done.
  - intros. apply same_dicts_keeps_records, exec_from_path_same_dicts.
  - intros. apply same_dicts_keeps_records, create_backup_same_dicts.
  - intros. apply same_dicts_keeps_records, import_module_same_dicts.
  - intros. apply same_dicts_keeps_records, load_from_backup_same_dicts.
  - intros m st0 _. unfold store_module.
    etrans; [apply (store_keeps_records n m (_get_module_dependencies m))|].
    simpl. by destruct (sys_modules st0 !! n).
Qed.

Lemma load_module_function_keeps_records n f args kw st :
  keeps_records st (load_module_function n f args kw st).2.
Proof.
  unfold load_module_function.
  set (found := match _loaded_modules st !! n with
                | Some _ => _ | None => _ end).
  assert (Hfound : keeps_records st found.2).
  { subst found. destruct (_loaded_modules st !! n); [done|].
    destruct (sys_modules st !! n); [done|].
    pose proof (import_module_same_dicts n st) as H1.
    apply same_dicts_keeps_records in H1.
    destruct (import_module n st) as [[e|m] st1]; simpl in *; [exact H1|].
    etrans; [exact H1|]. split_and!; simpl; [|done..].
    rewrite dom_insert_L. apply union_subseteq_r. }
  destruct found as [[e|m] st1]; simpl in *; [done|].
  destruct (getattr m f) as [target|]; [|done].
  destruct (callable target); [|done].
  by destruct (call target args kw).
Qed.

(** X24. No method of the reloader ever drops a record: after any
    sequence of calls, whether they return or raise, every name that was
    registered is registered, and every name that had a dependency set or a
    worker configuration has one.  The table of workers is the only
    dictionary that shrinks. *)
Theorem method_calls_keep_records sha256 st st' :
  rtc (method_call sha256) st st' → keeps_records st st'.
Proof.
  induction 1 as [st|st st1 st' Hcall _ IH]; [done|].
  etrans; [|exact IH]. clear IH.
  destruct Hcall as [n p c st1 He|fuel n st1 He|fuel st1 He
                    |n f args kw st1 He|n|n f args kw].
  - pose proof (register_module_keeps_records sha256 n p c st) as Hk.
    by destruct He as [He|[e He]]; rewrite He in Hk.
  - pose proof (reload_module_keeps_records fuel n st) as Hk.
    by destruct He as [He|[e He]]; rewrite He in Hk.
  - pose proof (reload_each_rel keeps_records (reload_module fuel)
                  (get_loaded_modules st)
                  (reload_module_keeps_records fuel) st) as Hk.
    unfold reload_all in He.
    by destruct He as [He|[e He]]; rewrite He in Hk.
  - unfold start_module_thread in He.
    pose proof (start_module_thread_body_keeps_records n f args kw st) as Hk.
    case_decide; destruct He as [He|[e He]]; by simplify_eq.
  - apply kill_thread_keeps_records.
  - apply load_module_function_keeps_records.
Qed.

Lemma method_calls_keep_records_witness :
  keeps_records worker_state
    (state_of (reload_module 1 "calc" (kill_thread "calc" worker_state))
       empty_env).
Proof.
  apply (method_calls_keep_records toy_hash).
  apply (rtc_l _ _ (kill_thread "calc" worker_state)).
  - apply call_kill_thread.
  - apply rtc_once. apply (call_reload_module _ _ 1 "calc").
    left. vm_compute. reflexivity.
Defined.

(** * Registration by name *)

(** X25. A registration without a path goes through the import system:
    the module it finds is registered with its scanned dependencies, and the
    registration makes no backup and records no path: the backup directory
    and [module_path] are left as they were.  So when no path was recorded
    for the name before (a failed registration from a path leaves one), a
    later reload of the module in a well-formed state raises [KeyError]. *)
Theorem register_module_without_path sha256 n use_cython st s :
  _loaded_modules st !! n = None → sys_modules st !! n = None →
  finder st !! n = Some s → src_raises s = None →
  ∃ st',
    register_module sha256 n None use_cython st = Done st'
    ∧ _loaded_modules st' !! n = Some (PyModule n (src_dict s))
    ∧ _module_dependencies st' !! n
      = Some (_get_module_dependencies (PyModule n (src_dict s)))
    ∧ sys_modules st' !! n = Some (PyModule n (src_dict s))
    ∧ backups st' = backups st ∧ module_path st' = module_path st
    ∧ stdout st' = stdout st ++ [MsgRegistered n]
    ∧ (wf st → module_path st !! n = None →
       ∀ fuel, reload_module (S fuel) n st' = Raised KeyError st').
Proof.
  intros Hn Hsys Hfind Hok.
  unfold register_module, register_loaded, import_module.
  rewrite Hsys, Hn, Hfind, Hok. unfold store_module. simpl.
  rewrite lookup_insert_eq. eexists. split; [done|]. simpl.
  rewrite !lookup_insert_eq. split_and!; try done.
  intros Hwf Hpath fuel.
  assert (Hth : _module_threads st !! n = None).
  { apply not_elem_of_dom. intros Hin.
    apply (wf_threads st Hwf), (wf_configs st Hwf), elem_of_dom in Hin
      as [? Hin].
    congruence. }
  simpl. unfold kill_existing_threads. simpl.
  rewrite Hth. simpl. by rewrite Hpath.
Qed.

Lemma register_module_without_path_witness :
  ∃ st',
    register_module toy_hash "util" None false util_env = Done st'
    ∧ _loaded_modules st' !! "util"
      = Some (PyModule "util" (src_dict util_src))
    ∧ _module_dependencies st' !! "util"
      = Some (_get_module_dependencies
                (PyModule "util" (src_dict util_src)))
    ∧ sys_modules st' !! "util" = Some (PyModule "util" (src_dict util_src))
    ∧ backups st' = backups util_env
    ∧ module_path st' = module_path util_env
    ∧ stdout st' = stdout util_env ++ [MsgRegistered "util"]
    ∧ ∀ fuel, reload_module (S fuel) "util" st' = Raised KeyError st'.
Proof.
  destruct (register_module_without_path toy_hash "util" false util_env
              util_src)
    as (st' & Hreg & Hl & Hd & Hsys & Hb & Hp & Hout & Hreload).
  - vm_compute. reflexivity.
  - vm_compute. reflexivity.
  - vm_compute. reflexivity.
  - reflexivity.
  - exists st'. split_and!; try done. apply Hreload.
    + split; compute_done.
    + vm_compute. reflexivity.
Defined.
